(** * Version files of the NightScout backup bot and API

    A shallow embedding of the semantic-release plugin that bumps the
    Python version files (readPythonVersion, updatePythonVersion,
    updatePyprojectVersion, analyzeCommits, calculateNextVersion,
    syncWrapperVersions, prepare) and of the two scripts it relies on
    (get_version.js, sync_versions.js), with the properties of the
    version policy proved over it. *)

From Stdlib Require Import ZArith NArith List Bool Ascii String Lia.
From Stdlib Require Import Decimal DecimalString DecimalN QArith Qround.
Import ListNotations.

Close Scope Q_scope.
Local Open Scope string_scope.

(** ** Characters and strings

    A JavaScript string is a sequence of UTF-16 code units.  The texts
    handled here (version files, commit messages, release types) are taken
    over the code units below 256, so that a character is an [ascii] and a
    text a [string]; the character classes below are the ECMAScript ones
    cut down to that range. *)

Module Char.

Definition code (c : ascii) : N := N_of_ascii c.

Definition between (lo hi : N) (c : ascii) : bool :=
  ((lo <=? code c) && (code c <=? hi))%N.

(** WhiteSpace and LineTerminator code units: TAB, LF, VT, FF, CR, SP, NBSP. *)
Definition isWhiteSpace (c : ascii) : bool :=
  between 9 13 c || (code c =? 32)%N || (code c =? 160)%N.

Definition isLineTerminator (c : ascii) : bool :=
  (code c =? 10)%N || (code c =? 13)%N.

Definition isDigit (c : ascii) : bool := between 48 57 c.

Definition shift_down (c : ascii) : ascii := ascii_of_N (code c - 32).
Definition shift_up (c : ascii) : ascii := ascii_of_N (code c + 32).

(** Canonicalize of a pattern with the i flag and without the u flag: the
    upper-case mapping of the code unit, kept only when it is a single
    code unit and does not turn a non-ASCII unit into an ASCII one.  Below
    256 that moves a..z and the accented lower-case letters (all of
    0xE0..0xFE except the division sign 0xF7); the upper-case forms of
    0xB5 and 0xFF lie above 255 and are the image of nothing else in the
    range, so those two units stand for their own image. *)
Definition canonicalize (c : ascii) : ascii :=
  if between 97 122 c then shift_down c
  else if between 224 254 c && negb (code c =? 247)%N then shift_down c
  else c.

(** ASCII lower-casing, the plain reading of "case-insensitively". *)
Definition toLowerAscii (c : ascii) : ascii :=
  if between 65 90 c then shift_up c else c.

Definition sameChar (ignoreCase : bool) (a b : ascii) : bool :=
  if ignoreCase then Ascii.eqb (canonicalize a) (canonicalize b)
  else Ascii.eqb a b.

(** Every character, for properties checked case by case. *)
Definition allChars : list ascii := List.map ascii_of_nat (seq 0 256).

(** ASCII and not an upper-case letter *)
Definition plain (a : ascii) : bool :=
  (code a <? 128)%N && negb (between 65 90 a).

End Char.

Module Str.

Fixpoint take (n : nat) (s : string) : string :=
  match n, s with
  | S n', String c s' => String c (take n' s')
  | _, _ => EmptyString
  end.

Fixpoint dropWhile (p : ascii -> bool) (s : string) : string :=
  match s with
  | String c s' => if p c then dropWhile p s' else s
  | EmptyString => EmptyString
  end.

Fixpoint takeWhile (p : ascii -> bool) (s : string) : string :=
  match s with
  | String c s' => if p c then String c (takeWhile p s') else EmptyString
  | EmptyString => EmptyString
  end.

Fixpoint forallb (p : ascii -> bool) (s : string) : bool :=
  match s with
  | String c s' => p c && forallb p s'
  | EmptyString => true
  end.

Fixpoint existsb (p : ascii -> bool) (s : string) : bool :=
  match s with
  | String c s' => p c || existsb p s'
  | EmptyString => false
  end.

Fixpoint map (f : ascii -> ascii) (s : string) : string :=
  match s with
  | String c s' => String (f c) (map f s')
  | EmptyString => EmptyString
  end.

Fixpoint rev_onto (s acc : string) : string :=
  match s with
  | String c s' => rev_onto s' (String c acc)
  | EmptyString => acc
  end.

Definition rev (s : string) : string := rev_onto s EmptyString.

Definition isEmpty (s : string) : bool :=
  match s with EmptyString => true | _ => false end.

Definition isSome {A : Type} (x : option A) : bool :=
  match x with Some _ => true | None => false end.

(** String.prototype.trim: white space and line terminators go from both ends. *)
Definition trim (s : string) : string :=
  rev (dropWhile Char.isWhiteSpace (rev (dropWhile Char.isWhiteSpace s))).

(** [s.split(sep)] for a one-character separator: never an empty list. *)
Fixpoint split (sep : ascii) (s : string) : list string :=
  match s with
  | EmptyString => [EmptyString]
  | String c s' =>
      if Ascii.eqb c sep then EmptyString :: split sep s'
      else match split sep s' with
           | p :: ps => String c p :: ps
           | [] => [String c EmptyString]
           end
  end.

End Str.

(** ** Regular expressions

    The patterns of the plugin are built from literals, character classes,
    greedy repetition of a class, sequence, alternation and one capture
    group, with at most a leading [^].  [rmatch] is the backtracking
    matcher of ECMAScript in continuation-passing style. *)

Module Regex.

Inductive cclass : Type :=
| WhiteSpace                 (* \s *)
| OneOf (cs : string)        (* [...] *)
| NoneOf (cs : string).      (* [^...] *)

Inductive regex : Type :=
| Lit (s : string)
| Class (k : cclass)
| Star (k : cclass)
| Seq (r1 r2 : regex)
| Alt (r1 r2 : regex)
| Group (r : regex).

(** [k+] is [k k*]. *)
Definition Plus (k : cclass) : regex := Seq (Class k) (Star k).

Declare Scope regex_scope.
Delimit Scope regex_scope with regex.
Notation "r1 || r2" := (Alt r1 r2) : regex_scope.

Record pattern : Type := {
  anchored : bool;      (* the pattern starts with ^ *)
  body : regex;
  ignoreCase : bool;    (* flag i *)
  multiline : bool      (* flag m *)
}.

Definition inClass (ic : bool) (k : cclass) (c : ascii) : bool :=
  match k with
  | WhiteSpace => Char.isWhiteSpace c
  | OneOf cs => Str.existsb (Char.sameChar ic c) cs
  | NoneOf cs => negb (Str.existsb (Char.sameChar ic c) cs)
  end.

(** The rest of [s] once the literal [l] has been read from its front. *)
Fixpoint stripLit (ic : bool) (l s : string) : option string :=
  match l, s with
  | EmptyString, _ => Some s
  | String a l', String b s' =>
      if Char.sameChar ic a b then stripLit ic l' s' else None
  | String _ _, EmptyString => None
  end.

Section Matcher.

Variable R : Type.

(** Greedy repetition: the longest run first, shorter ones on failure. *)
Fixpoint star (p : ascii -> bool) (s : string) (k : string -> option R)
  : option R :=
  match s with
  | String c s' =>
      if p c then
        match star p s' k with
        | Some r => Some r
        | None => k s
        end
      else k s
  | EmptyString => k s
  end.

Fixpoint rmatch (ic : bool) (r : regex) (s : string) (cap : option string)
    (k : string -> option string -> option R) : option R :=
  match r with
  | Lit l =>
      match stripLit ic l s with
      | Some s' => k s' cap
      | None => None
      end
  | Class c =>
      match s with
      | String a s' => if inClass ic c a then k s' cap else None
      | EmptyString => None
      end
  | Star c => star (inClass ic c) s (fun s' => k s' cap)
  | Seq r1 r2 => rmatch ic r1 s cap (fun s' cap' => rmatch ic r2 s' cap' k)
  | Alt r1 r2 =>
      match rmatch ic r1 s cap k with
      | Some res => Some res
      | None => rmatch ic r2 s cap k
      end
  | Group r1 =>
      rmatch ic r1 s cap
        (fun s' _ => k s' (Some (Str.take (length s - length s') s)))
  end.

End Matcher.

(** A match anchored at the front of [s]: what is left and the group. *)
Definition matchHere (p : pattern) (s : string)
  : option (string * option string) :=
  rmatch _ (ignoreCase p) (body p) s None (fun s' cap => Some (s', cap)).

Record matchResult : Type := {
  before : string;
  matched : string;
  after : string;
  group1 : option string
}.

Definition shiftResult (c : ascii) (m : matchResult) : matchResult :=
  {| before := String c (before m); matched := matched m;
     after := after m; group1 := group1 m |}.

(** May a match start right after [prev] ([None]: at the start of the input)? *)
Definition mayStart (p : pattern) (prev : option ascii) : bool :=
  negb (anchored p) ||
  match prev with
  | None => true
  | Some c => multiline p && Char.isLineTerminator c
  end.

(** The leftmost match, as RegExpBuiltinExec finds it for a pattern without
    the g and y flags: start positions are tried from left to right. *)
Fixpoint scan (p : pattern) (prev : option ascii) (s : string)
  : option matchResult :=
  match (if mayStart p prev then matchHere p s else None) with
  | Some (rest, cap) =>
      Some {| before := EmptyString;
              matched := Str.take (length s - length rest) s;
              after := rest; group1 := cap |}
  | None =>
      match s with
      | String c s' => option_map (shiftResult c) (scan p (Some c) s')
      | EmptyString => None
      end
  end.

Definition exec (p : pattern) (s : string) : option matchResult :=
  scan p None s.

(** GetSubstitution for a pattern without groups: [$$], [$&], [$`] and [$']
    are replaced, every other character stands for itself. *)
Fixpoint substitute (m : matchResult) (template : string) : string :=
  match template with
  | String c t =>
      if Ascii.eqb c "$" then
        match t with
        | String d t' =>
            if Ascii.eqb d "$" then String "$" (substitute m t')
            else if Ascii.eqb d "&" then matched m ++ substitute m t'
            else if Ascii.eqb d "`" then before m ++ substitute m t'
            else if Ascii.eqb d "'" then after m ++ substitute m t'
            else String c (substitute m t)
        | EmptyString => String c EmptyString
        end
      else String c (substitute m t)
  | EmptyString => EmptyString
  end.

(** [s.replace(p, template)] for a pattern without the g flag. *)
Definition replace (p : pattern) (template : string) (s : string) : string :=
  match exec p s with
  | Some m => before m ++ substitute m template ++ after m
  | None => s
  end.

End Regex.

(** ** Numbers

    A JavaScript number is an IEEE 754 double.  The values met here come
    from [Number(text)], from adding one and from printing, so a finite
    double is kept by its exact value: an integer, or a fraction in lowest
    terms.  Negative zero is not told from zero: it prints as [0] and gives
    [1] when one is added, like zero. *)

Module Num.

Local Open Scope Z_scope.

Inductive number : Type :=
| Int (z : Z)
| Frac (q : Q)
| Infinity (negative : bool)
| NaN.

(** Every integer up to this magnitude is a double. *)
Definition maxExact : Z := 2 ^ 53.

Definition isExact (z : Z) : bool := Z.abs z <=? maxExact.

Definition pow (base e : Z) : Q :=
  if 0 <=? e then inject_Z (base ^ e)
  else Qmake 1 (Z.to_pos (base ^ (- e))).

(** Round to the nearest integer, ties to the even one. *)
Definition roundHalfEven (q : Q) : Z :=
  let f := Qfloor q in
  match Qcompare (Qminus q (inject_Z f)) (Qmake 1 2) with
  | Lt => f
  | Gt => f + 1
  | Eq => if Z.even f then f else f + 1
  end.

(** The binary exponent of a positive rational: [2^e <= q < 2^(e+1)]. *)
Definition exponent2 (q : Q) : Z :=
  let e := Z.log2 (Qnum q) - Z.log2 (Zpos (Qden q)) in
  if Qle_bool (pow 2 e) q then e else e - 1.

Definition normalize (q : Q) : number :=
  let r := Qred q in
  match Qden r with
  | xH => Int (Qnum r)
  | _ => Frac r
  end.

(** The double nearest a positive rational (53 bits of precision above
    2^-1022, steps of 2^-1074 below, overflow at 2^1024). *)
Definition roundPositive (negative : bool) (q : Q) : number :=
  let e := Z.max (exponent2 q) (-1022) in
  let ulp := pow 2 (e - 52) in
  let v := Qmult (inject_Z (roundHalfEven (Qdiv q ulp))) ulp in
  if Qle_bool (pow 2 1024) v then Infinity negative
  else normalize (if negative then Qopp v else v).

Definition ofQ (q : Q) : number :=
  match Qcompare q (inject_Z 0) with
  | Eq => Int 0
  | Gt => roundPositive false q
  | Lt => roundPositive true (Qopp q)
  end.

Definition ofZ (z : Z) : number :=
  if isExact z then Int z else ofQ (inject_Z z).

(** [x + 1] *)
Definition succ (x : number) : number :=
  match x with
  | Int z => ofZ (z + 1)
  | Frac q => ofQ (Qplus q (inject_Z 1))
  | Infinity b => Infinity b
  | NaN => NaN
  end.

(** *** Number to text (Number::toString, radix 10) *)

Definition decimal (n : N) : string :=
  NilZero.string_of_uint (N.to_uint n).

Definition digitCount (n : Z) : Z :=
  Z.of_nat (nb_digits (N.to_uint (Z.to_N n))).

(** The decimal exponent of a positive rational: [10^(n-1) <= q < 10^n]. *)
Definition exponent10 (q : Q) : Z :=
  if Qle_bool (inject_Z 1) q then digitCount (Qfloor q)
  else
    let d := digitCount (Qfloor (Qinv q)) in
    if Qle_bool (pow 10 (1 - d)) q then 2 - d else 1 - d.

Definition roundsTo (v c : Q) : bool :=
  match Qcompare c (inject_Z 0), ofQ c with
  | Gt, Int z => Qeq_bool (inject_Z z) v
  | Gt, Frac q => Qeq_bool q v
  | _, _ => false
  end.

(** The decimal with the fewest significant digits that reads back as the
    positive double [v], as a pair [(s, t)] standing for [s * 10^t]; of
    two such decimals with [k] digits the one nearer to [v]. *)
Fixpoint shortest (fuel : nat) (k : Z) (n : Z) (v : Q) : Z * Z :=
  let t := n - k in
  let lo := Qfloor (Qdiv v (pow 10 t)) in
  let value s := Qmult (inject_Z s) (pow 10 t) in
  match fuel with
  | O => (lo, t)
  | S fuel' =>
      match roundsTo v (value lo), roundsTo v (value (lo + 1)) with
      | true, true =>
          if Qle_bool (Qminus v (value lo)) (Qminus (value (lo + 1)) v)
          then (lo, t) else (lo + 1, t)
      | true, false => (lo, t)
      | false, true => (lo + 1, t)
      | false, false => shortest fuel' (k + 1) n v
      end
  end.

Fixpoint zeros (n : nat) : string :=
  match n with
  | O => EmptyString
  | S n' => String "0" (zeros n')
  end.

Definition stripZeros (s : string) : string :=
  Str.rev (Str.dropWhile (Ascii.eqb "0") (Str.rev s)).

Definition drop (n : nat) (s : string) : string :=
  substring n (String.length s - n) s.

(** The text of a positive double given by its digits [s] and the
    position [n] of the decimal point, steps 6 to 10 of Number::toString. *)
Definition layout (ds : string) (n : Z) : string :=
  let k := Z.of_nat (String.length ds) in
  if (k <=? n) && (n <=? 21) then
    ds ++ zeros (Z.to_nat (n - k))
  else if (0 <? n) && (n <=? 21) then
    Str.take (Z.to_nat n) ds ++ "." ++ drop (Z.to_nat n) ds
  else if (-6 <? n) && (n <=? 0) then
    "0." ++ zeros (Z.to_nat (- n)) ++ ds
  else
    let e := n - 1 in
    let sign := if e <? 0 then "-" else "+" in
    let mantissa :=
      if k =? 1 then ds else Str.take 1 ds ++ "." ++ drop 1 ds in
    mantissa ++ "e" ++ sign ++ decimal (Z.to_N (Z.abs e)).

Definition positiveToString (v : Q) : string :=
  let '(s, t) := shortest 17 1 (exponent10 v) v in
  layout (stripZeros (decimal (Z.to_N s))) (digitCount s + t).

Definition rationalToString (q : Q) : string :=
  match Qcompare q (inject_Z 0) with
  | Eq => "0"
  | Gt => positiveToString q
  | Lt => "-" ++ positiveToString (Qopp q)
  end.

Definition integerToString (z : Z) : string :=
  if z <? 0 then "-" ++ decimal (Z.to_N (- z)) else decimal (Z.to_N z).

(** An integer up to 2^53 in magnitude prints as its decimal expansion:
    no decimal with fewer digits reads back as it. *)
Definition toString (x : number) : string :=
  match x with
  | Int z =>
      if isExact z then integerToString z else rationalToString (inject_Z z)
  | Frac q => rationalToString q
  | Infinity false => "Infinity"
  | Infinity true => "-Infinity"
  | NaN => "NaN"
  end.

(** *** Text to number (StringToNumber) *)

Definition digitValue (c : ascii) : option Z :=
  let n := Z.of_N (Char.code c) in
  if Char.between 48 57 c then Some (n - 48)
  else if Char.between 97 122 c then Some (n - 87)
  else if Char.between 65 90 c then Some (n - 55)
  else None.

(** The value of a non-empty run of digits in the given base. *)
Fixpoint digitsFrom (base acc : Z) (s : string) : option Z :=
  match s with
  | EmptyString => Some acc
  | String c s' =>
      match digitValue c with
      | Some d => if d <? base then digitsFrom base (acc * base + d) s' else None
      | None => None
      end
  end.

Definition digits (base : Z) (s : string) : option Z :=
  match s with
  | EmptyString => None
  | _ => digitsFrom base 0 s
  end.

(** The value of a run of decimal digits, the empty run counting for 0. *)
Definition decimalValue (s : string) : option Z :=
  option_map (fun d => Z.of_N (N.of_uint d)) (NilEmpty.uint_of_string s).

(** ExponentPart, or nothing: [e], an optional sign and decimal digits. *)
Definition exponentPart (s : string) : option Z :=
  match s with
  | EmptyString => Some 0
  | String c s' =>
      if Ascii.eqb c "e" || Ascii.eqb c "E" then
        match s' with
        | String x ds =>
            if Ascii.eqb x "-" then option_map Z.opp (digits 10 ds)
            else if Ascii.eqb x "+" then digits 10 ds
            else digits 10 s'
        | EmptyString => None
        end
      else None
  end.

(** [m * 10^e] as a double. *)
Definition scaled (m e : Z) : number :=
  if 0 <=? e then ofZ (m * 10 ^ e)
  else ofQ (Qmult (inject_Z m) (pow 10 e)).

Definition negate (x : number) : number :=
  match x with
  | Int z => Int (- z)
  | Frac q => Frac (Qopp q)
  | Infinity b => Infinity (negb b)
  | NaN => NaN
  end.

(** An unsigned StrDecimalLiteral: [Infinity], or digits with an optional
    fraction and an optional exponent, at least one digit before the
    exponent. *)
Definition unsignedDecimal (s : string) : number :=
  if String.eqb s "Infinity" then Infinity false
  else
    let ip := Str.takeWhile Char.isDigit s in
    let r1 := Str.dropWhile Char.isDigit s in
    let hasPoint :=
      match r1 with
      | String c _ => Ascii.eqb c "."
      | EmptyString => false
      end in
    let fp := if hasPoint then Str.takeWhile Char.isDigit (drop 1 r1)
              else EmptyString in
    let r2 := if hasPoint then Str.dropWhile Char.isDigit (drop 1 r1)
              else r1 in
    if Str.isEmpty ip && Str.isEmpty fp then NaN
    else
      match decimalValue (ip ++ fp), exponentPart r2 with
      | Some m, Some e => scaled m (e - Z.of_nat (String.length fp))
      | _, _ => NaN
      end.

(** The base and the digits of a text that starts with 0x, 0o or 0b. *)
Definition radixPrefix (s : string) : option (Z * string) :=
  match s with
  | String c (String x ds) =>
      if negb (Ascii.eqb c "0") then None
      else if Ascii.eqb x "x" || Ascii.eqb x "X" then Some (16, ds)
      else if Ascii.eqb x "o" || Ascii.eqb x "O" then Some (8, ds)
      else if Ascii.eqb x "b" || Ascii.eqb x "B" then Some (2, ds)
      else None
  | _ => None
  end.

(** [Number(text)]: white space is trimmed, the empty text is 0, then a
    binary, octal or hexadecimal integer or a signed decimal literal is
    read, and anything else is NaN. *)
Definition ofString (text : string) : number :=
  let s := Str.trim text in
  match s with
  | EmptyString => Int 0
  | String c rest =>
      match radixPrefix s with
      | Some (base, ds) =>
          match digits base ds with
          | Some z => ofZ z
          | None => NaN
          end
      | None =>
          if Ascii.eqb c "-" then negate (unsignedDecimal rest)
          else if Ascii.eqb c "+" then unsignedDecimal rest
          else unsignedDecimal s
      end
  end.

End Num.

(** ** Files, child processes and the log *)

Module Sys.

Definition path : Type := string.

(** What stands at a path: nothing, something that cannot be read, or a
    file with its text. *)
Inductive node : Type :=
| Missing
| Unreadable
| File (content : string).

(** The world outside the plugin: the file tree, the paths a write
    succeeds on, and whether [spawnSync('node', ...)] can start a child. *)
Record world : Type := {
  nodeAt : path -> node;
  writable : path -> bool;
  nodeRuns : bool
}.

(** [fs.readFileSync(p, 'utf8')]; [None] when it throws. *)
Definition readFileSync (w : world) (p : path) : option string :=
  match nodeAt w p with
  | File content => Some content
  | _ => None
  end.

Definition existsSync (w : world) (p : path) : bool :=
  match nodeAt w p with
  | Missing => false
  | _ => true
  end.

(** A write replaces the text of a file or creates the file; what could
    not be read before the write cannot be read after it. *)
Definition written (content : string) (old : node) : node :=
  match old with
  | Unreadable => Unreadable
  | _ => File content
  end.

Definition store (p : path) (content : string) (w : world) : world :=
  {| nodeAt := fun q =>
       if String.eqb q p then written content (nodeAt w q) else nodeAt w q;
     writable := writable w;
     nodeRuns := nodeRuns w |}.

(** [fs.writeFileSync(p, content)]; [None] when it throws. *)
Definition writeFileSync (w : world) (p : path) (content : string)
  : option world :=
  if writable w p then Some (store p content w) else None.

(** The lines of the release log and of the error stream, by what they
    say rather than by their wording:
    - [UpdatingFiles]: Updating Python version files...
    - [CurrentBot v], [CurrentApi v]: Current bot / API version: v
    - [BumpingBot old new], [BumpingApi old new]: Bumping ... version
    - [Updated file v]: Updated file to v
    - [SyncingWrappers]: Syncing wrapper package.json files...
    - [SyncFailed]: Warning: Failed to sync wrapper package.json files
    - [SyncDone]: Synced wrapper package.json files
    - [UpdateError file]: Error updating file *)
Inductive notice : Type :=
| UpdatingFiles
| CurrentBot (v : string)
| CurrentApi (v : string)
| BumpingBot (old new : string)
| BumpingApi (old new : string)
| Updated (file : path) (v : string)
| SyncingWrappers
| SyncFailed
| SyncDone
| UpdateError (file : path).

Inductive event : Type :=
| Log (m : notice)             (* logger.log *)
| Warn (m : notice)            (* logger.warn *)
| ConsoleError (m : notice).   (* console.error *)

Inductive outcome (A : Type) : Type :=
| Returned (a : A)
| Thrown (error : string).

Arguments Returned {A} a.
Arguments Thrown {A} error.

(** A computation reads and writes the world, adds lines to the log, and
    returns or throws: from the world it starts in to its outcome, the
    world it leaves and the lines it logged, in order. *)
Definition M (A : Type) : Type := world -> outcome A * world * list event.

Definition ret {A} (a : A) : M A := fun w => (Returned a, w, []).

Definition bind {A B} (m : M A) (f : A -> M B) : M B :=
  fun w =>
    match m w with
    | (Returned a, w1, l1) =>
        let '(r, w2, l2) := f a w1 in (r, w2, (l1 ++ l2)%list)
    | (Thrown e, w1, l1) => (Thrown e, w1, l1)
    end.

Definition throw {A} (e : string) : M A := fun w => (Thrown e, w, []).

Definition emit (e : event) : M unit := fun w => (Returned tt, w, [e]).

Definition getWorld : M world := fun w => (Returned w, w, []).

Definition putWorld (w : world) : M unit := fun _ => (Returned tt, w, []).

Definition when (b : bool) (m : M unit) : M unit :=
  if b then m else ret tt.

Definition result {A} (x : outcome A * world * list event) : outcome A :=
  fst (fst x).

Definition final {A} (x : outcome A * world * list event) : world :=
  snd (fst x).

Definition logged {A} (x : outcome A * world * list event) : list event :=
  snd x.

(** [post x Q]: the outcome and the world of the run [x] satisfy [Q]. *)
Definition post {A} (x : outcome A * world * list event)
    (Q : outcome A -> world -> Prop) : Prop :=
  Q (result x) (final x).

End Sys.

Declare Scope js_scope.
Delimit Scope js_scope with js.
Notation "x <- m ;; k" := (Sys.bind m (fun x => k))
  (at level 61, m at next level, right associativity) : js_scope.
Notation "m ;; k" := (Sys.bind m (fun _ => k))
  (at level 61, right associativity) : js_scope.

(** ** The release plugin *)

Module Plugin.

Import Regex Sys.
Local Open Scope js_scope.

Definition dquote : ascii := "034"%char.
Definition newline : ascii := "010"%char.

(** The double and the single quote, the two characters of the class
    written [Q] in the patterns quoted below. *)
Definition quotes : string := String dquote (String "'" EmptyString).

Notation "r1 >> r2" := (Seq r1 r2) (at level 60, right associativity).

(** The tail shared by the version patterns, \s*=\s*[Q][^Q]+[Q], the
    quoted text in a group or not. *)
Definition assignment (inner : regex) : regex :=
  Star WhiteSpace >> Lit "=" >> Star WhiteSpace >>
  Class (OneOf quotes) >> inner >> Class (OneOf quotes).

(** /__version__\s*=\s*[Q]([^Q]+)[Q]/ *)
Definition versionPattern : pattern :=
  {| anchored := false;
     body := Lit "__version__" >> assignment (Group (Plus (NoneOf quotes)));
     ignoreCase := false; multiline := false |}.

(** /__version__\s*=\s*[Q][^Q]+[Q]/ *)
Definition versionAssignPattern : pattern :=
  {| anchored := false;
     body := Lit "__version__" >> assignment (Plus (NoneOf quotes));
     ignoreCase := false; multiline := false |}.

(** /^version\s*=\s*[Q][^Q]+[Q]/m *)
Definition pyprojectPattern : pattern :=
  {| anchored := true;
     body := Lit "version" >> assignment (Plus (NoneOf quotes));
     ignoreCase := false; multiline := true |}.

Definition scoped (scope : string) : regex :=
  Group (Lit scope
         || Lit ("feat(" ++ scope ++ ")")
         || Lit ("fix(" ++ scope ++ ")")
         || Lit ("perf(" ++ scope ++ ")")
         || Lit ("refactor(" ++ scope ++ ")"))%regex.

(** /^(bot|feat\(bot\)|fix\(bot\)|perf\(bot\)|refactor\(bot\))/i *)
Definition botPattern : pattern :=
  {| anchored := true; body := scoped "bot";
     ignoreCase := true; multiline := false |}.

(** /^(api|feat\(api\)|fix\(api\)|perf\(api\)|refactor\(api\))/i *)
Definition apiPattern : pattern :=
  {| anchored := true; body := scoped "api";
     ignoreCase := true; multiline := false |}.

(** *** readPythonVersion *)

Definition versionIn (content : string) : option string :=
  match exec versionPattern content with
  | Some m => group1 m
  | None => None
  end.

(** The version of a Python [__init__.py], [None] for JavaScript's null. *)
Definition readPythonVersion (filePath : path) : M (option string) :=
  w <- getWorld ;;
  match readFileSync w filePath with
  | Some content => ret (versionIn content)
  | None => ret None
  end.

(** *** updatePythonVersion and updatePyprojectVersion *)

Definition quoted (key newVersion : string) : string :=
  key ++ " = " ++ String dquote newVersion ++ String dquote EmptyString.

Definition patchFile (p : pattern) (key : string) (filePath : path)
    (newVersion : string) : M bool :=
  w <- getWorld ;;
  match readFileSync w filePath with
  | Some content =>
      let content' := replace p (quoted key newVersion) content in
      match writeFileSync w filePath content' with
      | Some w' => putWorld w' ;; ret true
      | None => emit (ConsoleError (UpdateError filePath)) ;; ret false
      end
  | None => emit (ConsoleError (UpdateError filePath)) ;; ret false
  end.

Definition updatePythonVersion : path -> string -> M bool :=
  patchFile versionAssignPattern "__version__".

Definition updatePyprojectVersion : path -> string -> M bool :=
  patchFile pyprojectPattern "version".

(** *** analyzeCommits *)

Record commit : Type := { message : string }.

Record decision : Type := { bumpBot : bool; bumpApi : bool }.

(** [text.match(p)] in a condition *)
Definition matches (p : pattern) (text : string) : bool :=
  match exec p text with
  | Some _ => true
  | None => false
  end.

Definition analyzeCommits (commits : list commit) : decision :=
  let hasBotCommits :=
    List.existsb (fun commit => matches botPattern (message commit)) commits in
  let hasApiCommits :=
    List.existsb (fun commit => matches apiPattern (message commit)) commits in
  {| bumpBot := hasBotCommits || (negb hasBotCommits && negb hasApiCommits);
     bumpApi := hasApiCommits || (negb hasBotCommits && negb hasApiCommits) |}.

(** *** calculateNextVersion

    A part of the version that is missing after the split is [undefined],
    here [None]: it prints as [undefined] and adding one to it gives NaN. *)

Definition plusOne (x : option Num.number) : option Num.number :=
  match x with
  | Some n => Some (Num.succ n)
  | None => Some Num.NaN
  end.

Definition show (x : option Num.number) : string :=
  match x with
  | Some n => Num.toString n
  | None => "undefined"
  end.

Definition calculateNextVersion (currentVersion releaseType : string)
  : string :=
  let parts := List.map Num.ofString (Str.split "." currentVersion) in
  let major := nth_error parts 0 in
  let minor := nth_error parts 1 in
  let patch := nth_error parts 2 in
  if String.eqb releaseType "major" then
    show (plusOne major) ++ ".0.0"
  else if String.eqb releaseType "minor" then
    show major ++ "." ++ show (plusOne minor) ++ ".0"
  else if String.eqb releaseType "patch" then
    show major ++ "." ++ show minor ++ "." ++ show (plusOne patch)
  else currentVersion.

(** *** get_version.js and sync_versions.js

    The child processes started with [spawnSync('node', ...)].  Paths are
    written from the root of the repository, where [path.resolve] over
    [__dirname] leads. *)

Definition botInit : path := "src/nightscout_backup_bot/__init__.py".
Definition apiInit : path := "src/nightscout_backup_bot/api/__init__.py".
Definition botManifest : path := "scripts/bot-wrapper/package.json".
Definition apiManifest : path := "scripts/api-wrapper/package.json".

(** What [spawnSync] reports of a child: its exit status, [None] for the
    null of a child that could not be started, and its standard output. *)
Record spawned : Type := { status : option Z; stdout : string }.

Definition notStarted : spawned :=
  {| status := None; stdout := EmptyString |}.

(** get_version.js with the argument [app] *)
Definition getVersionScript (w : world) (app : string) : spawned :=
  if negb (String.eqb app "bot") && negb (String.eqb app "api") then
    {| status := Some 1%Z; stdout := EmptyString |}
  else
    let versionFile := if String.eqb app "bot" then botInit else apiInit in
    match readFileSync w versionFile with
    | Some content =>
        match versionIn content with
        | Some v =>
            if Str.isEmpty v then {| status := Some 1%Z; stdout := EmptyString |}
            else {| status := Some 0%Z;
                    stdout := v ++ String newline EmptyString |}
        | None => {| status := Some 1%Z; stdout := EmptyString |}
        end
    | None => {| status := Some 1%Z; stdout := EmptyString |}
    end.

(** [spawnSync] buffers at most [maxBuffer] bytes of what a child writes,
    1024 * 1024 unless an option says otherwise, and no call here passes
    one.  A child that writes more is killed and the result carries an
    error.  The callers test the error before the status and do not look
    at the output then: the result stands here with the status null. *)
Definition maxBuffer : N := 1048576.

(** The bytes of a text written as UTF-8, as console.log writes it. *)
Fixpoint utf8Length (s : string) : N :=
  match s with
  | String c s' =>
      ((if Char.code c <? 128 then 1 else 2) + utf8Length s')%N
  | EmptyString => 0%N
  end.

Definition killed : spawned :=
  {| status := None; stdout := EmptyString |}.

(** [spawnSync('node', [scriptPath, app], { encoding: 'utf8', cwd })].  A
    run of get_version.js that fails writes one short line on its error
    stream, far below the limit; only the version it prints can pass it. *)
Definition spawnGetVersion (w : world) (app : string) : spawned :=
  if nodeRuns w then
    let child := getVersionScript w app in
    if (maxBuffer <? utf8Length (stdout child))%N then killed else child
  else notStarted.

(** getVersion of sync_versions.js *)
Definition getVersion (w : world) (app : string) : option string :=
  let result := spawnGetVersion w app in
  match status result with
  | Some 0%Z => Some (Str.trim (stdout result))
  | _ => None
  end.

Definition hexDigit (n : N) : ascii :=
  if (n <? 10)%N then ascii_of_N (48 + n) else ascii_of_N (87 + n).

(** QuoteJSONString without its outer quotes *)
Fixpoint escapeJSON (s : string) : string :=
  match s with
  | EmptyString => EmptyString
  | String c s' =>
      let n := Char.code c in
      (if (n =? 8)%N then "\b"
       else if (n =? 9)%N then "\t"
       else if (n =? 10)%N then "\n"
       else if (n =? 12)%N then "\f"
       else if (n =? 13)%N then "\r"
       else if (n =? 34)%N then String "\" (String dquote EmptyString)
       else if (n =? 92)%N then "\\"
       else if (n <? 32)%N then
         "\u00" ++ String (hexDigit (n / 16)) (String (hexDigit (n mod 16)) EmptyString)
       else String c EmptyString) ++ escapeJSON s'
  end.

Definition jsonString (s : string) : string :=
  String dquote (escapeJSON s) ++ String dquote EmptyString.

(** [JSON.stringify({ name, version }, null, 2) + '\n'] *)
Definition manifestText (appName version : string) : string :=
  "{" ++ String newline
  ("  " ++ jsonString "name" ++ ": " ++ jsonString appName ++ "," ++ String newline
  ("  " ++ jsonString "version" ++ ": " ++ jsonString version ++ String newline
  ("}" ++ String newline EmptyString))).

(** updatePackageJson of sync_versions.js *)
Definition updatePackageJson (manifest : path) (appName version : string)
    (w : world) : bool * world :=
  match writeFileSync w manifest (manifestText appName version) with
  | Some w' => (true, w')
  | None => (false, w)
  end.

Definition falsy (x : option string) : bool :=
  match x with
  | Some s => Str.isEmpty s
  | None => true
  end.

(** sync_versions.js: the exit status and the world it leaves *)
Definition syncVersionsScript (w : world) : Z * world :=
  let botVersion := getVersion w "bot" in
  let apiVersion := getVersion w "api" in
  match botVersion, apiVersion with
  | Some bv, Some av =>
      if Str.isEmpty bv || Str.isEmpty av then (1%Z, w)
      else
        let '(botUpdated, w1) :=
          updatePackageJson botManifest "nightscout-backup-bot" bv w in
        let '(apiUpdated, w2) :=
          updatePackageJson apiManifest "nightscout-backup-api" av w1 in
        if botUpdated && apiUpdated then (0%Z, w2) else (1%Z, w2)
  | _, _ => (1%Z, w)
  end.

(** *** syncWrapperVersions

    The child is sync_versions.js with its output piped.  The text it
    prints is not modelled, and so neither is the limit [maxBuffer] on
    it: the script prints each version twice and 246 bytes besides, so
    the limit is passed only by versions of several hundred thousand
    characters.  The statement that fixes the outcome of the sync for a
    whole release bounds the versions accordingly. *)

Definition syncWrapperVersions (botVersion apiVersion : string) : M bool :=
  w <- getWorld ;;
  if nodeRuns w then
    let '(code, w') := syncVersionsScript w in
    putWorld w' ;; ret (code =? 0)%Z
  else ret false.

(** *** prepare *)

Record pluginConfig : Type := {
  botVersionFile : path;
  apiVersionFile : path;
  pyprojectFile : option path
}.

Record context : Type := {
  commits : list commit;
  releaseType : string      (* nextRelease.type *)
}.

Record release : Type := {
  botVersion : string;
  apiVersion : string;
  version : string
}.

Definition orEmpty (x : option string) : string :=
  match x with
  | Some s => s
  | None => EmptyString
  end.

(** The block that updates the Python files and pyproject.toml *)
Definition updateFiles (pluginConfig : pluginConfig) (d : decision)
    (botVersion apiVersion : string) : M unit :=
  when (bumpBot d)
    (ok <- updatePythonVersion (botVersionFile pluginConfig) botVersion ;;
     if negb ok then
       throw ("Failed to update bot version in " ++ botVersionFile pluginConfig)
     else
       emit (Log (Updated (botVersionFile pluginConfig) botVersion)) ;;
       w <- getWorld ;;
       match pyprojectFile pluginConfig with
       | Some file =>
           if negb (Str.isEmpty file) && existsSync w file then
             ok <- updatePyprojectVersion file botVersion ;;
             if negb ok then throw "Failed to update pyproject.toml"
             else emit (Log (Updated file botVersion))
           else ret tt
       | None => ret tt
       end) ;;
  when (bumpApi d)
    (ok <- updatePythonVersion (apiVersionFile pluginConfig) apiVersion ;;
     if negb ok then
       throw ("Failed to update API version in " ++ apiVersionFile pluginConfig)
     else emit (Log (Updated (apiVersionFile pluginConfig) apiVersion))).

(** The versions [prepare] settles on from the current ones *)
Definition nextVersions (d : decision) (releaseType : string)
    (currentBotVersion currentApiVersion : string) : string * string :=
  (if bumpBot d then calculateNextVersion currentBotVersion releaseType
   else currentBotVersion,
   if bumpApi d then calculateNextVersion currentApiVersion releaseType
   else currentApiVersion).

Definition prepare (pluginConfig : pluginConfig) (context : context)
  : M release :=
  emit (Log UpdatingFiles) ;;
  readBot <- readPythonVersion (botVersionFile pluginConfig) ;;
  readApi <- readPythonVersion (apiVersionFile pluginConfig) ;;
  if falsy readBot || falsy readApi then
    throw "Could not read current versions from Python files"
  else
    let currentBotVersion := orEmpty readBot in
    let currentApiVersion := orEmpty readApi in
    emit (Log (CurrentBot currentBotVersion)) ;;
    emit (Log (CurrentApi currentApiVersion)) ;;
    let d := analyzeCommits (commits context) in
    let '(botVersion, apiVersion) :=
      nextVersions d (releaseType context)
        currentBotVersion currentApiVersion in
    when (bumpBot d) (emit (Log (BumpingBot currentBotVersion botVersion))) ;;
    when (bumpApi d) (emit (Log (BumpingApi currentApiVersion apiVersion))) ;;
    updateFiles pluginConfig d botVersion apiVersion ;;
    emit (Log SyncingWrappers) ;;
    synced <- syncWrapperVersions botVersion apiVersion ;;
    (if negb synced then emit (Warn SyncFailed) else emit (Log SyncDone)) ;;
    ret {| botVersion := botVersion;
           apiVersion := apiVersion;
           version := botVersion |}.

End Plugin.

(** ** The version patterns, read from left to right

    No character of one piece of a version pattern can start the next
    piece, so giving back characters of a repetition never helps the
    matcher: a match at a position is found, or missed, in one pass. *)

Module Linear.

Import Char.

Definition isQuote (c : ascii) : bool :=
  Str.existsb (sameChar false c) Plugin.quotes.

Definition notQuote (c : ascii) : bool := negb (isQuote c).

(** Inside the quoted text: up to the closing quote. *)
Definition run (s : string) : option (string * string) :=
  match Str.dropWhile notQuote s with
  | String _ rest => Some (Str.takeWhile notQuote s, rest)
  | EmptyString => None
  end.

(** After the opening quote: one character that is no quote, then [run]. *)
Definition quotedText (s : string) : option (string * string) :=
  match s with
  | String c s' =>
      if notQuote c then
        option_map (fun vr => (String c (fst vr), snd vr)) (run s')
      else None
  | EmptyString => None
  end.

(** After the equals sign: white space and the opening quote. *)
Definition opening (s : string) : option (string * string) :=
  match Str.dropWhile isWhiteSpace s with
  | String q s' => if isQuote q then quotedText s' else None
  | EmptyString => None
  end.

(** After the key: white space and the equals sign. *)
Definition afterKey (s : string) : option (string * string) :=
  match Str.dropWhile isWhiteSpace s with
  | String e s' => if Ascii.eqb e "=" then opening s' else None
  | EmptyString => None
  end.

(** The quoted text and what follows the closing quote, when [s] starts
    with [key], an equals sign and a quoted text. *)
Definition keyed (key s : string) : option (string * string) :=
  match Regex.stripLit false key s with
  | Some s' => afterKey s'
  | None => None
  end.

(** The suffixes of a text other than the text itself. *)
Fixpoint properSuffixes (s : string) : list string :=
  match s with
  | String _ s' => s' :: properSuffixes s'
  | EmptyString => []
  end.

End Linear.

(** ** The statements of the specification, in its own words *)

Module Spec.

Import Plugin.

Definition lowercase (s : string) : string := Str.map Char.toLowerAscii s.

(** [text] starts, case-insensitively, with the lower-case [start]. *)
Definition startsWith (start text : string) : bool :=
  String.prefix start (lowercase text).

Definition prefixesOf (scope : string) : list string :=
  [scope; "feat(" ++ scope ++ ")"; "fix(" ++ scope ++ ")";
   "perf(" ++ scope ++ ")"; "refactor(" ++ scope ++ ")"].

Definition isBotCommit (c : commit) : bool :=
  List.existsb (fun start => startsWith start (message c)) (prefixesOf "bot").

Definition isApiCommit (c : commit) : bool :=
  List.existsb (fun start => startsWith start (message c)) (prefixesOf "api").

(** A semantic version and its canonical text [major.minor.patch]. *)
Record SemanticVersion : Type := {
  major : N;
  minor : N;
  patch : N
}.

Definition text (v : SemanticVersion) : string :=
  Num.decimal (major v) ++ "." ++ Num.decimal (minor v) ++ "." ++
  Num.decimal (patch v).

(** Every component is at most Number.MAX_SAFE_INTEGER, 2^53 - 1. *)
Definition safe (v : SemanticVersion) : Prop :=
  (major v < 2 ^ 53)%N /\ (minor v < 2 ^ 53)%N /\ (patch v < 2 ^ 53)%N.

(** The version that stands in a file, if the file can be read and holds
    one. *)
Definition currentVersion (w : Sys.world) (file : Sys.path) : option string :=
  match Sys.readFileSync w file with
  | Some content => versionIn content
  | None => None
  end.

(** The lines [prepare] logs before it updates the files *)
Definition header (d : decision) (cb ca bv av : string) : list Sys.event :=
  [Sys.Log Sys.UpdatingFiles; Sys.Log (Sys.CurrentBot cb);
   Sys.Log (Sys.CurrentApi ca)] ++
  (if bumpBot d then [Sys.Log (Sys.BumpingBot cb bv)] else []) ++
  (if bumpApi d then [Sys.Log (Sys.BumpingApi ca av)] else []).

Definition isReleaseType (t : string) : bool :=
  String.eqb t "major" || String.eqb t "minor" || String.eqb t "patch".

(** The shape \d+\.\d+\.\d+ of a version text *)
Definition canonical (s : string) : bool :=
  match Str.split "." s with
  | [a; b; c] =>
      negb (Str.isEmpty a) && Str.forallb Char.isDigit a &&
      negb (Str.isEmpty b) && Str.forallb Char.isDigit b &&
      negb (Str.isEmpty c) && Str.forallb Char.isDigit c
  | _ => false
  end.

End Spec.

(** ** A repository to run the plugin on *)

Module Example.

Import Sys Plugin.

(** An [__init__.py] that holds one version constant *)
Definition initPy (v : string) : string :=
  quoted "__version__" v ++ String newline EmptyString.

Definition pyprojectToml : string :=
  "[tool.poetry]" ++ String newline
  ("name = 'nightscout-backup-bot'" ++ String newline
  (quoted "version" "2.0.0" ++ String newline EmptyString)).

Definition tree (bot api : string) (p : path) : node :=
  if String.eqb p botInit then File (initPy bot)
  else if String.eqb p apiInit then File (initPy api)
  else if String.eqb p "pyproject.toml" then File pyprojectToml
  else Missing.

(** Bot 2.0.0 and API 1.5.2, every path writable *)
Definition repo : world :=
  {| nodeAt := tree "2.0.0" "1.5.2";
     writable := fun _ => true;
     nodeRuns := true |}.

(** The same files, with a wrapper manifest that cannot be written *)
Definition sealed : world :=
  {| nodeAt := tree "2.0.0" "1.5.2";
     writable := fun p => negb (String.eqb p botManifest);
     nodeRuns := true |}.

(** A bot version with a pre-release suffix *)
Definition beta : world :=
  {| nodeAt := tree "1.2.3-beta" "1.5.2";
     writable := fun _ => true;
     nodeRuns := true |}.

Definition config : pluginConfig :=
  {| botVersionFile := botInit;
     apiVersionFile := apiInit;
     pyprojectFile := Some "pyproject.toml" |}.

(** A configuration whose bot file does not exist *)
Definition astray : pluginConfig :=
  {| botVersionFile := "src/bot/__init__.py";
     apiVersionFile := apiInit;
     pyprojectFile := Some "pyproject.toml" |}.

Definition botFeature (releaseType : string) : context :=
  {| commits := [{| message := "feat(bot): x" |}];
     releaseType := releaseType |}.

Definition apiFix : context :=
  {| commits := [{| message := "fix(api): y" |}];
     releaseType := "patch" |}.

End Example.

(** ** The start scripts and the process-manager configuration *)

Module Launch.

Import Sys Plugin.

(** [text || 'unknown'] *)
Definition orUnknown (text : string) : string :=
  if Str.isEmpty text then "unknown" else text.

(** What a start script or the configuration makes of a run of
    get_version.js: the trimmed output of a child that exited with 0,
    [unknown] otherwise. *)
Definition reported (result : spawned) : string :=
  match status result with
  | Some 0%Z => orUnknown (Str.trim (stdout result))
  | _ => "unknown"
  end.


(** getApiVersion of start-api.js *)
Definition getApiVersion (w : world) : string :=
  reported (spawnGetVersion w "api").

(** getVersion of the process-manager configuration: the argument is
    checked before a child is started. *)
Definition getVersion (w : world) (app : string) : string :=
  if negb (String.eqb app "bot") && negb (String.eqb app "api") then "unknown"
  else reported (spawnGetVersion w app).

(** The start of start-api.js in the api wrapper: sync_versions.js is run
    for its effect on the manifests, whatever its exit status, then the
    version is read; the world left and the VERSION handed to the
    application. *)
Definition startApi (w : world) : world * string :=
  let w1 := if nodeRuns w then snd (syncVersionsScript w) else w in
  (w1, getApiVersion w1).

End Launch.

(** ** Texts to read a version from *)

Module Forms.

Import Plugin.

(** An assignment to [key] in any of the forms the patterns take: white
    space around the equals sign, either quote on either side. *)
Definition entry (key ws1 ws2 : string) (q1 q2 : ascii) (v : string)
  : string :=
  key ++ ws1 ++ "=" ++ ws2 ++ String q1 (v ++ String q2 EmptyString).

Definition assigned : string -> string -> ascii -> ascii -> string -> string :=
  entry "__version__".

(** No dollar sign: the text stands for itself as a replacement. *)
Definition plainText (s : string) : bool :=
  Str.forallb (fun c => negb (Ascii.eqb c "$")) s.

(** A version that get_version.js can hand to its caller: the text and
    the line feed console.log puts after it are within [maxBuffer]. *)
Definition fits (v : string) : bool :=
  (utf8Length v <? maxBuffer)%N.

(** What a caller of get_version.js receives for the version file
    [file]: the version that stands in it, when node can be started and
    the version fits. *)
Definition handed (w : Sys.world) (file : Sys.path) : option string :=
  if Sys.nodeRuns w then
    match Spec.currentVersion w file with
    | Some v => if fits v then Some v else None
    | None => None
    end
  else None.

(** The last character of [s], [prev] when [s] is empty. *)
Fixpoint lastOf (prev : option ascii) (s : string) : option ascii :=
  match s with
  | String c s' => lastOf (Some c) s'
  | EmptyString => prev
  end.


End Forms.

(** ** Characters *)

Import Char Regex Sys Plugin.

Lemma allChars_complete (c : ascii) : In c allChars.
Proof.
  unfold allChars. rewrite <- (ascii_nat_embedding c).
  apply in_map, in_seq. pose proof (nat_ascii_bounded c). lia.
Qed.

Lemma forall_chars (p : ascii -> bool) :
  List.forallb p allChars = true -> forall c, p c = true.
Proof.
  intros H c. rewrite forallb_forall in H. apply H, allChars_complete.
Qed.

(** A plain character of a pattern matches, under the i flag, what
    lower-cases to it. *)
Lemma sameChar_plain (a b : ascii) :
  plain a = true ->
  Char.sameChar true a b = Ascii.eqb a (Char.toLowerAscii b).
Proof.
  intros Ha.
  pose proof (forall_chars (fun a => List.forallb (fun b =>
             implb (plain a)
               (Bool.eqb (Char.sameChar true a b)
                         (Ascii.eqb a (Char.toLowerAscii b)))) allChars)) as H.
  cbv beta in H. specialize (H ltac:(vm_compute; reflexivity) a).
  rewrite forallb_forall in H.
  specialize (H b (allChars_complete b)). rewrite Ha in H. cbn in H.
  apply Bool.eqb_prop in H. exact H.
Qed.

Lemma stripLit_prefix (l s : string) :
  Str.forallb plain l = true ->
  Str.isSome (stripLit true l s) = Spec.startsWith l s.
Proof.
  unfold Spec.startsWith, Spec.lowercase. revert s.
  induction l as [|a l IH]; intros s Hl.
  - destruct s; reflexivity.
  - cbn [Str.forallb] in Hl. apply andb_prop in Hl as [Ha Hl].
    destruct s as [|b s]; cbn [stripLit Str.map String.prefix]; [reflexivity|].
    rewrite (sameChar_plain a b Ha).
    destruct (Ascii.eqb_spec a (toLowerAscii b)) as [->|Hne].
    + destruct (ascii_dec _ _) as [_|n]; [|congruence]. apply IH, Hl.
    + destruct (ascii_dec _ _) as [e|_]; [congruence|reflexivity].
Qed.

(** ** Matching *)

Lemma scan_anchored_later (p : pattern) (c : ascii) (s : string) :
  anchored p = true -> multiline p = false -> scan p (Some c) s = None.
Proof.
  intros Ha Hm. revert c.
  induction s as [|d s IH]; intros c; cbn [scan]; unfold mayStart;
    rewrite Ha, Hm; cbn [negb orb andb]; [reflexivity|].
  rewrite IH. reflexivity.
Qed.

(** A pattern that starts with ^ and has no m flag matches at the start
    of the text or nowhere. *)
Lemma exec_anchored (p : pattern) (s : string) :
  anchored p = true -> multiline p = false ->
  Str.isSome (exec p s) = Str.isSome (matchHere p s).
Proof.
  intros Ha Hm. unfold exec. destruct s as [|c s]; cbn [scan];
    unfold mayStart; rewrite Ha; cbn [negb orb];
    destruct (matchHere p _) as [[rest cap]|]; try reflexivity.
  rewrite (scan_anchored_later p c s Ha Hm). reflexivity.
Qed.

Section Alternatives.

Variables (R : Type) (ic : bool) (s : string) (cap : option string).
Variable k : string -> option string -> option R.
Hypothesis k_total : forall s' cap', Str.isSome (k s' cap') = true.

Lemma rmatch_lit_some (l : string) :
  Str.isSome (rmatch R ic (Lit l) s cap k) = Str.isSome (stripLit ic l s).
Proof.
  cbn [rmatch]. destruct (stripLit ic l s); [apply k_total|reflexivity].
Qed.

Lemma rmatch_alt_some (r1 r2 : regex) :
  Str.isSome (rmatch R ic (Alt r1 r2) s cap k) =
  Str.isSome (rmatch R ic r1 s cap k) || Str.isSome (rmatch R ic r2 s cap k).
Proof.
  cbn [rmatch]. destruct (rmatch R ic r1 s cap k); reflexivity.
Qed.

End Alternatives.

Lemma rmatch_group (R : Type) (ic : bool) (r : regex) (s : string)
    (cap : option string) (k : string -> option string -> option R) :
  rmatch R ic (Group r) s cap k =
  rmatch R ic r s cap
    (fun s' _ => k s' (Some (Str.take (length s - length s') s))).
Proof. reflexivity. Qed.

Lemma forallb_app (p : ascii -> bool) (a b : string) :
  Str.forallb p (a ++ b) = Str.forallb p a && Str.forallb p b.
Proof.
  induction a as [|c a IH]; cbn [append Str.forallb]; [reflexivity|].
  rewrite IH, andb_assoc. reflexivity.
Qed.

Lemma matches_scoped (p : pattern) (scope text : string) :
  anchored p = true -> multiline p = false -> ignoreCase p = true ->
  body p = scoped scope ->
  Str.forallb plain scope = true ->
  matches p text =
  List.existsb (fun start => Spec.startsWith start text) (Spec.prefixesOf scope).
Proof.
  intros Ha Hm Hi Hb Hs.
  change (matches p text) with (Str.isSome (exec p text)).
  rewrite (exec_anchored p text Ha Hm).
  unfold matchHere. rewrite Hb, Hi. unfold scoped. rewrite rmatch_group.
  repeat rewrite rmatch_alt_some by reflexivity.
  repeat rewrite rmatch_lit_some by reflexivity.
  repeat rewrite stripLit_prefix
    by (rewrite ?forallb_app, ?Hs; reflexivity).
  unfold Spec.prefixesOf. cbn [List.existsb].
  rewrite orb_false_r, !orb_assoc. reflexivity.
Qed.

Lemma matches_bot (c : commit) :
  matches botPattern (message c) = Spec.isBotCommit c.
Proof. apply matches_scoped; reflexivity. Qed.

Lemma matches_api (c : commit) :
  matches apiPattern (message c) = Spec.isApiCommit c.
Proof. apply matches_scoped; reflexivity. Qed.

(** ** The commit classifier *)

Lemma hasBot_iff (commits : list commit) :
  List.existsb (fun c => matches botPattern (message c)) commits = true <->
  exists c, In c commits /\ Spec.isBotCommit c = true.
Proof.
  rewrite existsb_exists. split; intros [c [Hin Hc]]; exists c;
    (split; [exact Hin|]); [rewrite <- matches_bot|rewrite matches_bot];
    exact Hc.
Qed.

Lemma hasApi_iff (commits : list commit) :
  List.existsb (fun c => matches apiPattern (message c)) commits = true <->
  exists c, In c commits /\ Spec.isApiCommit c = true.
Proof.
  rewrite existsb_exists. split; intros [c [Hin Hc]]; exists c;
    (split; [exact Hin|]); [rewrite <- matches_api|rewrite matches_api];
    exact Hc.
Qed.

(** C3: bumpBot holds exactly when some commit message starts,
    case-insensitively, with bot, feat(bot), fix(bot), perf(bot) or
    refactor(bot), or when no commit is a bot commit and none is an api
    commit; bumpApi holds exactly when some commit is an api commit, or
    when neither kind occurs. *)
Theorem C3_analyzeCommits_flags (commits : list commit) :
  let anyBot := exists c, In c commits /\ Spec.isBotCommit c = true in
  let anyApi := exists c, In c commits /\ Spec.isApiCommit c = true in
  (bumpBot (analyzeCommits commits) = true <->
     anyBot \/ (~ anyBot /\ ~ anyApi)) /\
  (bumpApi (analyzeCommits commits) = true <->
     anyApi \/ (~ anyBot /\ ~ anyApi)).
Proof.
  cbv zeta. unfold analyzeCommits. cbn [bumpBot bumpApi].
  rewrite <- (hasBot_iff commits), <- (hasApi_iff commits).
  destruct (List.existsb (fun c => matches botPattern (message c)) commits);
    destruct (List.existsb (fun c => matches apiPattern (message c)) commits);
    cbn; intuition congruence.
Qed.

(** C4: the decision never has both flags false, and the empty list of
    commits sets both. *)
Theorem C4_never_both_false (commits : list commit) :
  bumpBot (analyzeCommits commits) || bumpApi (analyzeCommits commits) = true /\
  analyzeCommits [] = {| bumpBot := true; bumpApi := true |}.
Proof.
  split; [|reflexivity].
  unfold analyzeCommits. cbn [bumpBot bumpApi].
  destruct (List.existsb (fun c => matches botPattern (message c)) commits);
    destruct (List.existsb (fun c => matches apiPattern (message c)) commits);
    reflexivity.
Qed.

(** ** The version calculator *)

(** C2, as the code has it: a release type other than major, minor and
    patch raises no error; calculateNextVersion returns the current
    version as it was given. *)
Theorem C2_other_type_returns_input (currentVersion releaseType : string) :
  Spec.isReleaseType releaseType = false ->
  calculateNextVersion currentVersion releaseType = currentVersion.
Proof.
  unfold Spec.isReleaseType, calculateNextVersion. intros H.
  destruct (String.eqb releaseType "major"); [discriminate|].
  destruct (String.eqb releaseType "minor"); [discriminate|].
  destruct (String.eqb releaseType "patch"); [discriminate|].
  reflexivity.
Qed.

Lemma C2_witness :
  Spec.isReleaseType "rc" = false /\
  calculateNextVersion "1.2.3" "rc" = "1.2.3".
Proof.
  split; [reflexivity|].
  apply (C2_other_type_returns_input "1.2.3" "rc"). reflexivity.
Defined.

(** The claim C2 fails on the version 1.2.3 with the release type rc:
    the code returns 1.2.3, the input, where the claim asks for an
    InvalidReleaseType error. *)
Lemma C2_counterexample :
  let v := {| Spec.major := 1; Spec.minor := 2; Spec.patch := 3 |} in
  Spec.isReleaseType "rc" = false /\
  calculateNextVersion (Spec.text v) "rc" = Spec.text v.
Proof. vm_compute. split; reflexivity. Qed.

(** *** Decimal texts *)

Lemma digits_of_uint (d : uint) :
  Str.forallb isDigit (NilEmpty.string_of_uint d) = true.
Proof. induction d; cbn [NilEmpty.string_of_uint Str.forallb]; auto. Qed.

Lemma decimal_eq (n : N) :
  Num.decimal n = NilEmpty.string_of_uint (N.to_uint n) /\
  N.to_uint n <> Nil.
Proof.
  unfold Num.decimal, NilZero.string_of_uint.
  destruct n as [|p]; [split; [reflexivity|discriminate]|].
  cbn [N.to_uint].
  assert (Hp : Pos.to_uint p <> Nil).
  { intros H. pose proof (DecimalPos.Unsigned.of_to p) as E.
    rewrite H in E. discriminate. }
  destruct (Pos.to_uint p); try (split; [reflexivity|discriminate]).
  congruence.
Qed.

Lemma decimal_digits (n : N) : Str.forallb isDigit (Num.decimal n) = true.
Proof. rewrite (proj1 (decimal_eq n)). apply digits_of_uint. Qed.

Lemma decimal_nonempty (n : N) : Str.isEmpty (Num.decimal n) = false.
Proof.
  destruct (decimal_eq n) as [-> Hn].
  destruct (N.to_uint n); try reflexivity. congruence.
Qed.

Lemma decimalValue_decimal (n : N) :
  Num.decimalValue (Num.decimal n) = Some (Z.of_N n).
Proof.
  unfold Num.decimalValue. rewrite (proj1 (decimal_eq n)).
  rewrite NilEmpty.usu. cbn [option_map].
  rewrite DecimalN.Unsigned.of_to. reflexivity.
Qed.

Lemma digit_char (c : ascii) :
  isDigit c = true ->
  isWhiteSpace c = false /\
  Ascii.eqb c "." = false /\ Ascii.eqb c "-" = false /\
  Ascii.eqb c "+" = false /\ Ascii.eqb c "I" = false /\
  (Ascii.eqb c "x" || Ascii.eqb c "X" = false) /\
  (Ascii.eqb c "o" || Ascii.eqb c "O" = false) /\
  (Ascii.eqb c "b" || Ascii.eqb c "B" = false) /\
  Ascii.eqb c "$" = false /\
  Str.existsb (sameChar false c) quotes = false.
Proof.
  intros Hc.
  pose proof (forall_chars (fun c => implb (isDigit c)
    (negb (isWhiteSpace c || Ascii.eqb c "." || Ascii.eqb c "-" ||
           Ascii.eqb c "+" || Ascii.eqb c "I" ||
           (Ascii.eqb c "x" || Ascii.eqb c "X") ||
           (Ascii.eqb c "o" || Ascii.eqb c "O") ||
           (Ascii.eqb c "b" || Ascii.eqb c "B") ||
           Ascii.eqb c "$" || Str.existsb (sameChar false c) quotes)))
    ltac:(vm_compute; reflexivity) c) as H.
  cbv beta in H. rewrite Hc in H. cbn [implb] in H.
  apply negb_true_iff in H.
  do 9 (apply orb_false_elim in H; destruct H as [H ?]).
  repeat split; assumption.
Qed.

Lemma rev_onto_twice (s a b : string) :
  Str.rev_onto (Str.rev_onto s a) b = Str.rev_onto a (s ++ b).
Proof.
  revert a b. induction s as [|c s IH]; intros a b; cbn; [reflexivity|].
  rewrite IH. reflexivity.
Qed.

Lemma append_empty (s : string) : s ++ EmptyString = s.
Proof. induction s as [|c s IH]; cbn; [reflexivity|]. rewrite IH. reflexivity. Qed.

Lemma rev_rev (s : string) : Str.rev (Str.rev s) = s.
Proof. unfold Str.rev. rewrite rev_onto_twice. cbn. apply append_empty. Qed.

Lemma forallb_rev_onto (p : ascii -> bool) (s a : string) :
  Str.forallb p (Str.rev_onto s a) = Str.forallb p s && Str.forallb p a.
Proof.
  revert a. induction s as [|c s IH]; intros a; cbn; [reflexivity|].
  rewrite IH. cbn. destruct (p c), (Str.forallb p s); reflexivity.
Qed.

Lemma dropWhile_none (p q : ascii -> bool) (s : string) :
  (forall c, q c = true -> p c = false) ->
  Str.forallb q s = true -> Str.dropWhile p s = s.
Proof.
  intros Hpq Hs. destruct s as [|c s]; [reflexivity|].
  cbn in *. apply andb_prop in Hs as [Hc _]. rewrite (Hpq c Hc). reflexivity.
Qed.

Lemma trim_digits (s : string) :
  Str.forallb isDigit s = true -> Str.trim s = s.
Proof.
  intros Hs. unfold Str.trim.
  assert (Hd : forall c, isDigit c = true -> isWhiteSpace c = false)
    by (intros c Hc; apply (digit_char c Hc)).
  rewrite (dropWhile_none _ _ s Hd Hs).
  rewrite (dropWhile_none _ _ (Str.rev s) Hd).
  - apply rev_rev.
  - unfold Str.rev. rewrite forallb_rev_onto, Hs. reflexivity.
Qed.

Lemma takeWhile_all (p : ascii -> bool) (s : string) :
  Str.forallb p s = true ->
  Str.takeWhile p s = s /\ Str.dropWhile p s = EmptyString.
Proof.
  induction s as [|c s IH]; cbn; intros H; [split; reflexivity|].
  apply andb_prop in H as [Hc Hs]. rewrite Hc.
  destruct (IH Hs) as [-> ->]. split; reflexivity.
Qed.

Lemma unsignedDecimal_digits (s : string) (m : Z) :
  Str.forallb isDigit s = true -> Str.isEmpty s = false ->
  Num.decimalValue s = Some m ->
  Num.unsignedDecimal s = Num.ofZ m.
Proof.
  intros Hs Hne Hm. unfold Num.unsignedDecimal.
  destruct (takeWhile_all _ s Hs) as [-> ->].
  destruct s as [|c s]; [discriminate|].
  pose proof Hs as Hc. cbn [Str.forallb] in Hc.
  apply andb_prop in Hc as [Hc _].
  destruct (digit_char c Hc) as (_ & _ & _ & _ & HI & _).
  cbn [String.eqb]. rewrite HI. cbn [Str.isEmpty andb].
  rewrite append_empty, Hm. cbn [Num.exponentPart String.length Z.of_nat].
  unfold Num.scaled. cbn [Z.sub Z.opp Z.add Z.leb Z.compare Z.pow].
  rewrite Z.mul_1_r. reflexivity.
Qed.

Lemma ofString_digits (s : string) (m : Z) :
  Str.forallb isDigit s = true -> Str.isEmpty s = false ->
  Num.decimalValue s = Some m ->
  Num.ofString s = Num.ofZ m.
Proof.
  intros Hs Hne Hm. unfold Num.ofString. rewrite (trim_digits s Hs).
  cbv zeta. destruct s as [|c s]; [discriminate|].
  pose proof Hs as Hc. cbn [Str.forallb] in Hc.
  apply andb_prop in Hc as [Hc Hrest].
  destruct (digit_char c Hc) as (_ & _ & Hminus & Hplus & _).
  assert (Hr : Num.radixPrefix (String c s) = None).
  { destruct s as [|x s]; [reflexivity|]. cbn [Str.forallb] in Hrest.
    apply andb_prop in Hrest as [Hx _].
    destruct (digit_char x Hx) as (_ & _ & _ & _ & _ & H1 & H2 & H3 & _).
    cbn [Num.radixPrefix]. rewrite H1, H2, H3.
    destruct (negb _); reflexivity. }
  rewrite Hr, Hminus, Hplus.
  apply unsignedDecimal_digits; assumption.
Qed.

(** [Number] reads the decimal text of an integer up to 2^53 exactly, and
    such an integer prints as its decimal text. *)
Lemma ofString_decimal (n : N) :
  (n <= 2 ^ 53)%N -> Num.ofString (Num.decimal n) = Num.Int (Z.of_N n).
Proof.
  intros Hn.
  rewrite (ofString_digits _ (Z.of_N n) (decimal_digits n)
             (decimal_nonempty n) (decimalValue_decimal n)).
  unfold Num.ofZ, Num.isExact, Num.maxExact.
  destruct (Z.leb_spec (Z.abs (Z.of_N n)) (2 ^ 53)) as [_|H]; [reflexivity|].
  change (2 ^ 53)%N with 9007199254740992%N in Hn.
  change (2 ^ 53)%Z with 9007199254740992%Z in H. lia.
Qed.

Lemma toString_int (n : N) :
  (n <= 2 ^ 53)%N -> Num.toString (Num.Int (Z.of_N n)) = Num.decimal n.
Proof.
  intros Hn. unfold Num.toString, Num.isExact, Num.maxExact.
  change (2 ^ 53)%N with 9007199254740992%N in Hn.
  change (2 ^ 53)%Z with 9007199254740992%Z.
  destruct (Z.leb_spec (Z.abs (Z.of_N n)) 9007199254740992) as [_|H]; [|lia].
  unfold Num.integerToString.
  destruct (Z.ltb_spec (Z.of_N n) 0) as [H|_]; [lia|].
  rewrite N2Z.id. reflexivity.
Qed.

Lemma succ_int (n : N) :
  (n < 2 ^ 53)%N ->
  Num.succ (Num.Int (Z.of_N n)) = Num.Int (Z.of_N (n + 1)).
Proof.
  intros Hn. unfold Num.succ, Num.ofZ, Num.isExact, Num.maxExact.
  change (2 ^ 53)%N with 9007199254740992%N in Hn.
  change (2 ^ 53)%Z with 9007199254740992%Z.
  destruct (Z.leb_spec (Z.abs (Z.of_N n + 1)) 9007199254740992) as [_|H];
    [|lia].
  f_equal. lia.
Qed.

Lemma split_one (sep : ascii) (a : string) :
  Str.forallb (fun c => negb (Ascii.eqb c sep)) a = true ->
  Str.split sep a = [a].
Proof.
  induction a as [|c a IH]; cbn; intros H; [reflexivity|].
  apply andb_prop in H as [Hc Ha]. apply negb_true_iff in Hc.
  rewrite Hc, (IH Ha). reflexivity.
Qed.

Lemma split_app (sep : ascii) (a b : string) :
  Str.forallb (fun c => negb (Ascii.eqb c sep)) a = true ->
  Str.split sep (a ++ String sep b) = a :: Str.split sep b.
Proof.
  induction a as [|c a IH]; cbn; intros H.
  - rewrite Ascii.eqb_refl. reflexivity.
  - apply andb_prop in H as [Hc Ha]. apply negb_true_iff in Hc.
    rewrite Hc, (IH Ha). reflexivity.
Qed.

Lemma forallb_impl (p q : ascii -> bool) (s : string) :
  (forall c, p c = true -> q c = true) ->
  Str.forallb p s = true -> Str.forallb q s = true.
Proof.
  intros Hpq. induction s as [|c s IH]; cbn; intros H; [reflexivity|].
  apply andb_prop in H as [Hc Hs]. rewrite (Hpq c Hc), (IH Hs). reflexivity.
Qed.

Lemma digits_no_dot (s : string) :
  Str.forallb isDigit s = true ->
  Str.forallb (fun c => negb (Ascii.eqb c ".")) s = true.
Proof.
  apply forallb_impl. intros c Hc.
  destruct (digit_char c Hc) as (_ & -> & _). reflexivity.
Qed.

Lemma split_text (v : Spec.SemanticVersion) :
  Str.split "." (Spec.text v) =
  [Num.decimal (Spec.major v); Num.decimal (Spec.minor v);
   Num.decimal (Spec.patch v)].
Proof.
  unfold Spec.text. cbn [append].
  rewrite split_app by apply digits_no_dot, decimal_digits.
  rewrite split_app by apply digits_no_dot, decimal_digits.
  rewrite split_one by apply digits_no_dot, decimal_digits.
  reflexivity.
Qed.

(** C1, within the integers a JavaScript number holds exactly: for a
    version whose components are all at most 2^53 - 1,
    calculateNextVersion gives (major+1, 0, 0) for major,
    (major, minor+1, 0) for minor and (major, minor, patch+1) for patch. *)
Theorem C1_next_version (v : Spec.SemanticVersion) :
  Spec.safe v ->
  calculateNextVersion (Spec.text v) "major" =
    Spec.text {| Spec.major := Spec.major v + 1;
                 Spec.minor := 0; Spec.patch := 0 |} /\
  calculateNextVersion (Spec.text v) "minor" =
    Spec.text {| Spec.major := Spec.major v;
                 Spec.minor := Spec.minor v + 1; Spec.patch := 0 |} /\
  calculateNextVersion (Spec.text v) "patch" =
    Spec.text {| Spec.major := Spec.major v;
                 Spec.minor := Spec.minor v;
                 Spec.patch := Spec.patch v + 1 |}.
Proof.
  intros (HM & Hm & Hp). unfold calculateNextVersion.
  rewrite split_text. cbn [List.map nth_error String.eqb Ascii.eqb Bool.eqb].
  rewrite !ofString_decimal by lia.
  unfold plusOne, show, Spec.text.
  cbn [Spec.major Spec.minor Spec.patch].
  rewrite !succ_int by assumption.
  rewrite !toString_int by lia.
  repeat split; reflexivity.
Qed.

Lemma C1_witness :
  let v := {| Spec.major := 1; Spec.minor := 2; Spec.patch := 3 |} in
  Spec.safe v /\
  calculateNextVersion (Spec.text v) "major" = "2.0.0" /\
  calculateNextVersion (Spec.text v) "minor" = "1.3.0" /\
  calculateNextVersion (Spec.text v) "patch" = "1.2.4".
Proof.
  intros v.
  assert (Hv : Spec.safe v) by (repeat split; reflexivity).
  split; [exact Hv|]. exact (C1_next_version v Hv).
Defined.

(** The claim C1 fails at the version (2^53, 0, 0) with the release type
    major: 2^53 + 1 is not a double, the sum rounds back to 2^53, and the
    result is 9007199254740992.0.0 where the claim asks for
    9007199254740993.0.0. *)
Lemma C1_counterexample :
  let v := {| Spec.major := 2 ^ 53; Spec.minor := 0; Spec.patch := 0 |} in
  calculateNextVersion (Spec.text v) "major" = "9007199254740992.0.0" /\
  Spec.text {| Spec.major := Spec.major v + 1;
               Spec.minor := 0; Spec.patch := 0 |} = "9007199254740993.0.0".
Proof. vm_compute. split; reflexivity. Qed.

(** ** The version patterns *)

Import Linear.

Lemma star_greedy (R : Type) (p : ascii -> bool) (s : string)
    (k : string -> option R) :
  (forall c s', p c = true -> k (String c s') = None) ->
  star R p s k = k (Str.dropWhile p s).
Proof.
  intros Hk. induction s as [|c s IH]; cbn [star Str.dropWhile];
    [reflexivity|].
  destruct (p c) eqn:Hc; [|reflexivity].
  rewrite IH. destruct (k (Str.dropWhile p s)) eqn:E; [reflexivity|].
  apply Hk, Hc.
Qed.

Lemma length_dropWhile (p : ascii -> bool) (s : string) :
  length (Str.dropWhile p s) <= length s.
Proof.
  induction s as [|c s IH]; cbn [Str.dropWhile length]; [lia|].
  destruct (p c); cbn [length]; lia.
Qed.

Lemma dropWhile_head (p : ascii -> bool) (s rest : string) (c : ascii) :
  Str.dropWhile p s = String c rest -> p c = false.
Proof.
  induction s as [|d s IH]; cbn [Str.dropWhile]; [discriminate|].
  destruct (p d) eqn:Hd; [exact IH|]. intros E. injection E as <- _.
  exact Hd.
Qed.

Lemma take_dropWhile (p : ascii -> bool) (s : string) :
  Str.take (length s - length (Str.dropWhile p s)) s = Str.takeWhile p s.
Proof.
  induction s as [|c s IH]; cbn [Str.dropWhile Str.takeWhile length];
    [reflexivity|].
  destruct (p c).
  - pose proof (length_dropWhile p s).
    replace (S (length s) - length (Str.dropWhile p s))
      with (S (length s - length (Str.dropWhile p s))) by lia.
    cbn [Str.take]. rewrite IH. reflexivity.
  - cbn [length]. rewrite Nat.sub_diag. reflexivity.
Qed.

Lemma space_char (c : ascii) :
  isWhiteSpace c = true -> Ascii.eqb c "=" = false /\ isQuote c = false.
Proof.
  intros Hc.
  pose proof (forall_chars (fun c => implb (isWhiteSpace c)
    (negb (Ascii.eqb c "=" || isQuote c))) ltac:(vm_compute; reflexivity) c)
    as H.
  cbv beta in H. rewrite Hc in H. cbn [implb] in H.
  apply negb_true_iff, orb_false_elim in H. exact H.
Qed.

Lemma sameChar_exact (a b : ascii) : sameChar false a b = Ascii.eqb a b.
Proof. reflexivity. Qed.

Lemma inClass_quotes (c : ascii) :
  inClass false (OneOf quotes) c = isQuote c /\
  inClass false (NoneOf quotes) c = notQuote c.
Proof. split; reflexivity. Qed.

Section Assignment.

Variable R : Type.
Variable k : string -> option string -> option R.
Variable cap : option string.

(** The closing quote, after the quoted text has been read to its end. *)
Lemma rmatch_closing (s : string) (cap' : option string) :
  rmatch R false (Class (OneOf quotes)) (Str.dropWhile notQuote s) cap' k =
  match run s with
  | Some (_, rest) => k rest cap'
  | None => None
  end.
Proof.
  unfold run. cbn [rmatch].
  destruct (Str.dropWhile notQuote s) as [|c rest] eqn:E; [reflexivity|].
  apply dropWhile_head in E. rewrite (proj1 (inClass_quotes c)).
  unfold notQuote in E. apply negb_false_iff in E. rewrite E. reflexivity.
Qed.

Lemma rmatch_run (s : string) (f : string -> option string) :
  star R notQuote s
    (fun s' => rmatch R false (Class (OneOf quotes)) s' (f s') k) =
  match run s with
  | Some (_, rest) => k rest (f (Str.dropWhile notQuote s))
  | None => None
  end.
Proof.
  rewrite star_greedy.
  - apply rmatch_closing.
  - intros c s' Hc. cbn [rmatch]. rewrite (proj1 (inClass_quotes c)).
    unfold notQuote in Hc. apply negb_true_iff in Hc. rewrite Hc.
    reflexivity.
Qed.

(** The quoted text in a group *)
Lemma rmatch_quoted_group (s : string) :
  rmatch R false (Group (Plus (NoneOf quotes)) >> Class (OneOf quotes))
    s cap k =
  match quotedText s with
  | Some (v, rest) => k rest (Some v)
  | None => None
  end.
Proof.
  unfold quotedText. destruct s as [|c s]; [reflexivity|].
  change (rmatch R false
            (Group (Plus (NoneOf quotes)) >> Class (OneOf quotes))
            (String c s) cap k)
    with (if notQuote c then
            star R notQuote s (fun s' =>
              rmatch R false (Class (OneOf quotes)) s'
                (Some (Str.take (length (String c s) - length s')
                         (String c s))) k)
          else None).
  destruct (notQuote c); [|reflexivity].
  rewrite (rmatch_run s
    (fun s' => Some (Str.take (length (String c s) - length s') (String c s)))).
  destruct (run s) as [[v rest]|] eqn:E; cbn [option_map fst snd];
    [|reflexivity].
  unfold run in E.
  pose proof (length_dropWhile notQuote s).
  cbn [length].
  replace (S (length s) - length (Str.dropWhile notQuote s))
    with (S (length s - length (Str.dropWhile notQuote s))) by lia.
  cbn [Str.take]. rewrite take_dropWhile.
  destruct (Str.dropWhile notQuote s); [discriminate|].
  injection E as <- <-. reflexivity.
Qed.

(** The quoted text outside a group *)
Lemma rmatch_quoted_plain (s : string) :
  rmatch R false (Plus (NoneOf quotes) >> Class (OneOf quotes)) s cap k =
  match quotedText s with
  | Some (_, rest) => k rest cap
  | None => None
  end.
Proof.
  unfold quotedText. destruct s as [|c s]; [reflexivity|].
  change (rmatch R false (Plus (NoneOf quotes) >> Class (OneOf quotes))
            (String c s) cap k)
    with (if notQuote c then
            star R notQuote s (fun s' =>
              rmatch R false (Class (OneOf quotes)) s' cap k)
          else None).
  destruct (notQuote c); [|reflexivity].
  rewrite (rmatch_run s (fun _ => cap)).
  destruct (run s) as [[v rest]|]; reflexivity.
Qed.

End Assignment.

Section AssignmentTail.

Variable R : Type.
Variable k : string -> option string -> option R.
Variable cap : option string.
Variable inner : regex.
Variable F : string -> string -> option R.

Hypothesis inner_quoted : forall s,
  rmatch R false (inner >> Class (OneOf quotes)) s cap k =
  match quotedText s with
  | Some (v, rest) => F v rest
  | None => None
  end.

Let afterSign : regex :=
  Star WhiteSpace >> Class (OneOf quotes) >> inner >> Class (OneOf quotes).

Lemma rmatch_opening (s : string) :
  rmatch R false afterSign s cap k =
  match opening s with
  | Some (v, rest) => F v rest
  | None => None
  end.
Proof.
  change (rmatch R false afterSign s cap k)
    with (star R isWhiteSpace s (fun s' =>
            rmatch R false
              (Class (OneOf quotes) >> inner >> Class (OneOf quotes))
              s' cap k)).
  rewrite star_greedy.
  - unfold opening. destruct (Str.dropWhile isWhiteSpace s) as [|q s'];
      [reflexivity|].
    change (rmatch R false
              (Class (OneOf quotes) >> inner >> Class (OneOf quotes))
              (String q s') cap k)
      with (if isQuote q
            then rmatch R false (inner >> Class (OneOf quotes)) s' cap k
            else None).
    destruct (isQuote q); [apply inner_quoted|reflexivity].
  - intros c s' Hc.
    change (rmatch R false
              (Class (OneOf quotes) >> inner >> Class (OneOf quotes))
              (String c s') cap k)
      with (if isQuote c
            then rmatch R false (inner >> Class (OneOf quotes)) s' cap k
            else None).
    rewrite (proj2 (space_char c Hc)). reflexivity.
Qed.

Lemma rmatch_assignment (s : string) :
  rmatch R false (assignment inner) s cap k =
  match afterKey s with
  | Some (v, rest) => F v rest
  | None => None
  end.
Proof.
  change (rmatch R false (assignment inner) s cap k)
    with (star R isWhiteSpace s (fun s' =>
            rmatch R false (Lit "=" >> afterSign) s' cap k)).
  assert (Hsign : forall e s',
            rmatch R false (Lit "=" >> afterSign) (String e s') cap k =
            if Ascii.eqb e "=" then rmatch R false afterSign s' cap k
            else None).
  { intros e s'.
    change (rmatch R false (Lit "=" >> afterSign) (String e s') cap k)
      with (match (if Ascii.eqb "=" e then Some s' else None) with
            | Some s'' => rmatch R false afterSign s'' cap k
            | None => None
            end).
    rewrite Ascii.eqb_sym. destruct (Ascii.eqb e "="); reflexivity. }
  rewrite star_greedy.
  - unfold afterKey. destruct (Str.dropWhile isWhiteSpace s) as [|e s'];
      [reflexivity|].
    rewrite Hsign. destruct (Ascii.eqb e "="); [apply rmatch_opening|].
    reflexivity.
  - intros c s' Hc. rewrite Hsign, (proj1 (space_char c Hc)). reflexivity.
Qed.

Lemma rmatch_keyed (key s : string) :
  rmatch R false (Lit key >> assignment inner) s cap k =
  match keyed key s with
  | Some (v, rest) => F v rest
  | None => None
  end.
Proof.
  change (rmatch R false (Lit key >> assignment inner) s cap k)
    with (match stripLit false key s with
          | Some s' => rmatch R false (assignment inner) s' cap k
          | None => None
          end).
  unfold keyed. destruct (stripLit false key s); [|reflexivity].
  apply rmatch_assignment.
Qed.

End AssignmentTail.

(** What the three version patterns match at the front of a text *)
Lemma matchHere_version (s : string) :
  matchHere versionPattern s =
  option_map (fun vr => (snd vr, Some (fst vr))) (keyed "__version__" s).
Proof.
  unfold matchHere. cbn [body ignoreCase versionPattern].
  rewrite (rmatch_keyed _ _ None _ (fun v rest => Some (rest, Some v))).
  - destruct (keyed "__version__" s) as [[v rest]|]; reflexivity.
  - intros s'. apply rmatch_quoted_group.
Qed.

Lemma matchHere_assign (s : string) :
  matchHere versionAssignPattern s =
  option_map (fun vr => (snd vr, None)) (keyed "__version__" s).
Proof.
  unfold matchHere. cbn [body ignoreCase versionAssignPattern].
  rewrite (rmatch_keyed _ _ None _ (fun v rest => Some (rest, None))).
  - destruct (keyed "__version__" s) as [[v rest]|]; reflexivity.
  - intros s'. rewrite rmatch_quoted_plain.
    destruct (quotedText s') as [[v rest]|]; reflexivity.
Qed.


(** *** A match that starts before the version cannot appear by writing it *)

Lemma existsb_app (p : ascii -> bool) (a b : string) :
  Str.existsb p (a ++ b) = Str.existsb p a || Str.existsb p b.
Proof.
  induction a as [|c a IH]; cbn [append Str.existsb]; [reflexivity|].
  rewrite IH, orb_assoc. reflexivity.
Qed.

Lemma existsb_dropWhile (p q : ascii -> bool) (s : string) :
  Str.existsb p (Str.dropWhile q s) = true -> Str.existsb p s = true.
Proof.
  induction s as [|c s IH]; cbn [Str.dropWhile Str.existsb]; [auto|].
  destruct (q c); cbn [Str.existsb]; intros H; [|exact H].
  rewrite (IH H). apply orb_true_r.
Qed.

Lemma existsb_stripLit (p : ascii -> bool) (l s s' : string) :
  stripLit false l s = Some s' ->
  Str.existsb p s' = true -> Str.existsb p s = true.
Proof.
  revert s. induction l as [|a l IH]; intros s; cbn [stripLit].
  - intros [= ->]. auto.
  - destruct s as [|b s]; [discriminate|].
    destruct (sameChar false a b); [|discriminate].
    intros E H. cbn [Str.existsb]. rewrite (IH s E H). apply orb_true_r.
Qed.

Lemma run_some (s : string) : Str.isSome (run s) = Str.existsb isQuote s.
Proof.
  unfold run. induction s as [|c s IH]; cbn [Str.dropWhile Str.existsb];
    [reflexivity|].
  unfold notQuote at 1. destruct (isQuote c); cbn [negb orb];
    [reflexivity|].
  rewrite <- IH. cbn [Str.takeWhile].
  destruct (Str.dropWhile notQuote s); reflexivity.
Qed.

Lemma quotedText_cons (c : ascii) (s : string) :
  Str.isSome (quotedText (String c s)) =
  notQuote c && Str.existsb isQuote s.
Proof.
  cbn [quotedText]. destruct (notQuote c); [|reflexivity].
  rewrite <- run_some. destruct (run s); reflexivity.
Qed.

Lemma opening_cons (c : ascii) (s : string) :
  opening (String c s) =
  if isWhiteSpace c then opening s
  else if isQuote c then quotedText s else None.
Proof.
  unfold opening. cbn [Str.dropWhile]. destruct (isWhiteSpace c); reflexivity.
Qed.

Lemma afterKey_cons (c : ascii) (s : string) :
  afterKey (String c s) =
  if isWhiteSpace c then afterKey s
  else if Ascii.eqb c "=" then opening s else None.
Proof.
  unfold afterKey. cbn [Str.dropWhile]. destruct (isWhiteSpace c); reflexivity.
Qed.

Lemma keyed_cons (a c : ascii) (l s : string) :
  keyed (String a l) (String c s) =
  if Ascii.eqb a c then keyed l s else None.
Proof. unfold keyed. cbn [stripLit]. rewrite sameChar_exact.
  destruct (Ascii.eqb a c); reflexivity. Qed.

Lemma opening_has_quote (s : string) :
  Str.isSome (opening s) = true -> Str.existsb isQuote s = true.
Proof.
  unfold opening. intros H. apply (existsb_dropWhile _ isWhiteSpace).
  destruct (Str.dropWhile isWhiteSpace s) as [|q s']; [discriminate|].
  cbn [Str.existsb]. destruct (isQuote q); [reflexivity|discriminate].
Qed.

Lemma afterKey_has_quote (s : string) :
  Str.isSome (afterKey s) = true -> Str.existsb isQuote s = true.
Proof.
  unfold afterKey. intros H. apply (existsb_dropWhile _ isWhiteSpace).
  destruct (Str.dropWhile isWhiteSpace s) as [|e s']; [discriminate|].
  cbn [Str.existsb]. destruct (Ascii.eqb e "="); [|discriminate].
  rewrite (opening_has_quote s' H). apply orb_true_r.
Qed.

Lemma keyed_has_quote (key s : string) :
  Str.isSome (keyed key s) = true -> Str.existsb isQuote s = true.
Proof.
  unfold keyed. destruct (stripLit false key s) as [s'|] eqn:E;
    [|discriminate].
  intros H. apply (existsb_stripLit _ _ _ _ E), afterKey_has_quote, H.
Qed.

Lemma suffix_closed (a : ascii) (l k : string) :
  In (String a l) (properSuffixes k) -> In l (properSuffixes k).
Proof.
  induction k as [|c k IH]; cbn [properSuffixes In]; [auto|].
  intros [E|H].
  - right. rewrite E. cbn [properSuffixes In]. left. reflexivity.
  - right. apply IH, H.
Qed.

Section NoEarlierMatch.

(** [old] starts with a version assignment; [new] is the assignment of
    [v] that takes its place, followed by any text. *)
Variables (old v post : string).
Hypothesis old_keyed : Str.isSome (keyed "__version__" old) = true.

Let new : string := quoted "__version__" v ++ post.

Lemma old_shape :
  exists old', old = String "_" old' /\ Str.existsb isQuote old' = true.
Proof.
  pose proof (keyed_has_quote _ _ old_keyed) as Hq.
  destruct old as [|c old']; [discriminate|].
  pose proof old_keyed as H. rewrite keyed_cons in H.
  destruct (Ascii.eqb_spec "_"%char c) as [<-|]; [|discriminate].
  exists old'. split; [reflexivity|]. exact Hq.
Qed.

Lemma quote_after (q : string) : Str.existsb isQuote (q ++ old) = true.
Proof.
  rewrite existsb_app, (keyed_has_quote _ _ old_keyed). apply orb_true_r.
Qed.

Lemma quotedText_kept (q : string) :
  Str.isSome (quotedText (q ++ new)) = true ->
  Str.isSome (quotedText (q ++ old)) = true.
Proof.
  destruct q as [|c q]; cbn [append].
  - intros _. destruct old_shape as (old' & -> & Hq).
    rewrite quotedText_cons, Hq. reflexivity.
  - rewrite !quotedText_cons, quote_after.
    destruct (notQuote c); [reflexivity|discriminate].
Qed.

Lemma opening_kept (q : string) :
  Str.isSome (opening (q ++ new)) = true ->
  Str.isSome (opening (q ++ old)) = true.
Proof.
  induction q as [|c q IH]; cbn [append].
  - discriminate.
  - rewrite !opening_cons. destruct (isWhiteSpace c); [exact IH|].
    destruct (isQuote c); [apply quotedText_kept|discriminate].
Qed.

Lemma afterKey_kept (q : string) :
  Str.isSome (afterKey (q ++ new)) = true ->
  Str.isSome (afterKey (q ++ old)) = true.
Proof.
  induction q as [|c q IH]; cbn [append].
  - discriminate.
  - rewrite !afterKey_cons. destruct (isWhiteSpace c); [exact IH|].
    destruct (Ascii.eqb c "="); [apply opening_kept|discriminate].
Qed.

Lemma suffix_kept (q l : string) :
  In l (properSuffixes "__version__") ->
  Str.isSome (keyed l (q ++ new)) = true ->
  Str.isSome (keyed l (q ++ old)) = true.
Proof.
  revert l. induction q as [|c q IH]; intros l Hl; cbn [append].
  - cbn [properSuffixes In] in Hl.
    repeat (destruct Hl as [<-|Hl]; [discriminate|]). destruct Hl.
  - destruct l as [|a l].
    + apply (afterKey_kept (String c q)).
    + rewrite !keyed_cons. destruct (Ascii.eqb a c); [|discriminate].
      apply IH, (suffix_closed a), Hl.
Qed.

(** A match that starts before the place of the new assignment started
    there before the assignment was written. *)
Lemma keyed_kept (c : ascii) (q : string) :
  Str.isSome (keyed "__version__" (String c q ++ new)) = true ->
  Str.isSome (keyed "__version__" (String c q ++ old)) = true.
Proof.
  cbn [append]. rewrite !keyed_cons. destruct (Ascii.eqb "_" c);
    [|discriminate].
  apply suffix_kept. cbn [properSuffixes In]. left. reflexivity.
Qed.

End NoEarlierMatch.

(** *** Searching for a version *)

Lemma scan_free (p : pattern) (prev : option ascii) (s : string) :
  anchored p = false ->
  scan p prev s =
  match matchHere p s with
  | Some (rest, cap) =>
      Some {| before := EmptyString;
              matched := Str.take (length s - length rest) s;
              after := rest; group1 := cap |}
  | None =>
      match s with
      | String c s' => option_map (shiftResult c) (scan p (Some c) s')
      | EmptyString => None
      end
  end.
Proof.
  intros Ha. destruct s; cbn [scan]; unfold mayStart; rewrite Ha; reflexivity.
Qed.

Lemma scan_found (p : pattern) (prev : option ascii) (s : string)
    (m : matchResult) :
  anchored p = false -> scan p prev s = Some m ->
  exists sfx, s = before m ++ sfx /\
              matchHere p sfx = Some (after m, group1 m).
Proof.
  intros Ha. revert prev m. induction s as [|c s IH]; intros prev m;
    rewrite (scan_free p prev _ Ha).
  - destruct (matchHere p EmptyString) as [[rest cap]|] eqn:E;
      [|discriminate].
    intros [= <-]. exists EmptyString. split; [reflexivity|exact E].
  - destruct (matchHere p (String c s)) as [[rest cap]|] eqn:E.
    + intros [= <-]. exists (String c s). split; [reflexivity|exact E].
    + destruct (scan p (Some c) s) as [m'|] eqn:E'; [|discriminate].
      cbn [option_map]. intros [= <-].
      destruct (IH _ _ E') as (sfx & Hs & Hm).
      exists sfx. cbn [shiftResult before after group1 append].
      split; [rewrite Hs at 1; reflexivity|exact Hm].
Qed.

Lemma run_closed (v post : string) (q : ascii) :
  Str.forallb notQuote v = true -> isQuote q = true ->
  run (v ++ String q post) = Some (v, post).
Proof.
  intros Hv Hq. unfold run.
  assert (H : Str.dropWhile notQuote (v ++ String q post) = String q post /\
              Str.takeWhile notQuote (v ++ String q post) = v).
  { induction v as [|c v IH];
      cbn [append Str.dropWhile Str.takeWhile Str.forallb] in *.
    - unfold notQuote. rewrite Hq. split; reflexivity.
    - apply andb_prop in Hv as [Hc Hv]. rewrite Hc.
      destruct (IH Hv) as [-> ->]. split; reflexivity. }
  destruct H as [-> ->]. reflexivity.
Qed.

Lemma append_assoc (a b c : string) : (a ++ b) ++ c = a ++ b ++ c.
Proof.
  induction a as [|x a IH]; cbn [append]; [reflexivity|].
  rewrite IH. reflexivity.
Qed.

Lemma quoted_app (key v post : string) :
  quoted key v ++ post = key ++ " = " ++ String dquote (v ++ String dquote post).
Proof.
  unfold quoted. rewrite !append_assoc. cbn [append]. reflexivity.
Qed.

(** The assignment of a non-empty text without quotes reads back as it. *)
Lemma keyed_quoted (v post : string) :
  Str.forallb notQuote v = true -> Str.isEmpty v = false ->
  keyed "__version__" (quoted "__version__" v ++ post) = Some (v, post).
Proof.
  intros Hv Hne. destruct v as [|c v]; [discriminate|].
  cbn [Str.forallb] in Hv. apply andb_prop in Hv as [Hc Hv].
  rewrite quoted_app. unfold keyed.
  cbn [append stripLit sameChar Ascii.eqb Bool.eqb].
  rewrite !afterKey_cons. cbn [isWhiteSpace].
  change (isWhiteSpace " ") with true. change (isWhiteSpace "=") with false.
  change (Ascii.eqb "=" "=") with true. cbv iota.
  rewrite !opening_cons.
  change (isWhiteSpace " ") with true. cbv iota.
  change (isWhiteSpace dquote) with false.
  change (isQuote dquote) with true. cbv iota.
  cbn [quotedText]. rewrite Hc.
  rewrite (run_closed v post dquote Hv eq_refl). reflexivity.
Qed.

Lemma substitute_plain (m : matchResult) (t : string) :
  Str.forallb (fun c => negb (Ascii.eqb c "$")) t = true ->
  substitute m t = t.
Proof.
  induction t as [|c t IH]; cbn [Str.forallb substitute]; [reflexivity|].
  intros H. apply andb_prop in H as [Hc Ht]. apply negb_true_iff in Hc.
  rewrite Hc, (IH Ht). reflexivity.
Qed.

Lemma quoted_plain (key v : string) :
  Str.forallb (fun c => negb (Ascii.eqb c "$")) key = true ->
  Str.forallb (fun c => negb (Ascii.eqb c "$")) v = true ->
  Str.forallb (fun c => negb (Ascii.eqb c "$")) (quoted key v) = true.
Proof.
  intros Hk Hv. unfold quoted. rewrite !forallb_app, Hk.
  cbn [Str.forallb]. rewrite Hv. reflexivity.
Qed.

(** Writing: the first version assignment gives way to the new one. *)
Lemma replace_version (p : pattern) (key v content : string)
    (m : matchResult) :
  Str.forallb (fun c => negb (Ascii.eqb c "$")) (quoted key v) = true ->
  exec p content = Some m ->
  replace p (quoted key v) content = before m ++ quoted key v ++ after m.
Proof.
  intros Hv Hm. unfold replace. rewrite Hm, (substitute_plain m _ Hv).
  reflexivity.
Qed.

Lemma scan_written (v s : string) (prev prev' : option ascii)
    (m : matchResult) :
  Str.forallb notQuote v = true -> Str.isEmpty v = false ->
  scan versionAssignPattern prev s = Some m ->
  exists m', scan versionPattern prev'
               (before m ++ quoted "__version__" v ++ after m) = Some m' /\
             group1 m' = Some v.
Proof.
  intros Hv Hne. revert prev prev' m.
  induction s as [|c s IH]; intros prev prev' m;
    rewrite (scan_free versionAssignPattern prev _ eq_refl),
            matchHere_assign.
  - destruct (keyed "__version__" EmptyString) as [[v0 rest]|];
      [|discriminate].
    cbn [option_map fst snd]. intros [= <-]. cbn [before after append].
    rewrite (scan_free versionPattern prev' _ eq_refl), matchHere_version,
            (keyed_quoted v rest Hv Hne).
    cbn [option_map fst snd]. eexists. split; reflexivity.
  - destruct (keyed "__version__" (String c s)) as [[v0 rest]|] eqn:E.
    + cbn [option_map fst snd]. intros [= <-]. cbn [before after append].
      rewrite (scan_free versionPattern prev' _ eq_refl), matchHere_version,
              (keyed_quoted v rest Hv Hne).
      cbn [option_map fst snd]. eexists. split; reflexivity.
    + cbn [option_map].
      destruct (scan versionAssignPattern (Some c) s) as [m1|] eqn:E1;
        [|discriminate].
      cbn [option_map]. intros [= <-].
      cbn [shiftResult before after append].
      destruct (scan_found versionAssignPattern _ _ _ eq_refl E1)
        as (old & Hs & Hold).
      rewrite matchHere_assign in Hold.
      assert (Hk : Str.isSome (keyed "__version__" old) = true)
        by (destruct (keyed "__version__" old); [reflexivity|discriminate]).
      rewrite (scan_free versionPattern prev' _ eq_refl), matchHere_version.
      destruct (keyed "__version__"
                  (String c (before m1 ++ quoted "__version__" v ++ after m1)))
        as [[v1 rest1]|] eqn:E2.
      * exfalso.
        pose proof (keyed_kept old v (after m1) Hk c (before m1)) as K.
        cbn [append] in K. rewrite E2, <- Hs, E in K.
        specialize (K eq_refl). discriminate.
      * cbn [option_map].
        destruct (IH (Some c) (Some c) m1 E1) as (m' & -> & Hg).
        cbn [option_map]. eexists. split; [reflexivity|exact Hg].
Qed.

(** Writing a version over the one a text holds, then looking for the
    version of the text, finds what was written. *)
Lemma versionIn_written (v content : string) :
  Str.forallb notQuote v = true -> Str.isEmpty v = false ->
  Str.forallb (fun c => negb (Ascii.eqb c "$")) v = true ->
  Str.isSome (exec versionAssignPattern content) = true ->
  versionIn (replace versionAssignPattern (quoted "__version__" v) content)
  = Some v.
Proof.
  intros Hq Hne Hd Hm.
  destruct (exec versionAssignPattern content) as [m|] eqn:E;
    [|discriminate].
  rewrite (replace_version _ _ _ _ m (quoted_plain "__version__" v eq_refl Hd) E).
  unfold versionIn, exec.
  destruct (scan_written v content None None m Hq Hne E) as (m' & -> & Hg).
  exact Hg.
Qed.

Lemma forallb_split (p : ascii -> bool) (sep : ascii) (s : string) :
  p sep = true ->
  Forall (fun piece => Str.forallb p piece = true) (Str.split sep s) ->
  Str.forallb p s = true.
Proof.
  intros Hsep. induction s as [|c s IH]; cbn [Str.split Str.forallb];
    [reflexivity|].
  destruct (Ascii.eqb_spec c sep) as [->|_].
  - intros H. inversion H; subst. rewrite Hsep. cbn [andb]. auto.
  - destruct (Str.split sep s) as [|piece ps].
    + intros H. inversion H as [|? ? Hp Hps]; subst.
      cbn [Str.forallb] in Hp. apply andb_prop in Hp as [-> _].
      cbn [andb]. apply IH. constructor.
    + intros H. inversion H as [|? ? Hp Hps]; subst.
      cbn [Str.forallb] in Hp. apply andb_prop in Hp as [-> Hp].
      cbn [andb]. apply IH. constructor; assumption.
Qed.

(** A text of the shape \d+\.\d+\.\d+ is not empty and is made of digits
    and dots: it holds no quote and no dollar sign. *)
Lemma canonical_chars (v : string) :
  Spec.canonical v = true ->
  Str.isEmpty v = false /\
  Str.forallb notQuote v = true /\
  Str.forallb (fun c => negb (Ascii.eqb c "$")) v = true.
Proof.
  intros Hv. split.
  - destruct v; [discriminate|reflexivity].
  - assert (H : Str.forallb (fun c => isDigit c || Ascii.eqb c ".") v = true).
    { apply (forallb_split _ "."); [reflexivity|].
      unfold Spec.canonical in Hv.
      destruct (Str.split "." v) as [|a [|b [|c [|? ?]]]]; try discriminate.
      repeat (apply andb_prop in Hv; destruct Hv as [Hv ?]).
      repeat constructor;
        (eapply forallb_impl; [|eassumption]); intros x ->; reflexivity. }
    split; (eapply forallb_impl; [|exact H]); intros c Hc;
      apply orb_prop in Hc as [Hc|Hc].
    + destruct (digit_char c Hc) as (_ & _ & _ & _ & _ & _ & _ & _ & _ & Hq).
      unfold notQuote, isQuote. rewrite Hq. reflexivity.
    + apply Ascii.eqb_eq in Hc. subst c. reflexivity.
    + destruct (digit_char c Hc) as (_ & _ & _ & _ & _ & _ & _ & _ & -> & _).
      reflexivity.
    + apply Ascii.eqb_eq in Hc. subst c. reflexivity.
Qed.

(** The two version patterns match at the same places. *)
Lemma scan_same (s : string) (prev prev' : option ascii) :
  Str.isSome (scan versionAssignPattern prev s) =
  Str.isSome (scan versionPattern prev' s).
Proof.
  revert prev prev'. induction s as [|c s IH]; intros prev prev';
    rewrite (scan_free versionAssignPattern prev _ eq_refl),
            (scan_free versionPattern prev' _ eq_refl),
            matchHere_assign, matchHere_version;
    destruct (keyed "__version__" _) as [[v rest]|]; try reflexivity.
  cbn [option_map]. specialize (IH (Some c) (Some c)).
  destruct (scan versionAssignPattern (Some c) s),
           (scan versionPattern (Some c) s); try discriminate; reflexivity.
Qed.

Lemma keyed_nonempty (key s v rest : string) :
  keyed key s = Some (v, rest) -> Str.isEmpty v = false.
Proof.
  unfold keyed. destruct (stripLit false key s) as [s1|]; [|discriminate].
  unfold afterKey. destruct (Str.dropWhile isWhiteSpace s1) as [|e s2];
    [discriminate|].
  destruct (Ascii.eqb e "="); [|discriminate].
  unfold opening. destruct (Str.dropWhile isWhiteSpace s2) as [|q s3];
    [discriminate|].
  destruct (isQuote q); [|discriminate].
  unfold quotedText. destruct s3 as [|c s4]; [discriminate|].
  destruct (notQuote c); [|discriminate].
  destruct (run s4) as [[v' r]|]; [|discriminate].
  cbn [option_map fst snd]. intros [= <- _]. reflexivity.
Qed.

(** The version found in a text is never empty. *)
Lemma versionIn_nonempty (content v : string) :
  versionIn content = Some v -> Str.isEmpty v = false.
Proof.
  unfold versionIn, exec.
  destruct (scan versionPattern None content) as [m|] eqn:E; [|discriminate].
  destruct (scan_found versionPattern _ _ _ eq_refl E) as (sfx & _ & Hm).
  rewrite matchHere_version in Hm. intros Hg. rewrite Hg in Hm.
  destruct (keyed "__version__" sfx) as [[v' rest]|] eqn:K; [|discriminate].
  cbn [option_map fst snd] in Hm. injection Hm as _ <-.
  apply (keyed_nonempty _ _ _ _ K).
Qed.

Lemma currentVersion_truthy (w : world) (file : path) (v : string) :
  Spec.currentVersion w file = Some v -> falsy (Some v) = false.
Proof.
  unfold Spec.currentVersion. destruct (readFileSync w file); [|discriminate].
  apply versionIn_nonempty.
Qed.

(** ** Running the plugin *)

Lemma readPythonVersion_run (file : path) (w : world) :
  readPythonVersion file w = (Returned (Spec.currentVersion w file), w, []).
Proof.
  unfold readPythonVersion, Spec.currentVersion, bind, getWorld, ret.
  destruct (readFileSync w file); reflexivity.
Qed.

Lemma patchFile_run (p : pattern) (key : string) (file : path) (v : string)
    (w : world) :
  patchFile p key file v w =
  match readFileSync w file with
  | Some content =>
      if writable w file
      then (Returned true, store file (replace p (quoted key v) content) w, [])
      else (Returned false, w, [ConsoleError (UpdateError file)])
  | None => (Returned false, w, [ConsoleError (UpdateError file)])
  end.
Proof.
  unfold patchFile, bind, getWorld, putWorld, emit, ret, writeFileSync.
  destruct (readFileSync w file); [|reflexivity].
  destruct (writable w file); reflexivity.
Qed.

Lemma read_after_store (file : path) (content old : string) (w : world) :
  readFileSync w file = Some old ->
  readFileSync (store file content w) file = Some content.
Proof.
  unfold readFileSync, store. cbn [nodeAt]. rewrite String.eqb_refl.
  destruct (nodeAt w file); try discriminate. reflexivity.
Qed.

(** C7: writing a version of the shape \d+\.\d+\.\d+ over the version
    constant of a file with updatePythonVersion succeeds, and
    readPythonVersion then returns exactly the version written. *)
Theorem C7_write_then_read (w : world) (file : path) (v : string) :
  Spec.canonical v = true ->
  Str.isSome (Spec.currentVersion w file) = true ->
  writable w file = true ->
  result (updatePythonVersion file v w) = Returned true /\
  result (readPythonVersion file (final (updatePythonVersion file v w)))
  = Returned (Some v).
Proof.
  intros Hv Hcur Hw.
  destruct (canonical_chars v Hv) as (Hne & Hq & Hd).
  unfold updatePythonVersion. rewrite patchFile_run, Hw.
  unfold Spec.currentVersion in Hcur.
  destruct (readFileSync w file) as [content|] eqn:Hread; [|discriminate].
  cbn [result final fst snd]. split; [reflexivity|].
  rewrite readPythonVersion_run.
  unfold Spec.currentVersion. rewrite (read_after_store _ _ _ _ Hread).
  cbn [result fst]. f_equal. apply versionIn_written; try assumption.
  unfold versionIn in Hcur. change (exec versionPattern content)
    with (scan versionPattern None content) in Hcur.
  unfold exec. rewrite (scan_same content None None).
  destruct (scan versionPattern None content) as [m|]; [reflexivity|].
  discriminate.
Qed.

(** *** Reasoning on runs *)

Lemma post_bind {A B} (m : M A) (f : A -> M B) (w : world)
    (Q : outcome B -> world -> Prop) :
  post (m w) (fun r w1 =>
    match r with
    | Returned a => post (f a w1) Q
    | Thrown e => Q (Thrown e) w1
    end) ->
  post (bind m f w) Q.
Proof.
  unfold post, bind, result, final.
  destruct (m w) as [[[a|e] w1] l1]; cbn [fst snd]; [|auto].
  destruct (f a w1) as [[r w2] l2]. auto.
Qed.

Lemma store_other (file p : path) (content : string) (w : world) :
  p <> file -> nodeAt (store file content w) p = nodeAt w p.
Proof.
  intros H. unfold store. cbn [nodeAt].
  apply String.eqb_neq in H. rewrite H. reflexivity.
Qed.

Lemma post_intro {A} (x : outcome A * world * list event)
    (Q : outcome A -> world -> Prop) :
  Q (result x) (final x) -> post x Q.
Proof. exact (fun H => H). Qed.

Ltac wp_done := apply post_intro; cbn [result final fst snd]; cbv beta iota.

Ltac wp_step :=
  lazymatch goal with
  | |- post (bind _ _ _) _ => apply post_bind
  | |- post (emit ?e ?w) ?Q => change (post (Returned tt, w, [e]) Q); wp_done
  | |- post (ret ?a ?w) ?Q =>
      change (post (Returned a, w, @nil event) Q); wp_done
  | |- post (throw ?e ?w) ?Q =>
      change (post (Thrown e, w, @nil event) Q); wp_done
  | |- post (getWorld ?w) ?Q =>
      change (post (Returned w, w, @nil event) Q); wp_done
  | |- post (putWorld ?w' ?w) ?Q =>
      change (post (Returned tt, w', @nil event) Q); wp_done
  | |- post (when ?b _ _) _ => destruct b eqn:?; cbn [when]
  | |- post (updatePythonVersion _ _ _) _ => unfold updatePythonVersion
  | |- post (updatePyprojectVersion _ _ _) _ => unfold updatePyprojectVersion
  | |- post (patchFile ?p ?k ?f ?v ?w) _ =>
      let c := fresh "content" in
      let Hr := fresh "Hread" in
      let Hw := fresh "Hwrite" in
      rewrite (patchFile_run p k f v w);
      destruct (readFileSync w f) as [c|] eqn:Hr;
        [destruct (writable w f) eqn:Hw|];
      wp_done; cbn [negb]
  | |- post ((if ?b then _ else _) _) _ => destruct b eqn:?
  | |- post (match ?x with _ => _ end _) _ => destruct x eqn:?
  end.

Ltac use_flags :=
  repeat match goal with
         | I : true = true -> _ |- _ => specialize (I eq_refl)
         | I : false = true -> _ |- _ => clear I
         | H : _ /\ _ |- _ => destruct H
         end.

(** The update block writes the files it is asked to update, no other. *)
Lemma updateFiles_frame (cfg : pluginConfig) (d : decision) (bv av : string)
    (w : world) (p : path) :
  (bumpBot d = true ->
   p <> botVersionFile cfg /\ pyprojectFile cfg <> Some p) ->
  (bumpApi d = true -> p <> apiVersionFile cfg) ->
  post (updateFiles cfg d bv av w) (fun _ w1 => nodeAt w1 p = nodeAt w p).
Proof.
  intros Hbot Hapi. unfold updateFiles.
  repeat wp_step; use_flags;
    rewrite ?store_other by congruence; reflexivity.
Qed.


(** sync_versions.js writes the two wrapper manifests, no other file. *)
Lemma syncVersionsScript_frame (w : world) (p : path) :
  p <> botManifest -> p <> apiManifest ->
  nodeAt (snd (syncVersionsScript w)) p = nodeAt w p /\
  writable (snd (syncVersionsScript w)) = writable w.
Proof.
  intros Hb Ha. unfold syncVersionsScript, updatePackageJson, writeFileSync.
  destruct (getVersion w "bot") as [bv|]; [|split; reflexivity].
  destruct (getVersion w "api") as [av|]; [|split; reflexivity].
  destruct (Str.isEmpty bv || Str.isEmpty av); [split; reflexivity|].
  destruct (writable w botManifest); cbn [store writable];
    destruct (writable w apiManifest); cbn [andb snd store writable];
    rewrite ?store_other by assumption; split; reflexivity.
Qed.

Lemma sync_run (bv av : string) (w : world) :
  syncWrapperVersions bv av w =
  if nodeRuns w
  then (Returned (fst (syncVersionsScript w) =? 0)%Z,
        snd (syncVersionsScript w), [])
  else (Returned false, w, []).
Proof.
  unfold syncWrapperVersions, bind, getWorld, putWorld, ret.
  destruct (nodeRuns w); [|reflexivity].
  destruct (syncVersionsScript w) as [code w']. reflexivity.
Qed.

Lemma sync_frame (bv av : string) (w : world) (p : path) :
  p <> botManifest -> p <> apiManifest ->
  nodeAt (final (syncWrapperVersions bv av w)) p = nodeAt w p.
Proof.
  intros Hb Ha. rewrite sync_run. destruct (nodeRuns w); [|reflexivity].
  apply (syncVersionsScript_frame w p Hb Ha).
Qed.

(** What [prepare] does, step by step *)
Lemma prepare_run (cfg : pluginConfig) (ctx : context) (w : world) :
  prepare cfg ctx w =
  match Spec.currentVersion w (botVersionFile cfg),
        Spec.currentVersion w (apiVersionFile cfg) with
  | Some cb, Some ca =>
      let d := analyzeCommits (commits ctx) in
      let bv := fst (nextVersions d (releaseType ctx) cb ca) in
      let av := snd (nextVersions d (releaseType ctx) cb ca) in
      match updateFiles cfg d bv av w with
      | (Returned _, w1, l1) =>
          match syncWrapperVersions bv av w1 with
          | (Returned synced, w2, l2) =>
              (Returned {| botVersion := bv; apiVersion := av; version := bv |},
               w2,
               Spec.header d cb ca bv av ++ l1 ++ Log SyncingWrappers :: l2 ++
               [if synced then Log SyncDone else Warn SyncFailed])%list
          | (Thrown e, w2, l2) =>
              (Thrown e, w2,
               Spec.header d cb ca bv av ++ l1 ++ Log SyncingWrappers :: l2)%list
          end
      | (Thrown e, w1, l1) =>
          (Thrown e, w1, (Spec.header d cb ca bv av ++ l1)%list)
      end
  | _, _ =>
      (Thrown "Could not read current versions from Python files", w,
       [Log UpdatingFiles])
  end.
Proof.
  unfold prepare.
  unfold bind at 1. cbn [emit].
  unfold bind at 1. rewrite readPythonVersion_run.
  unfold bind at 1. rewrite readPythonVersion_run.
  destruct (Spec.currentVersion w (botVersionFile cfg)) as [cb|] eqn:Hb;
    [|reflexivity].
  destruct (Spec.currentVersion w (apiVersionFile cfg)) as [ca|] eqn:Ha;
    [|cbn [falsy orb]; rewrite orb_true_r; reflexivity].
  rewrite (currentVersion_truthy _ _ _ Hb), (currentVersion_truthy _ _ _ Ha).
  cbn [orb orEmpty]. cbv zeta.
  unfold Spec.header.
  destruct (nextVersions (analyzeCommits (commits ctx)) (releaseType ctx) cb ca)
    as [bv av]. cbn [fst snd].
  unfold bind, emit, when, ret.
  destruct (bumpBot (analyzeCommits (commits ctx)));
    destruct (bumpApi (analyzeCommits (commits ctx)));
    destruct (updateFiles cfg (analyzeCommits (commits ctx)) bv av w)
      as [[[[]|e] w1] l1]; try reflexivity;
    destruct (syncWrapperVersions bv av w1) as [[[synced|e] w2] l2];
    try reflexivity; destruct synced; cbn [negb app];
    rewrite ?app_nil_r, <- ?app_assoc; cbn [app]; reflexivity.
Qed.

(** C6: when the version of the bot file or of the API file cannot be
    read (the file cannot be read, or holds no version constant), prepare
    throws, and the world it leaves is the world it started in: nothing
    has been written. *)
Theorem C6_unreadable_version_aborts (cfg : pluginConfig) (ctx : context)
    (w : world) :
  result (readPythonVersion (botVersionFile cfg) w) = Returned None \/
  result (readPythonVersion (apiVersionFile cfg) w) = Returned None ->
  result (prepare cfg ctx w) =
    Thrown "Could not read current versions from Python files" /\
  final (prepare cfg ctx w) = w.
Proof.
  rewrite !readPythonVersion_run, prepare_run. cbn [result fst].
  intros [H|H]; injection H as ->.
  - split; reflexivity.
  - destruct (Spec.currentVersion w (botVersionFile cfg)); split; reflexivity.
Qed.

(** C9: when the block that updates the version files has returned and
    syncWrapperVersions then returns false, prepare logs the warning,
    still returns the versions it settled on, and leaves the world as the
    failed sync left it: every file but the two wrapper manifests is as
    the update block wrote it. *)
Theorem C9_sync_failure_is_a_warning (cfg : pluginConfig) (ctx : context)
    (w w1 w2 : world) (cb ca : string) (l1 l2 : list event) :
  Spec.currentVersion w (botVersionFile cfg) = Some cb ->
  Spec.currentVersion w (apiVersionFile cfg) = Some ca ->
  let d := analyzeCommits (commits ctx) in
  let bv := fst (nextVersions d (releaseType ctx) cb ca) in
  let av := snd (nextVersions d (releaseType ctx) cb ca) in
  updateFiles cfg d bv av w = (Returned tt, w1, l1) ->
  syncWrapperVersions bv av w1 = (Returned false, w2, l2) ->
  result (prepare cfg ctx w) =
    Returned {| botVersion := bv; apiVersion := av; version := bv |} /\
  In (Warn SyncFailed) (logged (prepare cfg ctx w)) /\
  final (prepare cfg ctx w) = w2 /\
  forall p, p <> botManifest -> p <> apiManifest ->
            nodeAt w2 p = nodeAt w1 p.
Proof.
  intros Hb Ha d bv av Hu Hs. rewrite prepare_run, Hb, Ha. cbv zeta.
  fold d. fold bv. fold av. rewrite Hu, Hs.
  cbn [result final logged fst snd]. repeat split.
  - rewrite !in_app_iff. right. right. cbn [In]. right.
    rewrite in_app_iff. right. left. reflexivity.
  - intros p Hp1 Hp2.
    pose proof (sync_frame bv av w1 p Hp1 Hp2) as H. rewrite Hs in H.
    exact H.
Qed.

Lemma read_store_some (w : world) (file p : path) (content : string) :
  Str.isSome (readFileSync w p) = true ->
  Str.isSome (readFileSync (store file content w) p) = true.
Proof.
  unfold readFileSync, store. cbn [nodeAt].
  destruct (String.eqb p file); destruct (nodeAt w p); auto.
Qed.

Lemma read_exists (w : world) (p : path) :
  existsSync w p = true -> nodeAt w p <> Unreadable ->
  Str.isSome (readFileSync w p) = true.
Proof.
  unfold existsSync, readFileSync.
  destruct (nodeAt w p); cbn; congruence.
Qed.

Lemma store_readable (w : world) (file p : path) (content : string) :
  Str.isSome (readFileSync w file) = true ->
  nodeAt w p <> Unreadable -> nodeAt (store file content w) p <> Unreadable.
Proof.
  unfold readFileSync, store. cbn [nodeAt].
  destruct (String.eqb_spec p file) as [->|_]; [|auto].
  intros H1 H2. destruct (nodeAt w file); cbn in *; congruence.
Qed.

Ltac refute_update :=
  exfalso;
  repeat match goal with
         | H : forall py, Some ?p = Some py -> _ |- _ =>
             specialize (H p eq_refl); destruct H
         | H : _ && _ = true |- _ => apply andb_prop in H; destruct H
         end;
  cbn [store writable Str.isSome] in *; try congruence;
  match goal with
  | Hn : readFileSync ?w' ?f = None |- _ =>
      let X := fresh in
      assert (X : Str.isSome (readFileSync w' f) = true)
        by (first
              [ repeat apply read_store_some; assumption
              | apply read_exists; [assumption|];
                apply store_readable; [|assumption];
                match goal with
                | H : readFileSync _ _ = Some _ |- _ => rewrite H; reflexivity
                end ]);
      rewrite Hn in X; discriminate
  end.

(** The update block returns when the files it updates can be read and
    written. *)
Lemma updateFiles_ok (cfg : pluginConfig) (d : decision) (bv av : string)
    (w : world) :
  (bumpBot d = true ->
   Str.isSome (readFileSync w (botVersionFile cfg)) = true /\
   writable w (botVersionFile cfg) = true /\
   forall py, pyprojectFile cfg = Some py ->
              writable w py = true /\ nodeAt w py <> Unreadable) ->
  (bumpApi d = true ->
   Str.isSome (readFileSync w (apiVersionFile cfg)) = true /\
   writable w (apiVersionFile cfg) = true) ->
  post (updateFiles cfg d bv av w) (fun r _ => r = Returned tt).
Proof.
  intros Hbot Hapi. unfold updateFiles.
  repeat wp_step; use_flags; try reflexivity; refute_update.
Qed.

Lemma prepare_frame (cfg : pluginConfig) (ctx : context) (w : world)
    (p : path) :
  let d := analyzeCommits (commits ctx) in
  p <> botManifest -> p <> apiManifest ->
  (bumpBot d = true ->
   p <> botVersionFile cfg /\ pyprojectFile cfg <> Some p) ->
  (bumpApi d = true -> p <> apiVersionFile cfg) ->
  nodeAt (final (prepare cfg ctx w)) p = nodeAt w p.
Proof.
  intros d Hm1 Hm2 Hbot Hapi. rewrite prepare_run.
  destruct (Spec.currentVersion w (botVersionFile cfg)) as [cb|];
    [|reflexivity].
  destruct (Spec.currentVersion w (apiVersionFile cfg)) as [ca|];
    [|reflexivity].
  cbv zeta. fold d.
  set (bv := fst (nextVersions d (releaseType ctx) cb ca)).
  set (av := snd (nextVersions d (releaseType ctx) cb ca)).
  pose proof (updateFiles_frame cfg d bv av w p Hbot Hapi) as Hu.
  unfold post in Hu.
  destruct (updateFiles cfg d bv av w) as [[[[]|e] w1] l1];
    cbn [final result fst snd] in Hu |- *; [|exact Hu].
  pose proof (sync_frame bv av w1 p Hm1 Hm2) as Hs.
  destruct (syncWrapperVersions bv av w1) as [[[synced|e] w2] l2];
    cbn [final fst snd] in Hs |- *; congruence.
Qed.

Lemma store_same (file : path) (content old : string) (w : world) :
  nodeAt w file = File old ->
  nodeAt (store file content w) file = File content.
Proof.
  intros H. unfold store. cbn [nodeAt]. rewrite String.eqb_refl, H.
  reflexivity.
Qed.

Lemma updateFiles_pyproject (cfg : pluginConfig) (d : decision)
    (bv av : string) (w : world) (py : path) (content : string) :
  bumpBot d = true -> pyprojectFile cfg = Some py ->
  Str.isEmpty py = false ->
  py <> botVersionFile cfg -> py <> apiVersionFile cfg ->
  nodeAt w py = File content ->
  post (updateFiles cfg d bv av w) (fun r w1 =>
    r = Returned tt ->
    nodeAt w1 py =
    File (replace pyprojectPattern (quoted "version" bv) content)).
Proof.
  intros Hd Hpy Hne Hbot Hapi Hnode. unfold updateFiles. rewrite Hd, Hpy.
  cbn [when]. rewrite Hne. cbn [negb andb].
  assert (Hread : forall c w', nodeAt w' py = File c ->
                               readFileSync w' py = Some c)
    by (intros c w' H; unfold readFileSync; rewrite H; reflexivity).
  assert (Hex : forall c w', nodeAt w' py = File c -> existsSync w' py = true)
    by (intros c w' H; unfold existsSync; rewrite H; reflexivity).
  repeat wp_step; try discriminate; intros _;
    repeat match goal with
           | H : existsSync (store ?f ?c ?w0) py = _ |- _ =>
               rewrite (Hex content (store f c w0)) in H
                 by (rewrite store_other by assumption; exact Hnode)
           | H : readFileSync (store ?f ?c ?w0) py = _ |- _ =>
               rewrite (Hread content (store f c w0)) in H
                 by (rewrite store_other by assumption; exact Hnode)
           end;
    try discriminate.
  all: repeat match goal with
              | H : Some _ = Some _ |- _ => injection H as <-
              end.
  all: rewrite ?(store_other (apiVersionFile cfg)) by assumption.
  all: apply (store_same py _ content);
       rewrite store_other by assumption; exact Hnode.
Qed.

Lemma C6_witness :
  result (readPythonVersion (botVersionFile Example.astray) Example.repo)
  = Returned None /\
  result (prepare Example.astray Example.apiFix Example.repo)
  = Thrown "Could not read current versions from Python files" /\
  final (prepare Example.astray Example.apiFix Example.repo) = Example.repo.
Proof.
  assert (H : result (readPythonVersion (botVersionFile Example.astray)
                        Example.repo) = Returned None) by reflexivity.
  split; [exact H|].
  exact (C6_unreadable_version_aborts Example.astray Example.apiFix
           Example.repo (or_introl H)).
Defined.

Lemma C7_witness :
  Spec.canonical "1.4.0" = true /\
  result (updatePythonVersion botInit "1.4.0" Example.repo) = Returned true /\
  result (readPythonVersion botInit
            (final (updatePythonVersion botInit "1.4.0" Example.repo)))
  = Returned (Some "1.4.0").
Proof.
  split; [reflexivity|].
  apply (C7_write_then_read Example.repo botInit "1.4.0"); reflexivity.
Defined.

Lemma C9_witness :
  let run := prepare Example.config (Example.botFeature "minor")
               Example.sealed in
  result run = Returned {| botVersion := "2.1.0"; apiVersion := "1.5.2";
                           version := "2.1.0" |} /\
  In (Warn SyncFailed) (logged run) /\
  Spec.currentVersion (final run) botInit = Some "2.1.0".
Proof.
  set (d := analyzeCommits (commits (Example.botFeature "minor"))).
  set (updated := updateFiles Example.config d "2.1.0" "1.5.2" Example.sealed).
  set (synced := syncWrapperVersions "2.1.0" "1.5.2" (final updated)).
  destruct (C9_sync_failure_is_a_warning Example.config
              (Example.botFeature "minor") Example.sealed
              (final updated) (final synced) "2.0.0" "1.5.2"
              (logged updated) (logged synced)
              eq_refl eq_refl eq_refl eq_refl) as (Hres & Hlog & Hfin & _).
  cbv zeta. split; [exact Hres|]. split; [exact Hlog|].
  rewrite Hfin. reflexivity.
Defined.

(** * Further properties of the scripts *)

Import Forms.

(** ** More on the commit classifier *)

Lemma prefix_both (a b t : string) :
  String.prefix a t = true -> String.prefix b t = true ->
  String.prefix a b || String.prefix b a = true.
Proof.
  revert a b. induction t as [|c t IH]; intros a b.
  - destruct a; [|discriminate]. destruct b; reflexivity.
  - destruct a as [|x a]; [destruct b; reflexivity|].
    destruct b as [|y b]; [intros _ _; reflexivity|].
    cbn [String.prefix].
    destruct (ascii_dec x c) as [->|]; [|discriminate].
    destruct (ascii_dec y c) as [->|]; [|discriminate].
    destruct (ascii_dec c c) as [_|n]; [|congruence]. apply IH.
Qed.

(** X1: no commit message is at once a bot commit and an api commit: the
    two patterns of analyzeCommits never match the same message. *)
Theorem X1_scopes_exclude (text : string) :
  matches botPattern text && matches apiPattern text = false.
Proof.
  pose proof (matches_bot {| message := text |}) as Hb.
  pose proof (matches_api {| message := text |}) as Ha.
  cbn [message] in Hb, Ha. rewrite Hb, Ha.
  destruct (Spec.isBotCommit _) eqn:Eb; [|reflexivity].
  destruct (Spec.isApiCommit _) eqn:Ea; [|reflexivity].
  exfalso. unfold Spec.isBotCommit, Spec.isApiCommit in Eb, Ea.
  apply existsb_exists in Eb as (a & Hina & Hpa).
  apply existsb_exists in Ea as (b & Hinb & Hpb).
  pose proof (prefix_both a b _ Hpa Hpb) as H.
  cbn [Spec.prefixesOf In] in Hina, Hinb.
  repeat (destruct Hina as [<-|Hina]);
    repeat (destruct Hinb as [<-|Hinb]);
    try contradiction; vm_compute in H; discriminate.
Qed.

Lemma existsb_none {A} (f : A -> bool) (l : list A) :
  (forall x, In x l -> f x = false) -> List.existsb f l = false.
Proof.
  intros H. destruct (List.existsb f l) eqn:E; [|reflexivity].
  apply existsb_exists in E as (x & Hin & Hx).
  rewrite (H x Hin) in Hx. discriminate.
Qed.

(** X2: once a bot commit is in the list and no api commit is, only the
    bot is bumped, whatever unscoped commits stand beside it; and the
    same with the two components exchanged. *)
Theorem X2_scoped_commit_decides (commits : list commit) (c : commit) :
  In c commits ->
  (matches botPattern (message c) = true ->
   (forall c', In c' commits -> matches apiPattern (message c') = false) ->
   analyzeCommits commits = {| bumpBot := true; bumpApi := false |}) /\
  (matches apiPattern (message c) = true ->
   (forall c', In c' commits -> matches botPattern (message c') = false) ->
   analyzeCommits commits = {| bumpBot := false; bumpApi := true |}).
Proof.
  intros Hin. unfold analyzeCommits.
  split; intros Hc Hnone.
  - rewrite (existsb_none (fun c => matches apiPattern (message c)) commits)
      by exact Hnone.
    replace (List.existsb (fun c => matches botPattern (message c)) commits)
      with true; [reflexivity|].
    symmetry. apply existsb_exists. exists c. split; assumption.
  - rewrite (existsb_none (fun c => matches botPattern (message c)) commits)
      by exact Hnone.
    replace (List.existsb (fun c => matches apiPattern (message c)) commits)
      with true; [reflexivity|].
    symmetry. apply existsb_exists. exists c. split; assumption.
Qed.

Lemma X2_witness :
  let commits := [{| message := "chore: cleanup" |};
                  {| message := "feat(api): add endpoint" |};
                  {| message := "docs: update readme" |}] in
  analyzeCommits commits = {| bumpBot := false; bumpApi := true |}.
Proof.
  intros commits.
  refine (proj2 (X2_scoped_commit_decides commits
                   {| message := "feat(api): add endpoint" |} _) eq_refl _).
  - right. left. reflexivity.
  - intros c' [<-|[<-|[<-|[]]]]; reflexivity.
Defined.

(** X3: the decision depends on which commits are in the list, not on
    their order or on how often each occurs. *)
Theorem X3_order_is_irrelevant (l l' : list commit) :
  (forall c, In c l <-> In c l') -> analyzeCommits l = analyzeCommits l'.
Proof.
  intros H. unfold analyzeCommits.
  assert (E : forall f : commit -> bool, List.existsb f l = List.existsb f l').
  { intros f. apply eq_true_iff_eq. rewrite !existsb_exists.
    split; intros (c & Hin & Hc); exists c; (split; [apply H, Hin|exact Hc]). }
  rewrite !E. reflexivity.
Qed.

Lemma X3_witness :
  analyzeCommits [{| message := "bot: a" |}; {| message := "api: b" |}] =
  analyzeCommits [{| message := "api: b" |}; {| message := "bot: a" |};
                  {| message := "api: b" |}].
Proof.
  apply X3_order_is_irrelevant. intros c. cbn [In]. tauto.
Defined.

(** ** More on the version calculator *)

Lemma split_never_empty (sep : ascii) (s : string) :
  exists p ps, Str.split sep s = p :: ps.
Proof.
  induction s as [|c s (p & ps & IH)]; cbn [Str.split]; [eauto|].
  destruct (Ascii.eqb c sep); [eauto|]. rewrite IH. eauto.
Qed.

Lemma split_append (sep : ascii) (a b : string) :
  Str.split sep (a ++ String sep b) = (Str.split sep a ++ Str.split sep b)%list.
Proof.
  induction a as [|c a IH]; cbn [append Str.split].
  - rewrite Ascii.eqb_refl. reflexivity.
  - destruct (Ascii.eqb c sep); [rewrite IH; reflexivity|].
    rewrite IH. destruct (split_never_empty sep a) as (p & ps & ->).
    reflexivity.
Qed.

Lemma nth_error_map_app {A B} (f : A -> B) (l l' : list A) (i : nat) :
  i < List.length l ->
  nth_error (List.map f (l ++ l')) i = nth_error (List.map f l) i.
Proof.
  intros H. rewrite List.map_app. apply nth_error_app1.
  rewrite List.length_map. exact H.
Qed.

(** X4: calculateNextVersion looks at the first three components only:
    whatever follows a further dot changes nothing in the next version. *)
Theorem X4_further_components_are_ignored (s rest t : string) :
  3 <= List.length (Str.split "." s) ->
  Spec.isReleaseType t = true ->
  calculateNextVersion (s ++ "." ++ rest) t = calculateNextVersion s t.
Proof.
  intros Hlen Ht. unfold calculateNextVersion. cbn [append].
  rewrite split_append, !nth_error_map_app by lia.
  unfold Spec.isReleaseType in Ht.
  destruct (String.eqb t "major"); [reflexivity|].
  destruct (String.eqb t "minor"); [reflexivity|].
  destruct (String.eqb t "patch"); [reflexivity|discriminate].
Qed.

Lemma X4_witness :
  calculateNextVersion "1.2.3.4" "minor" = calculateNextVersion "1.2.3" "minor"
  /\ calculateNextVersion "1.2.3.4" "minor" = "1.3.0".
Proof.
  assert (H : calculateNextVersion ("1.2.3" ++ "." ++ "4") "minor" =
              calculateNextVersion "1.2.3" "minor").
  { apply X4_further_components_are_ignored; [cbn; lia|reflexivity]. }
  split; [exact H|reflexivity].
Defined.

Lemma decimalValue_zero (s : string) :
  Num.decimalValue (String "0" s) = Num.decimalValue s.
Proof.
  unfold Num.decimalValue. cbn [NilEmpty.uint_of_string].
  change (uint_of_char "0" (NilEmpty.uint_of_string s))
    with (option_map D0 (NilEmpty.uint_of_string s)).
  destruct (NilEmpty.uint_of_string s) as [d|]; [|reflexivity].
  reflexivity.
Qed.

Lemma decimalValue_zeros (k : nat) (s : string) :
  Num.decimalValue (Num.zeros k ++ s) = Num.decimalValue s.
Proof.
  induction k as [|k IH]; cbn [Num.zeros append]; [reflexivity|].
  rewrite decimalValue_zero. exact IH.
Qed.

Lemma zeros_digits (k : nat) : Str.forallb isDigit (Num.zeros k) = true.
Proof. induction k as [|k IH]; cbn [Num.zeros Str.forallb]; auto. Qed.

(** A decimal text with zeros put before it is read as the same number. *)
Lemma ofString_zeros (k : nat) (n : N) :
  Num.ofString (Num.zeros k ++ Num.decimal n) = Num.ofString (Num.decimal n).
Proof.
  rewrite (ofString_digits (Num.zeros k ++ Num.decimal n) (Z.of_N n)).
  - rewrite (ofString_digits (Num.decimal n) (Z.of_N n));
      [reflexivity|apply decimal_digits|apply decimal_nonempty|].
    apply decimalValue_decimal.
  - rewrite forallb_app, zeros_digits, decimal_digits. reflexivity.
  - pose proof (decimal_nonempty n) as H.
    destruct k; cbn [Num.zeros append]; [exact H|reflexivity].
  - rewrite decimalValue_zeros. apply decimalValue_decimal.
Qed.

(** X5: zeros written before a component do not count: the next version
    of 01.002.3 is that of 1.2.3, for each of the three release types and
    components of any size. *)
Theorem X5_leading_zeros_are_dropped (v : Spec.SemanticVersion)
    (i j k : nat) (t : string) :
  Spec.isReleaseType t = true ->
  calculateNextVersion
    ((Num.zeros i ++ Num.decimal (Spec.major v)) ++ "." ++
     (Num.zeros j ++ Num.decimal (Spec.minor v)) ++ "." ++
     (Num.zeros k ++ Num.decimal (Spec.patch v))) t
  = calculateNextVersion (Spec.text v) t.
Proof.
  intros Ht. unfold calculateNextVersion. rewrite split_text.
  cbn [append].
  assert (Hd : forall k n, Str.forallb (fun c => negb (Ascii.eqb c "."))
                             (Num.zeros k ++ Num.decimal n) = true).
  { intros k' n. apply digits_no_dot.
    rewrite forallb_app, zeros_digits, decimal_digits. reflexivity. }
  rewrite !split_app, split_one by apply Hd.
  cbn [List.map nth_error]. rewrite !ofString_zeros.
  unfold Spec.isReleaseType in Ht.
  destruct (String.eqb t "major"); [reflexivity|].
  destruct (String.eqb t "minor"); [reflexivity|].
  destruct (String.eqb t "patch"); [reflexivity|discriminate].
Qed.

Lemma X5_witness :
  calculateNextVersion "01.002.3" "patch" = "1.2.4".
Proof.
  exact (X5_leading_zeros_are_dropped
           {| Spec.major := 1; Spec.minor := 2; Spec.patch := 3 |}
           1 2 0 "patch" eq_refl).
Defined.

(** X6: a version with fewer than three components is not refused.  With
    two components the patch is missing and a patch release ends in NaN;
    with one component a minor release gives NaN for the minor and a
    patch release prints the missing minor as undefined. *)
Theorem X6_missing_components (M m : N) :
  (M < 2 ^ 53)%N -> (m < 2 ^ 53)%N ->
  let two := Num.decimal M ++ "." ++ Num.decimal m in
  calculateNextVersion two "major" = Num.decimal (M + 1) ++ ".0.0" /\
  calculateNextVersion two "minor" =
    Num.decimal M ++ "." ++ Num.decimal (m + 1) ++ ".0" /\
  calculateNextVersion two "patch" = two ++ ".NaN" /\
  calculateNextVersion (Num.decimal M) "major" = Num.decimal (M + 1) ++ ".0.0" /\
  calculateNextVersion (Num.decimal M) "minor" = Num.decimal M ++ ".NaN.0" /\
  calculateNextVersion (Num.decimal M) "patch" =
    Num.decimal M ++ ".undefined.NaN".
Proof.
  intros HM Hm two. unfold two, calculateNextVersion. cbn [append].
  rewrite split_app, !split_one by apply digits_no_dot, decimal_digits.
  cbn [List.map nth_error String.eqb Ascii.eqb Bool.eqb].
  rewrite !ofString_decimal by lia.
  unfold plusOne, show. rewrite !succ_int by assumption.
  rewrite !toString_int by lia.
  cbn [Num.toString]. rewrite !append_assoc. cbn [append].
  repeat split; reflexivity.
Qed.

Lemma X6_witness :
  calculateNextVersion "1.2" "patch" = "1.2.NaN" /\
  calculateNextVersion "1" "patch" = "1.undefined.NaN".
Proof.
  destruct (X6_missing_components 1 2 eq_refl eq_refl)
    as (_ & _ & H2 & _ & _ & H1).
  split; [exact H2|exact H1].
Defined.

(** ** More on reading and writing a version *)

Lemma dropWhile_app (p : ascii -> bool) (a s : string) :
  Str.forallb p a = true -> Str.dropWhile p (a ++ s) = Str.dropWhile p s.
Proof.
  induction a as [|c a IH]; cbn [append Str.forallb Str.dropWhile];
    [reflexivity|].
  intros H. apply andb_prop in H as [-> H]. apply IH, H.
Qed.

Lemma takeWhile_forallb (p : ascii -> bool) (s : string) :
  Str.forallb p (Str.takeWhile p s) = true.
Proof.
  induction s as [|c s IH]; cbn [Str.takeWhile]; [reflexivity|].
  destruct (p c) eqn:Hc; [|reflexivity]. cbn [Str.forallb].
  rewrite Hc, IH. reflexivity.
Qed.

Lemma space_or_quote (c : ascii) :
  isQuote c = true -> Ascii.eqb c "_" = false /\ isWhiteSpace c = false.
Proof.
  intros Hc.
  pose proof (forall_chars (fun c => implb (isQuote c)
    (negb (Ascii.eqb c "_" || isWhiteSpace c))) ltac:(vm_compute; reflexivity) c)
    as H.
  cbv beta in H. rewrite Hc in H. cbn [implb] in H.
  apply negb_true_iff, orb_false_elim in H. exact H.
Qed.

Lemma stripLit_app (key s : string) : stripLit false key (key ++ s) = Some s.
Proof.
  induction key as [|a key IH]; cbn [append stripLit].
  - destruct s; reflexivity.
  - rewrite sameChar_exact, Ascii.eqb_refl. exact IH.
Qed.

Lemma stripLit_split (key s s' : string) :
  stripLit false key s = Some s' -> s = key ++ s'.
Proof.
  revert s. induction key as [|a key IH]; intros s.
  - destruct s; cbn [stripLit append]; congruence.
  - destruct s as [|b s]; cbn [stripLit append]; [discriminate|].
    rewrite sameChar_exact. destruct (Ascii.eqb_spec a b) as [->|_];
      [|discriminate].
    intros H. rewrite (IH _ H). reflexivity.
Qed.

Lemma span_app (p : ascii -> bool) (s : string) :
  s = Str.takeWhile p s ++ Str.dropWhile p s.
Proof.
  induction s as [|c s IH]; cbn [Str.takeWhile Str.dropWhile];
    [reflexivity|].
  destruct (p c); cbn [append]; [rewrite <- IH|]; reflexivity.
Qed.

(** An assignment in the form of [entry] is matched whole. *)
Lemma keyed_entry (key ws1 ws2 v rest : string) (q1 q2 : ascii) :
  Str.forallb isWhiteSpace ws1 = true -> Str.forallb isWhiteSpace ws2 = true ->
  isQuote q1 = true -> isQuote q2 = true ->
  Str.forallb notQuote v = true -> Str.isEmpty v = false ->
  keyed key (entry key ws1 ws2 q1 q2 v ++ rest) = Some (v, rest).
Proof.
  intros H1 H2 Hq1 Hq2 Hv Hne. unfold entry, keyed.
  rewrite !append_assoc, stripLit_app.
  unfold afterKey. rewrite (dropWhile_app _ ws1 _ H1).
  cbn [append Str.dropWhile].
  change (isWhiteSpace "=") with false. cbv iota.
  change (Ascii.eqb "=" "=") with true. cbv iota.
  unfold opening. rewrite (dropWhile_app _ ws2 _ H2).
  cbn [append Str.dropWhile].
  rewrite (proj2 (space_or_quote q1 Hq1)), Hq1, append_assoc.
  destruct v as [|c v]; [discriminate|].
  cbn [Str.forallb] in Hv. apply andb_prop in Hv as [Hc Hv].
  cbn [append quotedText]. rewrite Hc.
  rewrite (run_closed v rest q2 Hv Hq2). reflexivity.
Qed.

(** What is matched is an assignment in the form of [entry], no other. *)
Lemma keyed_split (key s v rest : string) :
  keyed key s = Some (v, rest) ->
  exists ws1 ws2 q1 q2,
    s = entry key ws1 ws2 q1 q2 v ++ rest /\
    Str.forallb isWhiteSpace ws1 = true /\
    Str.forallb isWhiteSpace ws2 = true /\
    isQuote q1 = true /\ isQuote q2 = true.
Proof.
  unfold keyed. destruct (stripLit false key s) as [s1|] eqn:E1;
    [|discriminate].
  apply stripLit_split in E1. subst s.
  unfold afterKey. pose proof (span_app isWhiteSpace s1) as S1.
  destruct (Str.dropWhile isWhiteSpace s1) as [|e s2]; [discriminate|].
  destruct (Ascii.eqb_spec e "=") as [->|_]; [|discriminate].
  unfold opening. pose proof (span_app isWhiteSpace s2) as S2.
  destruct (Str.dropWhile isWhiteSpace s2) as [|q1 s3]; [discriminate|].
  destruct (isQuote q1) eqn:Hq1; [|discriminate].
  unfold quotedText. destruct s3 as [|c s4]; [discriminate|].
  destruct (notQuote c) eqn:Hc; [|discriminate].
  unfold run. pose proof (span_app notQuote s4) as S4.
  destruct (Str.dropWhile notQuote s4) as [|q2 s5] eqn:E4; [discriminate|].
  cbn [option_map fst snd]. intros [= <- <-].
  exists (Str.takeWhile isWhiteSpace s1), (Str.takeWhile isWhiteSpace s2),
         q1, q2.
  rewrite !takeWhile_forallb, Hq1.
  pose proof (dropWhile_head _ _ _ _ E4) as Hq2.
  apply negb_false_iff in Hq2. rewrite Hq2.
  repeat split. unfold entry. rewrite !append_assoc. cbn [append].
  rewrite !append_assoc. cbn [append]. rewrite <- S4, <- S2.
  cbn [append] in S1. rewrite <- S1. reflexivity.
Qed.

Lemma keyed_assigned (ws1 ws2 v rest : string) (q1 q2 : ascii) :
  Str.forallb isWhiteSpace ws1 = true -> Str.forallb isWhiteSpace ws2 = true ->
  isQuote q1 = true -> isQuote q2 = true ->
  Str.forallb notQuote v = true -> Str.isEmpty v = false ->
  keyed "__version__" (assigned ws1 ws2 q1 q2 v ++ rest) = Some (v, rest).
Proof. apply keyed_entry. Qed.

Lemma scan_prev (p : pattern) (prev prev' : option ascii) (s : string) :
  anchored p = false -> scan p prev s = scan p prev' s.
Proof.
  intros Ha. rewrite (scan_free p prev s Ha), (scan_free p prev' s Ha).
  reflexivity.
Qed.

(** Text without an underscore holds no start of a version assignment. *)
Lemma versionIn_skip (pre s : string) :
  Str.forallb (fun c => negb (Ascii.eqb c "_")) pre = true ->
  versionIn (pre ++ s) = versionIn s.
Proof.
  unfold versionIn, exec. generalize (@None ascii) at 1.
  induction pre as [|c pre IH]; intros prev; cbn [append Str.forallb].
  - intros _. rewrite (scan_prev versionPattern prev None s eq_refl).
    reflexivity.
  - intros H. apply andb_prop in H as [Hc H]. apply negb_true_iff in Hc.
    rewrite (scan_free versionPattern prev _ eq_refl), matchHere_version,
            keyed_cons, Ascii.eqb_sym, Hc.
    cbn [option_map]. specialize (IH (Some c) H).
    destruct (scan versionPattern (Some c) (pre ++ s)) as [m|];
      cbn [option_map shiftResult group1]; exact IH.
Qed.

(** X7: readPythonVersion finds the version in every form the pattern
    allows: any white space around the equals sign, a single or a double
    quote on either side, also one of each, and any text without an
    underscore before the constant. *)
Theorem X7_version_forms (w : world) (file : path)
    (pre ws1 ws2 v rest : string) (q1 q2 : ascii) :
  Str.forallb (fun c => negb (Ascii.eqb c "_")) pre = true ->
  Str.forallb isWhiteSpace ws1 = true ->
  Str.forallb isWhiteSpace ws2 = true ->
  isQuote q1 = true -> isQuote q2 = true ->
  Str.forallb notQuote v = true -> Str.isEmpty v = false ->
  readFileSync w file = Some (pre ++ assigned ws1 ws2 q1 q2 v ++ rest) ->
  result (readPythonVersion file w) = Returned (Some v).
Proof.
  intros Hpre H1 H2 Hq1 Hq2 Hv Hne Hread.
  rewrite readPythonVersion_run. cbn [result fst].
  unfold Spec.currentVersion. rewrite Hread, (versionIn_skip pre _ Hpre).
  f_equal. unfold versionIn, exec.
  rewrite (scan_free versionPattern None _ eq_refl), matchHere_version,
          (keyed_assigned ws1 ws2 v rest q1 q2 H1 H2 Hq1 Hq2 Hv Hne).
  reflexivity.
Qed.

Lemma X7_witness :
  let text := "# bot" ++ String newline
              ("__version__=  '0.1.0" ++ String dquote " # mixed quotes") in
  result (readPythonVersion "x.py"
            {| nodeAt := fun _ => File text; writable := fun _ => true;
               nodeRuns := true |})
  = Returned (Some "0.1.0").
Proof.
  intros text.
  apply (X7_version_forms _ "x.py" ("# bot" ++ String newline EmptyString)
           EmptyString "  " "0.1.0" " # mixed quotes" "'" dquote);
    reflexivity.
Defined.

Lemma keyed_quotefree (key s v rest : string) :
  keyed key s = Some (v, rest) -> Str.forallb notQuote v = true.
Proof.
  unfold keyed. destruct (stripLit false key s) as [s1|]; [|discriminate].
  unfold afterKey. destruct (Str.dropWhile isWhiteSpace s1) as [|e s2];
    [discriminate|].
  destruct (Ascii.eqb e "="); [|discriminate].
  unfold opening. destruct (Str.dropWhile isWhiteSpace s2) as [|q s3];
    [discriminate|].
  destruct (isQuote q); [|discriminate].
  unfold quotedText. destruct s3 as [|c s4]; [discriminate|].
  destruct (notQuote c) eqn:Hc; [|discriminate].
  unfold run. destruct (Str.dropWhile notQuote s4); [discriminate|].
  cbn [option_map fst snd]. intros [= <- _]. cbn [Str.forallb].
  rewrite Hc, takeWhile_forallb. reflexivity.
Qed.

Lemma versionIn_keyed (content v : string) :
  versionIn content = Some v ->
  exists sfx rest, keyed "__version__" sfx = Some (v, rest).
Proof.
  unfold versionIn, exec.
  destruct (scan versionPattern None content) as [m|] eqn:E; [|discriminate].
  destruct (scan_found versionPattern _ _ _ eq_refl E) as (sfx & _ & Hm).
  rewrite matchHere_version in Hm. intros Hg. rewrite Hg in Hm.
  destruct (keyed "__version__" sfx) as [[v' rest]|] eqn:K; [|discriminate].
  cbn [option_map fst snd] in Hm. injection Hm as _ <-. eauto.
Qed.

(** X8: a version that readPythonVersion returns is never the empty text
    and holds no quote: the only falsy result is null. *)
Theorem X8_version_read_is_sound (w : world) (file : path) (v : string) :
  result (readPythonVersion file w) = Returned (Some v) ->
  Str.isEmpty v = false /\ Str.forallb notQuote v = true /\
  falsy (Some v) = false.
Proof.
  rewrite readPythonVersion_run. cbn [result fst]. intros [= H].
  pose proof (currentVersion_truthy w file v H) as Ht.
  unfold Spec.currentVersion in H.
  destruct (readFileSync w file) as [content|]; [|discriminate].
  destruct (versionIn_keyed content v H) as (sfx & rest & K).
  split; [exact Ht|]. split; [|exact Ht].
  apply (keyed_quotefree _ _ _ _ K).
Qed.

Lemma X8_witness :
  result (readPythonVersion botInit Example.repo) = Returned (Some "2.0.0") /\
  Str.forallb notQuote "2.0.0" = true.
Proof.
  assert (H : result (readPythonVersion botInit Example.repo)
              = Returned (Some "2.0.0")) by reflexivity.
  split; [exact H|].
  exact (proj1 (proj2 (X8_version_read_is_sound Example.repo botInit
                         "2.0.0" H))).
Defined.

(** ** Where a pattern is found *)

Lemma length_app (a b : string) : length (a ++ b) = length a + length b.
Proof. induction a as [|c a IH]; cbn [append length]; lia. Qed.

Lemma app_inv_length (a b c d : string) :
  a ++ b = c ++ d -> length a = length c -> a = c /\ b = d.
Proof.
  revert c. induction a as [|x a IH]; intros [|y c]; cbn [append length];
    try discriminate.
  - auto.
  - intros [= -> H] [= L]. destruct (IH _ H L) as [-> ->]. auto.
Qed.


(** No place before the match that [scan] returns would do. *)
Lemma scan_leftmost (p : pattern) (prev : option ascii) (s : string)
    (m : matchResult) (pre sfx : string) :
  scan p prev s = Some m -> s = pre ++ sfx ->
  length pre < length (before m) ->
  mayStart p (lastOf prev pre) = true -> matchHere p sfx = None.
Proof.
  revert prev m pre. induction s as [|c s IH]; intros prev m pre; cbn [scan].
  - destruct (if mayStart p prev then matchHere p EmptyString else None)
      as [[rest cap]|]; [|discriminate].
    intros [= <-]. cbn [before length]. lia.
  - destruct (if mayStart p prev then matchHere p (String c s) else None)
      as [[rest cap]|] eqn:E.
    + intros [= <-]. cbn [before length]. lia.
    + destruct (scan p (Some c) s) as [m'|] eqn:E'; [|discriminate].
      cbn [option_map]. intros [= <-]. cbn [shiftResult before length].
      destruct pre as [|d pre]; cbn [append lastOf length].
      * intros <- _ Hs. rewrite Hs in E. exact E.
      * intros [= <- ->] Hl Hs. apply (IH (Some c) m' pre); auto. lia.
Qed.


(** The two patterns of the version constant find the same assignment. *)
Lemma scan_assign_version (s : string) (prev prev' : option ascii)
    (m : matchResult) :
  scan versionAssignPattern prev s = Some m ->
  exists v, scan versionPattern prev' s =
            Some {| before := before m; matched := matched m;
                    after := after m; group1 := Some v |}.
Proof.
  revert prev prev' m. induction s as [|c s IH]; intros prev prev' m;
    rewrite (scan_free versionAssignPattern prev _ eq_refl),
            (scan_free versionPattern prev' _ eq_refl),
            matchHere_assign, matchHere_version;
    destruct (keyed "__version__" _) as [[v rest]|]; cbn [option_map fst snd];
    try discriminate.
  - intros [= <-]. exists v. reflexivity.
  - intros [= <-]. exists v. reflexivity.
  - destruct (scan versionAssignPattern (Some c) s) as [m1|] eqn:E1;
      [|discriminate].
    cbn [option_map]. intros [= <-].
    destruct (IH (Some c) (Some c) m1 E1) as (v & ->).
    exists v. reflexivity.
Qed.


Lemma versionIn_assign (content : string) :
  match exec versionAssignPattern content with
  | Some m =>
      exists v sfx ws1 ws2 q1 q2,
        versionIn content = Some v /\
        content = before m ++ sfx /\
        sfx = assigned ws1 ws2 q1 q2 v ++ after m /\
        Str.forallb isWhiteSpace ws1 = true /\
        Str.forallb isWhiteSpace ws2 = true /\
        isQuote q1 = true /\ isQuote q2 = true /\
        keyed "__version__" sfx = Some (v, after m)
  | None => versionIn content = None
  end.
Proof.
  unfold versionIn, exec.
  destruct (scan versionAssignPattern None content) as [m|] eqn:E.
  - destruct (scan_assign_version content None None m E) as (v & E').
    rewrite E'. cbn [group1].
    destruct (scan_found versionPattern _ _ _ eq_refl E') as (sfx & Hs & Hm).
    cbn [before after group1] in Hs, Hm. rewrite matchHere_version in Hm.
    destruct (keyed "__version__" sfx) as [[v' rest]|] eqn:K; [|discriminate].
    cbn [option_map fst snd] in Hm. injection Hm as -> ->.
    destruct (keyed_split _ _ _ _ K) as (ws1 & ws2 & q1 & q2 & H & H1 & H2 & H3 & H4).
    exists v, sfx, ws1, ws2, q1, q2. auto 10.
  - pose proof (scan_same content None None) as H. rewrite E in H.
    destruct (scan versionPattern None content); [discriminate|reflexivity].
Qed.

(** X9: updatePythonVersion rewrites the assignment that
    readPythonVersion reads, the leftmost one in the text, in whatever
    form it stands, to the form __version__ = [Q]new[Q] with double
    quotes, and keeps the text before and after it as it was. *)
Theorem X9_update_keeps_surroundings (w : world) (file : path)
    (content v newVersion : string) :
  readFileSync w file = Some content ->
  result (readPythonVersion file w) = Returned (Some v) ->
  writable w file = true -> plainText newVersion = true ->
  result (updatePythonVersion file newVersion w) = Returned true /\
  exists pre ws1 ws2 q1 q2 rest,
    content = pre ++ assigned ws1 ws2 q1 q2 v ++ rest /\
    Str.forallb isWhiteSpace ws1 = true /\
    Str.forallb isWhiteSpace ws2 = true /\
    isQuote q1 = true /\ isQuote q2 = true /\
    (forall pre1 sfx1,
       content = pre1 ++ sfx1 -> length pre1 < length pre ->
       matchHere versionAssignPattern sfx1 = None) /\
    matchHere versionAssignPattern (assigned ws1 ws2 q1 q2 v ++ rest)
    = Some (rest, None) /\
    readFileSync (final (updatePythonVersion file newVersion w)) file
    = Some (pre ++ quoted "__version__" newVersion ++ rest).
Proof.
  intros Hread Hcur Hw Hplain.
  rewrite readPythonVersion_run in Hcur. cbn [result fst] in Hcur.
  unfold Spec.currentVersion in Hcur. rewrite Hread in Hcur.
  injection Hcur as Hcur.
  unfold updatePythonVersion. rewrite patchFile_run, Hread, Hw.
  cbn [result final fst snd]. split; [reflexivity|].
  pose proof (versionIn_assign content) as H.
  destruct (exec versionAssignPattern content) as [m|] eqn:E;
    [|congruence].
  destruct H
    as (v' & sfx & ws1 & ws2 & q1 & q2 & Hv & Hc & Hs & H1 & H2 & H3 & H4 & K).
  assert (v' = v) by congruence. subst v'.
  exists (before m), ws1, ws2, q1, q2, (after m).
  split; [congruence|]. do 4 (split; [assumption|]). split; [|split].
  - intros pre1 sfx1 Hc1 Hl.
    apply (scan_leftmost _ _ _ _ _ _ E Hc1 Hl). reflexivity.
  - rewrite matchHere_assign, <- Hs, K. reflexivity.
  - rewrite (read_after_store _ _ _ _ Hread). f_equal.
    apply replace_version; [|exact E].
    apply quoted_plain; [reflexivity|exact Hplain].
Qed.

Lemma X9_witness :
  exists pre ws1 ws2 q1 q2 rest,
    Example.initPy "2.0.0" = pre ++ assigned ws1 ws2 q1 q2 "2.0.0" ++ rest /\
    readFileSync (final (updatePythonVersion botInit "2.1.0" Example.repo))
      botInit
    = Some (pre ++ quoted "__version__" "2.1.0" ++ rest).
Proof.
  destruct (X9_update_keeps_surroundings Example.repo botInit
              (Example.initPy "2.0.0") "2.0.0" "2.1.0"
              eq_refl eq_refl eq_refl eq_refl)
    as (_ & pre & ws1 & ws2 & q1 & q2 & rest & H & _ & _ & _ & _ & _ & _ & H').
  exists pre, ws1, ws2, q1, q2, rest. split; assumption.
Defined.

(** X10: on a file that can be read and written but holds no version
    constant, updatePythonVersion writes the text back as it was and
    still returns true, without a line on the error stream. *)
Theorem X10_update_without_constant (w : world) (file : path)
    (content newVersion : string) :
  readFileSync w file = Some content ->
  result (readPythonVersion file w) = Returned None ->
  writable w file = true ->
  result (updatePythonVersion file newVersion w) = Returned true /\
  readFileSync (final (updatePythonVersion file newVersion w)) file
  = Some content /\
  logged (updatePythonVersion file newVersion w) = [].
Proof.
  intros Hread Hcur Hw.
  rewrite readPythonVersion_run in Hcur. cbn [result fst] in Hcur.
  unfold Spec.currentVersion in Hcur. rewrite Hread in Hcur.
  injection Hcur as Hcur.
  unfold updatePythonVersion. rewrite patchFile_run, Hread, Hw.
  cbn [result final logged fst snd]. repeat split.
  rewrite (read_after_store _ _ _ _ Hread). f_equal.
  pose proof (versionIn_assign content) as H. unfold replace.
  destruct (exec versionAssignPattern content) as [m|]; [|reflexivity].
  destruct H as (v & _ & _ & _ & _ & _ & Hv & _). congruence.
Qed.

Lemma X10_witness :
  let w := {| nodeAt := fun _ => File "# no version here";
              writable := fun _ => true; nodeRuns := true |} in
  result (updatePythonVersion "x.py" "1.0.0" w) = Returned true /\
  readFileSync (final (updatePythonVersion "x.py" "1.0.0" w)) "x.py"
  = Some "# no version here".
Proof.
  intros w.
  destruct (X10_update_without_constant w "x.py" "# no version here" "1.0.0"
              eq_refl eq_refl eq_refl) as (H1 & H2 & _).
  split; assumption.
Defined.

Lemma substitute_app (m : matchResult) (t u : string) :
  plainText t = true -> substitute m (t ++ u) = t ++ substitute m u.
Proof.
  unfold plainText.
  induction t as [|c t IH]; cbn [Str.forallb append]; [reflexivity|].
  intros H. apply andb_prop in H as [Hc Ht]. apply negb_true_iff in Hc.
  cbn [substitute]. rewrite Hc, (IH Ht). reflexivity.
Qed.

(** X11: the new version is handed to String.prototype.replace as a
    replacement pattern, not as a text: two dollar signs in it are written
    as one, so that the version read back is not the version written. *)
Theorem X11_dollars_collapse (w : world) (file : path) (v a b : string) :
  result (readPythonVersion file w) = Returned (Some v) ->
  writable w file = true ->
  plainText a = true -> plainText b = true ->
  Str.forallb notQuote a = true -> Str.forallb notQuote b = true ->
  result (updatePythonVersion file (a ++ "$$" ++ b) w) = Returned true /\
  result (readPythonVersion file
            (final (updatePythonVersion file (a ++ "$$" ++ b) w)))
  = Returned (Some (a ++ "$" ++ b)).
Proof.
  intros Hcur Hw Ha Hb Hqa Hqb.
  rewrite readPythonVersion_run in Hcur. cbn [result fst] in Hcur.
  injection Hcur as Hcur. unfold Spec.currentVersion in Hcur.
  destruct (readFileSync w file) as [content|] eqn:Hread; [|discriminate].
  unfold updatePythonVersion. rewrite patchFile_run, Hread, Hw.
  cbn [result final fst snd]. split; [reflexivity|].
  rewrite readPythonVersion_run. cbn [result fst]. f_equal.
  unfold Spec.currentVersion. rewrite (read_after_store _ _ _ _ Hread).
  pose proof (versionIn_assign content) as H. unfold replace.
  destruct (exec versionAssignPattern content) as [m|] eqn:E;
    [|congruence].
  clear H.
  assert (Hs : substitute m (quoted "__version__" (a ++ "$$" ++ b))
               = quoted "__version__" (a ++ "$" ++ b)).
  { unfold quoted.
    change ("__version__" ++ " = " ++ String dquote (a ++ "$$" ++ b) ++
            String dquote EmptyString)
      with (("__version__ = " ++ String dquote EmptyString) ++
            (a ++ "$$" ++ b) ++ String dquote EmptyString).
    rewrite (substitute_app m ("__version__ = " ++ String dquote EmptyString)
               _ eq_refl), (append_assoc a),
            (substitute_app m a _ Ha).
    cbn [append substitute]. change (Ascii.eqb "$" "$") with true. cbv iota.
    rewrite (substitute_app m b _ Hb). cbn [substitute].
    change (Ascii.eqb dquote "$") with false. cbv iota. cbn [substitute].
    rewrite !append_assoc. reflexivity. }
  rewrite Hs. unfold versionIn, exec.
  destruct (scan_written (a ++ "$" ++ b) content None None m) as (m' & -> & Hg).
  - rewrite !forallb_app, Hqa, Hqb. reflexivity.
  - destruct a; reflexivity.
  - exact E.
  - exact Hg.
Qed.

Lemma X11_witness :
  result (readPythonVersion botInit
            (final (updatePythonVersion botInit "1.0$$rc" Example.repo)))
  = Returned (Some "1.0$rc").
Proof.
  exact (proj2 (X11_dollars_collapse Example.repo botInit "2.0.0" "1.0" "rc"
                  eq_refl eq_refl eq_refl eq_refl eq_refl eq_refl)).
Defined.



(** X13: updatePythonVersion never throws.  It returns false exactly when
    the file cannot be read or cannot be written; nothing is written
    then, and one line goes to the error stream.  Whatever happens, no
    other path is touched. *)
Theorem X13_update_failure (w : world) (file : path) (newVersion : string) :
  (exists ok, result (updatePythonVersion file newVersion w) = Returned ok) /\
  (result (updatePythonVersion file newVersion w) = Returned false <->
   readFileSync w file = None \/ writable w file = false) /\
  (result (updatePythonVersion file newVersion w) = Returned false ->
   final (updatePythonVersion file newVersion w) = w /\
   logged (updatePythonVersion file newVersion w)
   = [ConsoleError (UpdateError file)]) /\
  (forall p, p <> file ->
     nodeAt (final (updatePythonVersion file newVersion w)) p = nodeAt w p).
Proof.
  unfold updatePythonVersion. rewrite patchFile_run.
  destruct (readFileSync w file) as [content|];
    [destruct (writable w file)|]; cbn [result final logged fst snd].
  - split; [eauto|]. split; [|split].
    + split; [discriminate|]. intros [H|H]; discriminate.
    + discriminate.
    + intros p Hp. apply store_other, Hp.
  - split; [eauto|]. split; [|split]; auto. split; auto.
  - split; [eauto|]. split; [|split]; auto. split; auto.
Qed.

(** ** The scripts that read and mirror the version *)

Lemma getVersionScript_run (w : world) (app : string) :
  app = "bot" \/ app = "api" ->
  getVersionScript w app =
  match Spec.currentVersion w
          (if String.eqb app "bot" then botInit else apiInit) with
  | Some v => {| status := Some 0%Z; stdout := v ++ String newline EmptyString |}
  | None => {| status := Some 1%Z; stdout := EmptyString |}
  end.
Proof.
  intros Happ. unfold getVersionScript, Spec.currentVersion.
  replace (negb (String.eqb app "bot") && negb (String.eqb app "api"))
    with false by (destruct Happ; subst app; reflexivity).
  destruct (readFileSync w _) as [content|]; [|reflexivity].
  destruct (versionIn content) as [v|] eqn:E; [|reflexivity].
  rewrite (versionIn_nonempty _ _ E). reflexivity.
Qed.

Lemma getVersionScript_none (w : world) (app : string) :
  Spec.currentVersion w (if String.eqb app "bot" then botInit else apiInit)
  = None ->
  getVersionScript w app = {| status := Some 1%Z; stdout := EmptyString |}.
Proof.
  intros H.
  destruct (negb (String.eqb app "bot") && negb (String.eqb app "api"))
    eqn:Happ; [unfold getVersionScript; rewrite Happ; reflexivity|].
  apply andb_false_iff in Happ.
  rewrite !negb_false_iff, !String.eqb_eq in Happ.
  rewrite (getVersionScript_run w app Happ), H. reflexivity.
Qed.

(** X14: get_version.js prints what readPythonVersion of the plugin
    returns for the file of the application, followed by a line feed,
    and exits with 0; when readPythonVersion returns null, or the
    argument is neither bot nor api, it prints nothing on its standard
    output and exits with 1. *)
Theorem X14_get_version_script (w : world) (app : string) :
  let file := if String.eqb app "bot" then botInit else apiInit in
  (forall v,
     app = "bot" \/ app = "api" ->
     result (readPythonVersion file w) = Returned (Some v) ->
     getVersionScript w app =
     {| status := Some 0%Z; stdout := v ++ String newline EmptyString |}) /\
  (result (readPythonVersion file w) = Returned None ->
   getVersionScript w app = {| status := Some 1%Z; stdout := EmptyString |}) /\
  (app <> "bot" -> app <> "api" ->
   getVersionScript w app = {| status := Some 1%Z; stdout := EmptyString |}).
Proof.
  intros file. split; [|split].
  - intros v Happ H. rewrite readPythonVersion_run in H.
    cbn [result fst] in H. injection H as H.
    rewrite (getVersionScript_run w app Happ). fold file. rewrite H.
    reflexivity.
  - intros H. rewrite readPythonVersion_run in H.
    cbn [result fst] in H. injection H as H.
    apply getVersionScript_none, H.
  - intros Hb Ha. unfold getVersionScript.
    apply String.eqb_neq in Hb, Ha. rewrite Hb, Ha. reflexivity.
Qed.

Lemma rev_onto_app (a b acc : string) :
  Str.rev_onto (a ++ b) acc = Str.rev_onto b (Str.rev_onto a acc).
Proof.
  revert acc. induction a as [|c a IH]; intros acc; cbn [append Str.rev_onto];
    [reflexivity|apply IH].
Qed.

Lemma dropWhile_all (p : ascii -> bool) (s : string) :
  Str.forallb p s = true -> Str.dropWhile p s = EmptyString.
Proof.
  intros H. rewrite <- (append_empty s) at 1.
  rewrite (dropWhile_app p s EmptyString H). reflexivity.
Qed.

Lemma dropWhile_snoc (p : ascii -> bool) (s : string) (c : ascii) :
  p c = true ->
  Str.dropWhile p (s ++ String c EmptyString) =
  if Str.forallb p s then EmptyString
  else Str.dropWhile p s ++ String c EmptyString.
Proof.
  intros Hc. induction s as [|d s IH]; cbn [append Str.dropWhile Str.forallb].
  - rewrite Hc. reflexivity.
  - destruct (p d); cbn [andb]; [exact IH|reflexivity].
Qed.

(** The line feed that console.log adds is gone after trim. *)
Lemma trim_newline (v : string) :
  Str.trim (v ++ String newline EmptyString) = Str.trim v.
Proof.
  unfold Str.trim. rewrite (dropWhile_snoc isWhiteSpace v newline eq_refl).
  destruct (Str.forallb isWhiteSpace v) eqn:E.
  - rewrite (dropWhile_all _ _ E). reflexivity.
  - unfold Str.rev at 2. rewrite rev_onto_app. cbn [Str.rev_onto].
    change (Str.rev_onto (Str.dropWhile isWhiteSpace v) EmptyString)
      with (Str.rev (Str.dropWhile isWhiteSpace v)).
    unfold Str.rev.
    cbn [Str.rev_onto]. reflexivity.
Qed.

Lemma canonical_solid (v : string) :
  Spec.canonical v = true ->
  Str.forallb (fun c => negb (isWhiteSpace c)) v = true.
Proof.
  intros Hv.
  assert (H : Str.forallb (fun c => isDigit c || Ascii.eqb c ".") v = true).
  { apply (forallb_split _ "."); [reflexivity|].
    unfold Spec.canonical in Hv.
    destruct (Str.split "." v) as [|a [|b [|c [|? ?]]]]; try discriminate.
    repeat (apply andb_prop in Hv; destruct Hv as [Hv ?]).
    repeat constructor;
      (eapply forallb_impl; [|eassumption]); intros x ->; reflexivity. }
  eapply forallb_impl; [|exact H]. intros c Hc.
  apply orb_prop in Hc as [Hc|Hc].
  - destruct (digit_char c Hc) as (-> & _). reflexivity.
  - apply Ascii.eqb_eq in Hc. subst c. reflexivity.
Qed.

Lemma trim_solid (v : string) :
  Str.forallb (fun c => negb (isWhiteSpace c)) v = true -> Str.trim v = v.
Proof.
  intros Hs. unfold Str.trim.
  assert (Hd : forall c, negb (isWhiteSpace c) = true -> isWhiteSpace c = false)
    by (intros c Hc; apply negb_true_iff, Hc).
  rewrite (dropWhile_none _ _ v Hd Hs).
  rewrite (dropWhile_none _ _ (Str.rev v) Hd).
  - apply rev_rev.
  - unfold Str.rev. rewrite forallb_rev_onto, Hs. reflexivity.
Qed.

Lemma utf8Length_app (a b : string) :
  utf8Length (a ++ b) = (utf8Length a + utf8Length b)%N.
Proof.
  induction a as [|c a IH]; cbn [append utf8Length]; [reflexivity|].
  rewrite IH. apply N.add_assoc.
Qed.

(** The output of a run that prints [v] passes the limit exactly when
    [v] does not fit. *)
Lemma printed_over (v : string) :
  (maxBuffer <? utf8Length (v ++ String newline EmptyString))%N
  = negb (fits v).
Proof.
  unfold fits. rewrite utf8Length_app.
  change (utf8Length (String newline EmptyString)) with 1%N.
  destruct (N.ltb_spec (utf8Length v) maxBuffer) as [H|H];
    [apply N.ltb_ge|apply N.ltb_lt]; lia.
Qed.

Lemma spawnGetVersion_run (w : world) (app : string) :
  app = "bot" \/ app = "api" -> nodeRuns w = true ->
  spawnGetVersion w app =
  match Spec.currentVersion w
          (if String.eqb app "bot" then botInit else apiInit) with
  | Some v =>
      if fits v
      then {| status := Some 0%Z; stdout := v ++ String newline EmptyString |}
      else killed
  | None => {| status := Some 1%Z; stdout := EmptyString |}
  end.
Proof.
  intros Happ Hn. unfold spawnGetVersion. rewrite Hn.
  rewrite (getVersionScript_run w app Happ).
  destruct (Spec.currentVersion w _) as [v|]; [|reflexivity].
  cbv zeta. cbn [stdout]. rewrite printed_over.
  destruct (fits v); reflexivity.
Qed.

Lemma guard_known (app : string) :
  app = "bot" \/ app = "api" ->
  negb (String.eqb app "bot") && negb (String.eqb app "api") = false.
Proof. intros [->| ->]; reflexivity. Qed.

(** X15: the process-manager configuration and sync_versions.js report
    the version that readPythonVersion returns for the file of the
    application, trimmed, as long as the version and its line feed are
    within the buffer of spawnSync; a version of the shape \d+\.\d+\.\d+
    is then reported as it stands.  A longer version is not reported:
    the configuration says unknown and sync_versions.js gets null. *)
Theorem X15_reported_version (w : world) (app v : string) :
  app = "bot" \/ app = "api" -> nodeRuns w = true ->
  result (readPythonVersion
            (if String.eqb app "bot" then botInit else apiInit) w)
  = Returned (Some v) ->
  ((utf8Length v <? maxBuffer)%N = true ->
   Launch.getVersion w app = Launch.orUnknown (Str.trim v) /\
   getVersion w app = Some (Str.trim v) /\
   (Spec.canonical v = true -> Launch.getVersion w app = v)) /\
  ((utf8Length v <? maxBuffer)%N = false ->
   Launch.getVersion w app = "unknown" /\ getVersion w app = None).
Proof.
  intros Happ Hn H. rewrite readPythonVersion_run in H.
  cbn [result fst] in H. injection H as H.
  unfold Launch.getVersion, Launch.reported, getVersion.
  rewrite (guard_known app Happ), (spawnGetVersion_run w app Happ Hn), H.
  unfold fits. split; intros ->.
  - cbn [status stdout]. rewrite trim_newline.
    split; [reflexivity|]. split; [reflexivity|].
    intros Hv. rewrite (trim_solid v (canonical_solid v Hv)).
    unfold Launch.orUnknown. destruct v; [discriminate|reflexivity].
  - split; reflexivity.
Qed.

Lemma X15_witness :
  Launch.getVersion Example.repo "api" = "1.5.2" /\
  getVersion Example.repo "api" = Some "1.5.2".
Proof.
  destruct (X15_reported_version Example.repo "api" "1.5.2"
              (or_intror eq_refl) eq_refl eq_refl) as (H & _).
  destruct (H eq_refl) as (_ & H2 & H3).
  split; [exact (H3 eq_refl)|exact H2].
Defined.





Lemma getVersion_run (w : world) (app : string) :
  app = "bot" \/ app = "api" ->
  getVersion w app =
  option_map Str.trim
    (handed w (if String.eqb app "bot" then botInit else apiInit)).
Proof.
  intros Happ. unfold getVersion, handed.
  destruct (nodeRuns w) eqn:Hn; [|unfold spawnGetVersion; rewrite Hn;
                                   reflexivity].
  rewrite (spawnGetVersion_run w app Happ Hn).
  destruct (Spec.currentVersion w _) as [v|]; [|reflexivity].
  destruct (fits v); [|reflexivity].
  cbn [status stdout option_map]. rewrite trim_newline. reflexivity.
Qed.

(** sync_versions.js, by what it is handed and what it may write *)
Lemma syncVersionsScript_run (w : world) :
  syncVersionsScript w =
  match handed w botInit, handed w apiInit with
  | Some bv, Some av =>
      if Str.isEmpty (Str.trim bv) || Str.isEmpty (Str.trim av) then (1%Z, w)
      else
        let w1 := if writable w botManifest
                  then store botManifest
                         (manifestText "nightscout-backup-bot" (Str.trim bv)) w
                  else w in
        let w2 := if writable w apiManifest
                  then store apiManifest
                         (manifestText "nightscout-backup-api" (Str.trim av)) w1
                  else w1 in
        (if writable w botManifest && writable w apiManifest
         then 0%Z else 1%Z, w2)
  | _, _ => (1%Z, w)
  end.
Proof.
  unfold syncVersionsScript.
  rewrite (getVersion_run w "bot" (or_introl eq_refl)),
          (getVersion_run w "api" (or_intror eq_refl)).
  change (if String.eqb "bot" "bot" then botInit else apiInit) with botInit.
  change (if String.eqb "api" "bot" then botInit else apiInit) with apiInit.
  destruct (handed w botInit) as [bv|]; [|reflexivity].
  destruct (handed w apiInit) as [av|]; [|reflexivity].
  cbn [option_map].
  destruct (Str.isEmpty (Str.trim bv) || Str.isEmpty (Str.trim av));
    [reflexivity|].
  unfold updatePackageJson, writeFileSync.
  destruct (writable w botManifest) eqn:Hb; cbn [store writable];
    destruct (writable w apiManifest) eqn:Ha; reflexivity.
Qed.

Lemma read_current (w : world) (file : path) (x : option string) :
  result (readPythonVersion file w) = Returned x <->
  Spec.currentVersion w file = x.
Proof.
  rewrite readPythonVersion_run. cbn [result fst].
  split; [intros [= H]; exact H|intros ->; reflexivity].
Qed.

Lemma handed_some (w : world) (file : path) (v : string) :
  handed w file = Some v <->
  nodeRuns w = true /\ Spec.currentVersion w file = Some v /\ fits v = true.
Proof.
  unfold handed. destruct (nodeRuns w).
  - destruct (Spec.currentVersion w file) as [v'|].
    + destruct (fits v') eqn:F.
      * split; [intros [= ->]; auto|intros (_ & [= ->] & _); reflexivity].
      * split; [discriminate|]. intros (_ & [= ->] & F'). congruence.
    + split; [discriminate|]. intros (_ & H & _). discriminate.
  - split; [discriminate|]. intros (H & _). discriminate.
Qed.

(** X17: sync_versions.js exits with 0 or with 1.  It exits with 0
    exactly when node can be started, readPythonVersion returns for both
    version files a version that fits into the buffer of spawnSync and
    is not blank, and both wrapper manifests can be written.  When
    readPythonVersion returns null for a file the script writes
    nothing. *)
Theorem X17_sync_exit_status (w : world) :
  (fst (syncVersionsScript w) = 0 \/ fst (syncVersionsScript w) = 1)%Z /\
  (fst (syncVersionsScript w) = 0%Z <->
   nodeRuns w = true /\
   (exists bv av,
      result (readPythonVersion botInit w) = Returned (Some bv) /\
      result (readPythonVersion apiInit w) = Returned (Some av) /\
      (utf8Length bv <? maxBuffer)%N = true /\
      (utf8Length av <? maxBuffer)%N = true /\
      Str.isEmpty (Str.trim bv) = false /\
      Str.isEmpty (Str.trim av) = false) /\
   writable w botManifest = true /\ writable w apiManifest = true) /\
  (result (readPythonVersion botInit w) = Returned None \/
   result (readPythonVersion apiInit w) = Returned None ->
   snd (syncVersionsScript w) = w).
Proof.
  rewrite syncVersionsScript_run. setoid_rewrite read_current.
  destruct (handed w botInit) as [bv|] eqn:Hb.
  2:{ cbn [fst snd]. split; [auto|]. split; [|reflexivity].
      split; [discriminate|].
      intros (Hn & (bv & av & H1 & _ & F1 & _) & _).
      assert (X : handed w botInit = Some bv)
        by (apply handed_some; auto).
      congruence. }
  destruct (handed w apiInit) as [av|] eqn:Ha.
  2:{ cbn [fst snd]. split; [auto|]. split; [|reflexivity].
      split; [discriminate|].
      intros (Hn & (bv' & av & _ & H2 & _ & F2 & _) & _).
      assert (X : handed w apiInit = Some av)
        by (apply handed_some; auto).
      congruence. }
  apply handed_some in Hb as (Hn & Hb & Fb).
  apply handed_some in Ha as (_ & Ha & Fa).
  assert (Hnone : Spec.currentVersion w botInit = None \/
                  Spec.currentVersion w apiInit = None -> False)
    by (intros [H|H]; congruence).
  destruct (Str.isEmpty (Str.trim bv)) eqn:Eb.
  { cbn [orb fst snd]. split; [auto|]. split; [|reflexivity].
    split; [discriminate|].
    intros (_ & (bv' & av' & H1 & _ & _ & _ & H & _) & _). congruence. }
  destruct (Str.isEmpty (Str.trim av)) eqn:Ea.
  { cbn [orb fst snd]. split; [auto|]. split; [|reflexivity].
    split; [discriminate|].
    intros (_ & (bv' & av' & _ & H2 & _ & _ & _ & H) & _). congruence. }
  cbn [orb fst snd]. cbv zeta.
  destruct (writable w botManifest), (writable w apiManifest);
    cbn [andb fst snd]; (split; [auto|]);
    (split; [|intros H; destruct (Hnone H)]).
  - split; [|reflexivity]. intros _. repeat split; try assumption.
    exists bv, av. auto 10.
  - split; [discriminate|]. intros (_ & _ & _ & H). discriminate.
  - split; [discriminate|]. intros (_ & _ & H & _). discriminate.
  - split; [discriminate|]. intros (_ & _ & H & _). discriminate.
Qed.

(** X18: when both versions can be read, fit into the buffer of
    spawnSync and are not blank, sync_versions.js writes each wrapper
    manifest that can be written, whatever happens to the other: the
    manifest then holds the name of the package and the trimmed version
    of its component, and a manifest that cannot be written makes the
    script exit with 1 without undoing the other. *)
Theorem X18_sync_manifests (w : world) (bv av : string) :
  nodeRuns w = true ->
  result (readPythonVersion botInit w) = Returned (Some bv) ->
  result (readPythonVersion apiInit w) = Returned (Some av) ->
  (utf8Length bv <? maxBuffer)%N = true ->
  (utf8Length av <? maxBuffer)%N = true ->
  Str.isEmpty (Str.trim bv) = false -> Str.isEmpty (Str.trim av) = false ->
  (writable w botManifest = true -> nodeAt w botManifest <> Unreadable ->
   readFileSync (snd (syncVersionsScript w)) botManifest
   = Some (manifestText "nightscout-backup-bot" (Str.trim bv))) /\
  (writable w apiManifest = true -> nodeAt w apiManifest <> Unreadable ->
   readFileSync (snd (syncVersionsScript w)) apiManifest
   = Some (manifestText "nightscout-backup-api" (Str.trim av))) /\
  fst (syncVersionsScript w)
  = (if writable w botManifest && writable w apiManifest then 0 else 1)%Z.
Proof.
  intros Hn Hb Ha Fb Fa Eb Ea. apply read_current in Hb, Ha.
  rewrite syncVersionsScript_run.
  rewrite (proj2 (handed_some w botInit bv) (conj Hn (conj Hb Fb))),
          (proj2 (handed_some w apiInit av) (conj Hn (conj Ha Fa))), Eb, Ea.
  cbn [orb fst snd]. cbv zeta. split; [|split; [|reflexivity]].
  - intros Hw Hu. rewrite Hw. unfold readFileSync.
    destruct (writable w apiManifest).
    + rewrite store_other by discriminate.
      unfold store. cbn [nodeAt]. rewrite String.eqb_refl.
      destruct (nodeAt w botManifest); [reflexivity|congruence|reflexivity].
    + unfold store. cbn [nodeAt]. rewrite String.eqb_refl.
      destruct (nodeAt w botManifest); [reflexivity|congruence|reflexivity].
  - intros Hw Hu. rewrite Hw. unfold readFileSync.
    unfold store at 1. cbn [nodeAt]. rewrite String.eqb_refl.
    destruct (writable w botManifest).
    + rewrite store_other by discriminate.
      destruct (nodeAt w apiManifest); [reflexivity|congruence|reflexivity].
    + destruct (nodeAt w apiManifest); [reflexivity|congruence|reflexivity].
Qed.

Lemma X18_witness :
  readFileSync (snd (syncVersionsScript Example.sealed)) apiManifest
  = Some (manifestText "nightscout-backup-api" "1.5.2") /\
  fst (syncVersionsScript Example.sealed) = 1%Z.
Proof.
  destruct (X18_sync_manifests Example.sealed "2.0.0" "1.5.2"
              eq_refl eq_refl eq_refl eq_refl eq_refl eq_refl eq_refl)
    as (_ & H2 & H3).
  split; [|exact H3].
  apply H2; [reflexivity|discriminate].
Defined.

Lemma syncVersionsScript_nodeRuns (w : world) :
  nodeRuns (snd (syncVersionsScript w)) = nodeRuns w.
Proof.
  rewrite syncVersionsScript_run.
  destruct (handed w botInit); [|reflexivity].
  destruct (handed w apiInit); [|reflexivity].
  destruct (_ || _); [reflexivity|]. cbv zeta. cbn [snd].
  destruct (writable w botManifest), (writable w apiManifest); reflexivity.
Qed.

Lemma currentVersion_ext (w w' : world) (file : path) :
  nodeAt w' file = nodeAt w file ->
  Spec.currentVersion w' file = Spec.currentVersion w file.
Proof.
  intros H. unfold Spec.currentVersion, readFileSync. rewrite H. reflexivity.
Qed.

(** X19: the sync that start-api.js runs before it reads the version
    changes neither the version it then reports nor any file but the two
    wrapper manifests. *)
Theorem X19_silent_sync (w : world) :
  snd (Launch.startApi w) = Launch.getApiVersion w /\
  forall p, p <> botManifest -> p <> apiManifest ->
            nodeAt (fst (Launch.startApi w)) p = nodeAt w p.
Proof.
  unfold Launch.startApi. cbn [fst snd].
  destruct (nodeRuns w) eqn:Hn; [|split; reflexivity]. split.
  - unfold Launch.getApiVersion.
    rewrite !(spawnGetVersion_run _ "api" (or_intror eq_refl))
      by (rewrite ?syncVersionsScript_nodeRuns; exact Hn).
    rewrite (currentVersion_ext w (snd (syncVersionsScript w))); [reflexivity|].
    apply syncVersionsScript_frame; discriminate.
  - intros p Hb Ha. apply syncVersionsScript_frame; assumption.
Qed.

(** ** The release, from the version files to the manifests *)

Lemma updateFiles_bot_fails (cfg : pluginConfig) (d : decision)
    (bv av : string) (w : world) :
  bumpBot d = true ->
  readFileSync w (botVersionFile cfg) = None \/
  writable w (botVersionFile cfg) = false ->
  updateFiles cfg d bv av w =
  (Thrown ("Failed to update bot version in " ++ botVersionFile cfg), w,
   [ConsoleError (UpdateError (botVersionFile cfg))]).
Proof.
  intros Hd H. unfold updateFiles. rewrite Hd. cbn [when].
  unfold bind at 1. unfold bind at 1. unfold updatePythonVersion.
  rewrite patchFile_run.
  destruct (readFileSync w (botVersionFile cfg)) as [content|].
  - destruct H as [H|H]; [discriminate|]. rewrite H. reflexivity.
  - reflexivity.
Qed.

Lemma header_plain (d : decision) (cb ca bv av : string) :
  ~ In (Log SyncingWrappers) (Spec.header d cb ca bv av).
Proof.
  unfold Spec.header. destruct (bumpBot d), (bumpApi d); cbn [app In];
    intros H; repeat destruct H as [H|H]; try discriminate; exact H.
Qed.

(** X20: when the bot is to be bumped and its version file cannot be
    written, prepare throws the error that names the file, after
    updatePythonVersion has reported on the error stream; nothing has been
    written, and the sync of the wrapper manifests has not been started. *)
Theorem X20_bot_write_failure (cfg : pluginConfig) (ctx : context)
    (w : world) (cb ca : string) :
  result (readPythonVersion (botVersionFile cfg) w) = Returned (Some cb) ->
  result (readPythonVersion (apiVersionFile cfg) w) = Returned (Some ca) ->
  bumpBot (analyzeCommits (commits ctx)) = true ->
  writable w (botVersionFile cfg) = false ->
  result (prepare cfg ctx w) =
    Thrown ("Failed to update bot version in " ++ botVersionFile cfg) /\
  final (prepare cfg ctx w) = w /\
  In (ConsoleError (UpdateError (botVersionFile cfg)))
     (logged (prepare cfg ctx w)) /\
  ~ In (Log SyncingWrappers) (logged (prepare cfg ctx w)).
Proof.
  intros Hb Ha Hd Hw. apply read_current in Hb, Ha.
  rewrite prepare_run, Hb, Ha. cbv zeta.
  rewrite (updateFiles_bot_fails cfg _ _ _ w Hd (or_intror Hw)).
  cbn [result final logged fst snd]. repeat split.
  - apply in_or_app. right. left. reflexivity.
  - intros H. apply in_app_or in H as [H|H].
    + exact (header_plain _ _ _ _ _ H).
    + destruct H as [H|[]]. discriminate.
Qed.

Lemma X20_witness :
  let w := {| nodeAt := Example.tree "2.0.0" "1.5.2";
              writable := fun p => negb (String.eqb p botInit);
              nodeRuns := true |} in
  result (prepare Example.config (Example.botFeature "minor") w) =
    Thrown ("Failed to update bot version in " ++ botInit) /\
  final (prepare Example.config (Example.botFeature "minor") w) = w.
Proof.
  intros w.
  destruct (X20_bot_write_failure Example.config (Example.botFeature "minor")
              w "2.0.0" "1.5.2" eq_refl eq_refl eq_refl eq_refl)
    as (H1 & H2 & _).
  split; assumption.
Defined.

Lemma updateFiles_errors (cfg : pluginConfig) (d : decision)
    (bv av : string) (w : world) :
  post (updateFiles cfg d bv av w) (fun r _ =>
    r = Returned tt \/
    r = Thrown ("Failed to update bot version in " ++ botVersionFile cfg) \/
    r = Thrown "Failed to update pyproject.toml" \/
    r = Thrown ("Failed to update API version in " ++ apiVersionFile cfg)).
Proof.
  unfold updateFiles. repeat wp_step; auto.
Qed.

(** X21: prepare returns, or throws one of four errors: the versions
    could not be read, the bot file, pyproject.toml or the API file
    could not be updated.  A failed sync of the wrapper manifests is
    never an error. *)
Theorem X21_errors_of_prepare (cfg : pluginConfig) (ctx : context)
    (w : world) :
  (exists r, result (prepare cfg ctx w) = Returned r) \/
  result (prepare cfg ctx w) =
    Thrown "Could not read current versions from Python files" \/
  result (prepare cfg ctx w) =
    Thrown ("Failed to update bot version in " ++ botVersionFile cfg) \/
  result (prepare cfg ctx w) = Thrown "Failed to update pyproject.toml" \/
  result (prepare cfg ctx w) =
    Thrown ("Failed to update API version in " ++ apiVersionFile cfg).
Proof.
  rewrite prepare_run.
  destruct (Spec.currentVersion w (botVersionFile cfg)) as [cb|]; [|auto].
  destruct (Spec.currentVersion w (apiVersionFile cfg)) as [ca|]; [|auto].
  cbv zeta.
  set (d := analyzeCommits (commits ctx)).
  set (bv := fst (nextVersions d (releaseType ctx) cb ca)).
  set (av := snd (nextVersions d (releaseType ctx) cb ca)).
  pose proof (updateFiles_errors cfg d bv av w) as Hu. unfold post in Hu.
  destruct (updateFiles cfg d bv av w) as [[[[]|e] w1] l1];
    cbn [result fst] in Hu |- *.
  - rewrite sync_run. destruct (nodeRuns w1); cbn [result fst]; eauto.
  - destruct Hu as [Hu|[Hu|[Hu|Hu]]]; [discriminate|..];
      injection Hu as ->; auto 10.
Qed.

(** X22: a component that the commits do not bump keeps its version:
    prepare returns the version it read for it, and leaves its version
    file as it was. *)
Theorem X22_unbumped_component_is_kept (cfg : pluginConfig) (ctx : context)
    (w : world) (r : release) (cb ca : string) :
  result (readPythonVersion (botVersionFile cfg) w) = Returned (Some cb) ->
  result (readPythonVersion (apiVersionFile cfg) w) = Returned (Some ca) ->
  result (prepare cfg ctx w) = Returned r ->
  let d := analyzeCommits (commits ctx) in
  (bumpApi d = false ->
   apiVersion r = ca /\
   (apiVersionFile cfg <> botVersionFile cfg ->
    pyprojectFile cfg <> Some (apiVersionFile cfg) ->
    apiVersionFile cfg <> botManifest -> apiVersionFile cfg <> apiManifest ->
    nodeAt (final (prepare cfg ctx w)) (apiVersionFile cfg)
    = nodeAt w (apiVersionFile cfg))) /\
  (bumpBot d = false ->
   botVersion r = cb /\ version r = cb /\
   (botVersionFile cfg <> apiVersionFile cfg ->
    botVersionFile cfg <> botManifest -> botVersionFile cfg <> apiManifest ->
    nodeAt (final (prepare cfg ctx w)) (botVersionFile cfg)
    = nodeAt w (botVersionFile cfg))).
Proof.
  intros Hb Ha Hr d. apply read_current in Hb, Ha.
  assert (Hv : (bumpBot d = false -> botVersion r = cb /\ version r = cb) /\
               (bumpApi d = false -> apiVersion r = ca)).
  { subst d. revert Hr. rewrite prepare_run, Hb, Ha. cbv zeta.
    generalize (analyzeCommits (commits ctx)). intros d.
    destruct (updateFiles cfg _ _ _ w) as [[[[]|e] w1] l1]; [|discriminate].
    destruct (syncWrapperVersions _ _ w1) as [[[synced|e] w2] l2];
      [|discriminate].
    cbn [result fst]. intros [= <-]. cbn [botVersion apiVersion version].
    unfold nextVersions. cbn [fst snd].
    split; intros ->; auto. }
  split.
  - intros Hd. split; [apply Hv, Hd|]. intros H1 H2 H3 H4.
    apply prepare_frame; fold d; auto. rewrite Hd. discriminate.
  - intros Hd. split; [|split]; try apply Hv, Hd. intros H1 H2 H3.
    apply prepare_frame; fold d; auto. rewrite Hd. discriminate.
Qed.

Lemma X22_witness :
  let run := prepare Example.config (Example.botFeature "minor") Example.repo in
  nodeAt (final run) apiInit = nodeAt Example.repo apiInit.
Proof.
  intros run.
  destruct (X22_unbumped_component_is_kept Example.config
              (Example.botFeature "minor") Example.repo
              {| botVersion := "2.1.0"; apiVersion := "1.5.2";
                 version := "2.1.0" |} "2.0.0" "1.5.2"
              eq_refl eq_refl eq_refl) as (H & _).
  destruct (H eq_refl) as (_ & H').
  apply H'; discriminate.
Defined.

Lemma read_store_other (file p : path) (content : string) (w : world) :
  p <> file -> readFileSync (store file content w) p = readFileSync w p.
Proof.
  intros H. unfold readFileSync. rewrite (store_other _ _ _ _ H). reflexivity.
Qed.

Lemma updateFiles_api_fails (cfg : pluginConfig) (d : decision)
    (bv av content : string) (w : world) :
  bumpBot d = true -> bumpApi d = true ->
  readFileSync w (botVersionFile cfg) = Some content ->
  writable w (botVersionFile cfg) = true ->
  (forall py, pyprojectFile cfg = Some py ->
              writable w py = true /\ nodeAt w py <> Unreadable) ->
  pyprojectFile cfg <> Some (botVersionFile cfg) ->
  writable w (apiVersionFile cfg) = false ->
  post (updateFiles cfg d bv av w) (fun r w1 =>
    r = Thrown ("Failed to update API version in " ++ apiVersionFile cfg) /\
    readFileSync w1 (botVersionFile cfg)
    = Some (replace versionAssignPattern (quoted "__version__" bv) content) /\
    nodeAt w1 (apiVersionFile cfg) = nodeAt w (apiVersionFile cfg)).
Proof.
  intros Hb Ha Hread Hw Hpy Hne Hwa. unfold updateFiles. rewrite Hb, Ha.
  cbn [when].
  repeat wp_step; cbn [negb] in *.
  all: first
    [ solve [ injection Hread as <-;
              repeat match goal with
                     | H : forall py, Some ?p = Some py -> _ |- _ =>
                         specialize (H p eq_refl); destruct H
                     end;
              split; [reflexivity|]; split;
              [ rewrite ?read_store_other by congruence;
                eapply read_after_store; eassumption
              | rewrite ?store_other by congruence; reflexivity ] ]
    | refute_update ].
Qed.

Lemma read_written (v content : string) :
  Spec.canonical v = true -> Str.isSome (versionIn content) = true ->
  versionIn (replace versionAssignPattern (quoted "__version__" v) content)
  = Some v.
Proof.
  intros Hv Hcur. destruct (canonical_chars v Hv) as (Hne & Hq & Hd).
  apply versionIn_written; try assumption.
  pose proof (versionIn_assign content) as H.
  destruct (exec versionAssignPattern content); [reflexivity|].
  rewrite H in Hcur. discriminate.
Qed.

(** X23: when both components are bumped and the API file cannot be
    written, prepare throws the error that names the API file after the
    bot file has been rewritten: the bot file then holds the new bot
    version and the API file the old API version. *)
Theorem X23_api_failure_after_bot_write (cfg : pluginConfig) (ctx : context)
    (w : world) (cb ca : string) :
  result (readPythonVersion (botVersionFile cfg) w) = Returned (Some cb) ->
  result (readPythonVersion (apiVersionFile cfg) w) = Returned (Some ca) ->
  bumpBot (analyzeCommits (commits ctx)) = true ->
  bumpApi (analyzeCommits (commits ctx)) = true ->
  writable w (botVersionFile cfg) = true ->
  (forall py, pyprojectFile cfg = Some py ->
              writable w py = true /\ nodeAt w py <> Unreadable) ->
  pyprojectFile cfg <> Some (botVersionFile cfg) ->
  writable w (apiVersionFile cfg) = false ->
  let bv := calculateNextVersion cb (releaseType ctx) in
  result (prepare cfg ctx w) =
    Thrown ("Failed to update API version in " ++ apiVersionFile cfg) /\
  (Spec.canonical bv = true ->
   result (readPythonVersion (botVersionFile cfg) (final (prepare cfg ctx w)))
   = Returned (Some bv)) /\
  result (readPythonVersion (apiVersionFile cfg) (final (prepare cfg ctx w)))
  = Returned (Some ca).
Proof.
  intros Hb Ha Hdb Hda Hw Hpy Hne Hwa bv. apply read_current in Hb, Ha.
  pose proof Hb as Hcur. unfold Spec.currentVersion in Hcur.
  destruct (readFileSync w (botVersionFile cfg)) as [content|] eqn:Hread;
    [|discriminate].
  rewrite !read_current, prepare_run, Hb, Ha. cbv zeta.
  unfold nextVersions. rewrite Hdb, Hda. cbn [fst snd]. fold bv.
  pose proof (updateFiles_api_fails cfg (analyzeCommits (commits ctx)) bv
                (calculateNextVersion ca (releaseType ctx)) content w
                Hdb Hda Hread Hw Hpy Hne Hwa) as Hu.
  unfold post in Hu.
  destruct (updateFiles cfg _ bv _ w) as [[r w1] l1].
  cbn [result final fst snd] in Hu. destruct Hu as (-> & Hbot & Hapi).
  cbn [result final fst snd]. split; [reflexivity|]. split.
  - intros Hv. unfold Spec.currentVersion. rewrite Hbot.
    apply read_written; [exact Hv|]. rewrite Hcur. reflexivity.
  - rewrite (currentVersion_ext w w1 _ Hapi). exact Ha.
Qed.

Lemma X23_witness :
  let w := {| nodeAt := Example.tree "2.0.0" "1.5.2";
              writable := fun p => negb (String.eqb p apiInit);
              nodeRuns := true |} in
  let ctx := {| commits := [{| message := "docs: update readme" |}];
                releaseType := "patch" |} in
  result (prepare Example.config ctx w) =
    Thrown ("Failed to update API version in " ++ apiInit) /\
  result (readPythonVersion botInit (final (prepare Example.config ctx w)))
  = Returned (Some "2.0.1").
Proof.
  intros w ctx.
  destruct (X23_api_failure_after_bot_write Example.config ctx w
              "2.0.0" "1.5.2" eq_refl eq_refl eq_refl eq_refl eq_refl)
    as (H1 & H2 & _).
  - intros py [= <-]. split; [reflexivity|discriminate].
  - discriminate.
  - reflexivity.
  - split; [exact H1|]. exact (H2 eq_refl).
Defined.

Lemma store_keeps (file p : path) (content : string) (w : world) :
  nodeAt w p <> Unreadable -> nodeAt (store file content w) p <> Unreadable.
Proof.
  unfold store. cbn [nodeAt]. destruct (String.eqb p file); [|auto].
  destruct (nodeAt w p); cbn [written]; congruence.
Qed.

Lemma updateFiles_done (cfg : pluginConfig) (d : decision)
    (bv av contentB contentA : string) (w : world) :
  botVersionFile cfg <> apiVersionFile cfg ->
  pyprojectFile cfg <> Some (botVersionFile cfg) ->
  pyprojectFile cfg <> Some (apiVersionFile cfg) ->
  readFileSync w (botVersionFile cfg) = Some contentB ->
  readFileSync w (apiVersionFile cfg) = Some contentA ->
  writable w (botVersionFile cfg) = true ->
  writable w (apiVersionFile cfg) = true ->
  (forall py, pyprojectFile cfg = Some py ->
              writable w py = true /\ nodeAt w py <> Unreadable) ->
  post (updateFiles cfg d bv av w) (fun r w1 =>
    r = Returned tt /\
    writable w1 = writable w /\ nodeRuns w1 = nodeRuns w /\
    (forall p, nodeAt w p <> Unreadable -> nodeAt w1 p <> Unreadable) /\
    readFileSync w1 (botVersionFile cfg)
    = Some (if bumpBot d
            then replace versionAssignPattern (quoted "__version__" bv) contentB
            else contentB) /\
    readFileSync w1 (apiVersionFile cfg)
    = Some (if bumpApi d
            then replace versionAssignPattern (quoted "__version__" av) contentA
            else contentA)).
Proof.
  intros Hne Hpb Hpa HrB HrA HwB HwA Hpy. unfold updateFiles.
  assert (HsB : Str.isSome (readFileSync w (botVersionFile cfg)) = true)
    by (rewrite HrB; reflexivity).
  assert (HsA : Str.isSome (readFileSync w (apiVersionFile cfg)) = true)
    by (rewrite HrA; reflexivity).
  repeat wp_step; cbn [negb] in *.
  all: first
    [ solve [ repeat match goal with
                     | H : Some _ = Some _ |- _ => injection H as <-
                     end;
              repeat match goal with
                     | H : readFileSync (store _ _ _) _ = _ |- _ =>
                         progress (rewrite !read_store_other in H by congruence)
                     end;
              repeat match goal with
                     | H1 : readFileSync ?w0 ?f = Some _,
                       H2 : readFileSync ?w0 ?f = Some _ |- _ =>
                         rewrite H1 in H2; injection H2 as <-
                     end;
              repeat match goal with
                     | H : forall py, Some ?p = Some py -> _ |- _ =>
                         specialize (H p eq_refl); destruct H
                     end;
              split; [reflexivity|]; split; [reflexivity|];
              split; [reflexivity|]; split;
              [ intros q Hq; repeat apply store_keeps; exact Hq |];
              split;
              rewrite ?read_store_other by congruence;
              first [ eapply read_after_store;
                      rewrite ?read_store_other by congruence; eassumption
                    | assumption ] ]
    | refute_update ].
Qed.

Lemma read_store_same (file : path) (content : string) (w : world) :
  nodeAt w file <> Unreadable ->
  readFileSync (store file content w) file = Some content.
Proof.
  intros H. unfold readFileSync, store. cbn [nodeAt].
  rewrite String.eqb_refl. destruct (nodeAt w file); cbn [written];
    congruence.
Qed.

(** X24: from the version files to the wrapper manifests.  With the
    version files of the repository configured, every path writable,
    nothing unreadable and node at hand, a release whose new versions
    have the shape \d+\.\d+\.\d+ goes through: prepare returns the new
    versions, the version files then hold them, and so do the manifests
    that sync_versions.js writes from what get_version.js reads.  The
    versions are short enough for every child to stay within the buffer
    of spawnSync: sync_versions.js prints each version twice and 246
    bytes besides. *)
Theorem X24_release_reaches_manifests (cfg : pluginConfig) (ctx : context)
    (w : world) (cb ca bv av : string) :
  botVersionFile cfg = botInit -> apiVersionFile cfg = apiInit ->
  pyprojectFile cfg <> Some botInit -> pyprojectFile cfg <> Some apiInit ->
  (forall p, writable w p = true) -> (forall p, nodeAt w p <> Unreadable) ->
  nodeRuns w = true ->
  result (readPythonVersion botInit w) = Returned (Some cb) ->
  result (readPythonVersion apiInit w) = Returned (Some ca) ->
  nextVersions (analyzeCommits (commits ctx)) (releaseType ctx) cb ca
  = (bv, av) ->
  Spec.canonical bv = true -> Spec.canonical av = true ->
  (2 * (utf8Length bv + utf8Length av) + 246 <=? maxBuffer)%N = true ->
  result (prepare cfg ctx w) =
    Returned {| botVersion := bv; apiVersion := av; version := bv |} /\
  result (readPythonVersion botInit (final (prepare cfg ctx w)))
  = Returned (Some bv) /\
  result (readPythonVersion apiInit (final (prepare cfg ctx w)))
  = Returned (Some av) /\
  readFileSync (final (prepare cfg ctx w)) botManifest
  = Some (manifestText "nightscout-backup-bot" bv) /\
  readFileSync (final (prepare cfg ctx w)) apiManifest
  = Some (manifestText "nightscout-backup-api" av) /\
  In (Log SyncDone) (logged (prepare cfg ctx w)).
Proof.
  intros Hbf Haf Hpb Hpa Hw Hu Hn Hb Ha Hnext Hcb Hca Hsize.
  assert (Fb : fits bv = true /\ fits av = true).
  { unfold fits. rewrite !N.ltb_lt. apply N.leb_le in Hsize. lia. }
  destruct Fb as (Fb & Fa).
  apply read_current in Hb, Ha. rewrite !read_current.
  pose proof Hb as HB. pose proof Ha as HA.
  unfold Spec.currentVersion in HB, HA.
  destruct (readFileSync w botInit) as [contentB|] eqn:HrB; [|discriminate].
  destruct (readFileSync w apiInit) as [contentA|] eqn:HrA; [|discriminate].
  rewrite prepare_run, Hbf, Haf, Hb, Ha. cbv zeta.
  revert Hnext. generalize (analyzeCommits (commits ctx)). intros d Hnext.
  rewrite Hnext. cbn [fst snd].
  pose proof (updateFiles_done cfg d bv av contentB contentA w) as Hup.
  rewrite Hbf, Haf in Hup.
  specialize (Hup ltac:(discriminate) Hpb Hpa HrB HrA (Hw _) (Hw _)
                  (fun py _ => conj (Hw py) (Hu py))).
  unfold post in Hup.
  destruct (updateFiles cfg d bv av w) as [[r w1] l1].
  cbn [result final fst snd] in Hup.
  destruct Hup as (-> & Hw1 & Hn1 & Hkeep & HB1 & HA1).
  destruct d as [bb ba]. unfold nextVersions in Hnext.
  cbn [bumpBot bumpApi] in Hnext, HB1, HA1. injection Hnext as Hbv Hav.
  rewrite Hn in Hn1.
  assert (Cb : handed w1 botInit = Some bv).
  { apply handed_some. split; [exact Hn1|]. split; [|exact Fb].
    unfold Spec.currentVersion. rewrite HB1. destruct bb.
    - apply read_written; [exact Hcb|]. rewrite HB. reflexivity.
    - rewrite <- Hbv. exact HB. }
  assert (Ca : handed w1 apiInit = Some av).
  { apply handed_some. split; [exact Hn1|]. split; [|exact Fa].
    unfold Spec.currentVersion. rewrite HA1. destruct ba.
    - apply read_written; [exact Hca|]. rewrite HA. reflexivity.
    - rewrite <- Hav. exact HA. }
  rewrite sync_run, syncVersionsScript_run, Hn1, Cb, Ca.
  rewrite (trim_solid bv (canonical_solid bv Hcb)),
          (trim_solid av (canonical_solid av Hca)).
  destruct (canonical_chars bv Hcb) as (-> & _).
  destruct (canonical_chars av Hca) as (-> & _).
  cbn [orb]. cbv zeta. rewrite Hw1, !Hw.
  cbn [andb fst snd result final logged Z.eqb].
  apply handed_some in Cb as (_ & Cb & _).
  apply handed_some in Ca as (_ & Ca & _).
  split; [reflexivity|].
  split; [|split; [|split; [|split]]].
  - rewrite <- Cb. apply currentVersion_ext.
    rewrite !store_other by discriminate. reflexivity.
  - rewrite <- Ca. apply currentVersion_ext.
    rewrite !store_other by discriminate. reflexivity.
  - rewrite read_store_other by discriminate.
    apply read_store_same, Hkeep, Hu.
  - apply read_store_same, store_keeps, Hkeep, Hu.
  - apply in_or_app. right. apply in_or_app. right. right. left.
    reflexivity.
Qed.

Lemma X24_witness :
  let run := prepare Example.config (Example.botFeature "minor") Example.repo in
  readFileSync (final run) botManifest
  = Some (manifestText "nightscout-backup-bot" "2.1.0") /\
  readFileSync (final run) apiManifest
  = Some (manifestText "nightscout-backup-api" "1.5.2").
Proof.
  intros run.
  destruct (X24_release_reaches_manifests Example.config
              (Example.botFeature "minor") Example.repo
              "2.0.0" "1.5.2" "2.1.0" "1.5.2" eq_refl eq_refl)
    as (_ & _ & _ & H1 & H2 & _); try reflexivity; try discriminate.
  - intros p. unfold Example.repo, Example.tree. cbn [nodeAt].
    destruct (String.eqb p botInit); [discriminate|].
    destruct (String.eqb p apiInit); [discriminate|].
    destruct (String.eqb p "pyproject.toml"); discriminate.
  - split; assumption.
Defined.

Lemma updateFiles_pyproject_any (cfg : pluginConfig) (d : decision)
    (bv av : string) (w : world) (py : path) (content contentB : string) :
  bumpBot d = true -> pyprojectFile cfg = Some py ->
  py <> botVersionFile cfg -> py <> apiVersionFile cfg ->
  nodeAt w py = File content ->
  readFileSync w (botVersionFile cfg) = Some contentB ->
  post (updateFiles cfg d bv av w) (fun _ w1 =>
    nodeAt w1 py =
    File (if writable w (botVersionFile cfg) && negb (Str.isEmpty py) &&
             writable w py
          then replace pyprojectPattern (quoted "version" bv) content
          else content)).
Proof.
  intros Hd Hpy Hbot Hapi Hnode HrB. unfold updateFiles. rewrite Hd, Hpy.
  cbn [when].
  assert (Hread : forall f c w', f <> py -> readFileSync (store f c w') py = readFileSync w' py)
    by (intros; apply read_store_other; congruence).
  assert (Hex : forall f c w', f <> py -> existsSync (store f c w') py = existsSync w' py)
    by (intros f c w' Hf; unfold existsSync; rewrite store_other by congruence; reflexivity).
  assert (Hr0 : readFileSync w py = Some content)
    by (unfold readFileSync; rewrite Hnode; reflexivity).
  assert (He0 : existsSync w py = true)
    by (unfold existsSync; rewrite Hnode; reflexivity).
  repeat wp_step; cbn [store writable negb] in *;
    rewrite ?Hread, ?Hex in * by congruence;
    try congruence;
    repeat match goal with
           | H : readFileSync w py = Some ?c |- _ =>
               lazymatch c with
               | content => fail
               | _ => rewrite Hr0 in H; injection H as <-
               end
           | H : negb (Str.isEmpty py) && existsSync w py = _ |- _ =>
               rewrite He0, andb_true_r in H
           end;
    rewrite ?store_other by congruence;
    try (rewrite (store_same py _ content)
           by (rewrite ?store_other by congruence; exact Hnode));
    repeat match goal with
           | H : negb (Str.isEmpty py) = _ |- _ => rewrite H
           | H : writable w py = _ |- _ => rewrite H
           end;
    cbn [andb]; try reflexivity; try exact Hnode.
Qed.

Lemma updateFiles_pyproject_absent (cfg : pluginConfig) (d : decision)
    (bv av : string) (w : world) (py : path) :
  pyprojectFile cfg = Some py ->
  py <> botVersionFile cfg -> py <> apiVersionFile cfg ->
  (forall content, nodeAt w py <> File content) ->
  post (updateFiles cfg d bv av w) (fun _ w1 => nodeAt w1 py = nodeAt w py).
Proof.
  intros Hpy Hbot Hapi Hnode. unfold updateFiles. rewrite Hpy.
  assert (Hread : forall f c w', f <> py ->
            readFileSync (store f c w') py = readFileSync w' py)
    by (intros; apply read_store_other; congruence).
  assert (Hr0 : readFileSync w py = None).
  { unfold readFileSync. destruct (nodeAt w py) as [| |c];
      try reflexivity. destruct (Hnode c eq_refl). }
  repeat wp_step; cbn [store writable negb] in *;
    rewrite ?Hread in * by congruence;
    try congruence;
    rewrite ?store_other by congruence; reflexivity.
Qed.

Lemma updateFiles_bot_written (cfg : pluginConfig) (d : decision)
    (bv av contentB : string) (w : world) :
  bumpBot d = true ->
  readFileSync w (botVersionFile cfg) = Some contentB ->
  pyprojectFile cfg <> Some (botVersionFile cfg) ->
  (bumpApi d = true -> apiVersionFile cfg <> botVersionFile cfg) ->
  post (updateFiles cfg d bv av w) (fun r w1 =>
    r = Returned tt ->
    readFileSync w1 (botVersionFile cfg)
    = Some (replace versionAssignPattern (quoted "__version__" bv) contentB)).
Proof.
  intros Hd HrB Hpy Hapi. unfold updateFiles. rewrite Hd. cbn [when].
  repeat wp_step; cbn [negb] in *; use_flags; try discriminate; intros _;
    repeat match goal with
           | H : Some _ = Some _ |- _ => injection H as <-
           end;
    rewrite ?read_store_other by congruence;
    eapply read_after_store; eassumption.
Qed.

(** * Whole runs of prepare *)

(** C5: with the bot at 2.0.0, the API at 1.5.2, the release type minor
    and the single commit feat(bot): x, only the bot is bumped; when the
    files can be written prepare returns bot 2.1.0, api 1.5.2 and the
    version 2.1.0, the API file is left as it was, and the bot file
    then holds the version 2.1.0. *)
Theorem C5_bot_commit_minor (cfg : pluginConfig) (w : world) :
  let ctx := {| commits := [{| message := "feat(bot): x" |}];
                releaseType := "minor" |} in
  Spec.currentVersion w (botVersionFile cfg) = Some "2.0.0" ->
  Spec.currentVersion w (apiVersionFile cfg) = Some "1.5.2" ->
  writable w (botVersionFile cfg) = true ->
  (forall py, pyprojectFile cfg = Some py ->
              writable w py = true /\ nodeAt w py <> Unreadable) ->
  analyzeCommits (commits ctx) = {| bumpBot := true; bumpApi := false |} /\
  result (prepare cfg ctx w) =
    Returned {| botVersion := "2.1.0"; apiVersion := "1.5.2";
                version := "2.1.0" |} /\
  (pyprojectFile cfg <> Some (apiVersionFile cfg) ->
   apiVersionFile cfg <> botManifest -> apiVersionFile cfg <> apiManifest ->
   nodeAt (final (prepare cfg ctx w)) (apiVersionFile cfg) =
   nodeAt w (apiVersionFile cfg)) /\
  (pyprojectFile cfg <> Some (botVersionFile cfg) ->
   botVersionFile cfg <> botManifest -> botVersionFile cfg <> apiManifest ->
   result (readPythonVersion (botVersionFile cfg) (final (prepare cfg ctx w)))
   = Returned (Some "2.1.0")).
Proof.
  intros ctx Hb Ha Hw Hpy.
  assert (Hd : analyzeCommits (commits ctx) =
               {| bumpBot := true; bumpApi := false |}) by reflexivity.
  assert (Hr : Str.isSome (readFileSync w (botVersionFile cfg)) = true).
  { unfold Spec.currentVersion in Hb.
    destruct (readFileSync w (botVersionFile cfg)); [reflexivity|].
    discriminate. }
  assert (Hrun : exists w1 l1,
            updateFiles cfg {| bumpBot := true; bumpApi := false |}
              "2.1.0" "1.5.2" w = (Returned tt, w1, l1)).
  { pose proof (updateFiles_ok cfg {| bumpBot := true; bumpApi := false |}
                  "2.1.0" "1.5.2" w) as Hu.
    unfold post in Hu. cbn [bumpBot bumpApi] in Hu.
    specialize (Hu (fun _ => conj Hr (conj Hw Hpy))
                   (fun H => False_ind _ (diff_false_true H))).
    destruct (updateFiles cfg _ "2.1.0" "1.5.2" w) as [[r w1] l1].
    cbn [result fst] in Hu. subst r. eauto. }
  destruct Hrun as (w1 & l1 & Hrun).
  split; [exact Hd|]. split; [|split].
  - rewrite prepare_run, Hb, Ha. cbv zeta. rewrite Hd.
    change (nextVersions _ (releaseType ctx) "2.0.0" "1.5.2")
      with ("2.1.0", "1.5.2").
    cbn [fst snd]. rewrite Hrun.
    rewrite sync_run. destruct (nodeRuns w1); reflexivity.
  - intros Hp Hm1 Hm2. apply prepare_frame; try assumption.
    + intros _. split; [|exact Hp]. intros E. rewrite E in Ha.
      rewrite Ha in Hb. discriminate.
    + fold ctx. rewrite Hd. discriminate.
  - intros Hp Hm1 Hm2. rewrite read_current.
    pose proof Hb as Hcur. unfold Spec.currentVersion in Hcur.
    destruct (readFileSync w (botVersionFile cfg)) as [contentB|] eqn:HrB;
      [|discriminate].
    pose proof (updateFiles_bot_written cfg
                  {| bumpBot := true; bumpApi := false |}
                  "2.1.0" "1.5.2" contentB w eq_refl HrB Hp
                  (fun H => False_ind _ (diff_false_true H))) as Hu.
    unfold post in Hu. rewrite Hrun in Hu. cbn [result final fst snd] in Hu.
    specialize (Hu eq_refl).
    rewrite prepare_run, Hb, Ha. cbv zeta. rewrite Hd.
    change (nextVersions _ (releaseType ctx) "2.0.0" "1.5.2")
      with ("2.1.0", "1.5.2").
    cbn [fst snd]. rewrite Hrun.
    pose proof (sync_frame "2.1.0" "1.5.2" w1 _ Hm1 Hm2) as Hs.
    destruct (syncWrapperVersions "2.1.0" "1.5.2" w1) as [[[synced|e] w2] l2];
      cbn [final fst snd] in Hs |- *;
      rewrite (currentVersion_ext w1 w2 _ Hs);
      unfold Spec.currentVersion; rewrite Hu;
      (apply read_written; [reflexivity|rewrite Hcur; reflexivity]).
Qed.

Lemma C5_witness :
  Spec.currentVersion Example.repo botInit = Some "2.0.0" /\
  Spec.currentVersion Example.repo apiInit = Some "1.5.2" /\
  result (prepare Example.config (Example.botFeature "minor") Example.repo)
  = Returned {| botVersion := "2.1.0"; apiVersion := "1.5.2";
                version := "2.1.0" |} /\
  result (readPythonVersion botInit
            (final (prepare Example.config (Example.botFeature "minor")
                      Example.repo)))
  = Returned (Some "2.1.0") /\
  result (readPythonVersion apiInit
            (final (prepare Example.config (Example.botFeature "minor")
                      Example.repo)))
  = Returned (Some "1.5.2").
Proof.
  assert (Hb : Spec.currentVersion Example.repo
                 (botVersionFile Example.config) = Some "2.0.0")
    by reflexivity.
  assert (Ha : Spec.currentVersion Example.repo
                 (apiVersionFile Example.config) = Some "1.5.2")
    by reflexivity.
  assert (Hpy : forall py, pyprojectFile Example.config = Some py ->
                  writable Example.repo py = true /\
                  nodeAt Example.repo py <> Unreadable).
  { intros py [= <-]. split; [reflexivity|discriminate]. }
  destruct (C5_bot_commit_minor Example.config Example.repo
              Hb Ha eq_refl Hpy) as (_ & Hres & Hapi & Hbot).
  split; [exact Hb|]. split; [exact Ha|]. split; [exact Hres|]. split.
  - apply Hbot; discriminate.
  - apply read_current. rewrite <- Ha. apply currentVersion_ext.
    apply Hapi; discriminate.
Defined.

(** C8, as the code has it: no function of the plugin checks the shape
    of a version.  Whatever non-empty text without quotes is assigned to
    __version__ at the head of the bot file, of the shape \d+\.\d+\.\d+
    or not, readPythonVersion returns it as it stands, and prepare takes
    it as the current bot version: it does not throw the error of a
    version that cannot be read, it logs the text as the current
    version, and when the bot is bumped it hands the text to
    calculateNextVersion and goes on with the result. *)
Theorem C8_any_quoted_text_is_read (cfg : pluginConfig) (ctx : context)
    (w : world) (v rest ca : string) :
  Str.isEmpty v = false ->
  Str.forallb notQuote v = true ->
  readFileSync w (botVersionFile cfg)
  = Some (quoted "__version__" v ++ rest) ->
  result (readPythonVersion (apiVersionFile cfg) w) = Returned (Some ca) ->
  result (readPythonVersion (botVersionFile cfg) w) = Returned (Some v) /\
  result (prepare cfg ctx w)
  <> Thrown "Could not read current versions from Python files" /\
  In (Log (CurrentBot v)) (logged (prepare cfg ctx w)) /\
  (bumpBot (analyzeCommits (commits ctx)) = true ->
   In (Log (BumpingBot v (calculateNextVersion v (releaseType ctx))))
      (logged (prepare cfg ctx w)) /\
   forall r, result (prepare cfg ctx w) = Returned r ->
             botVersion r = calculateNextVersion v (releaseType ctx) /\
             version r = calculateNextVersion v (releaseType ctx)).
Proof.
  intros Hne Hq Hread Ha.
  assert (Hb : Spec.currentVersion w (botVersionFile cfg) = Some v).
  { unfold Spec.currentVersion. rewrite Hread. unfold versionIn, exec.
    rewrite (scan_free versionPattern None _ eq_refl), matchHere_version,
            (keyed_quoted v rest Hq Hne).
    reflexivity. }
  apply read_current in Ha.
  split; [apply read_current, Hb|].
  rewrite prepare_run, Hb, Ha. cbv zeta.
  generalize (analyzeCommits (commits ctx)). intros d.
  pose proof (updateFiles_errors cfg d
                (fst (nextVersions d (releaseType ctx) v ca))
                (snd (nextVersions d (releaseType ctx) v ca)) w) as Hu.
  unfold post in Hu.
  assert (Hhead : In (Log (CurrentBot v))
                     (Spec.header d v ca
                        (fst (nextVersions d (releaseType ctx) v ca))
                        (snd (nextVersions d (releaseType ctx) v ca))))
    by (unfold Spec.header; apply in_or_app; left; right; left;
        reflexivity).
  assert (Hbump : bumpBot d = true ->
            In (Log (BumpingBot v (calculateNextVersion v (releaseType ctx))))
               (Spec.header d v ca
                  (fst (nextVersions d (releaseType ctx) v ca))
                  (snd (nextVersions d (releaseType ctx) v ca))) /\
            fst (nextVersions d (releaseType ctx) v ca)
            = calculateNextVersion v (releaseType ctx)).
  { intros Hd. unfold Spec.header, nextVersions. rewrite Hd. cbn [fst].
    split; [|reflexivity].
    apply in_or_app. right. apply in_or_app. left. left. reflexivity. }
  destruct (updateFiles cfg d _ _ w) as [[[[]|e] w1] l1];
    cbn [result fst] in Hu.
  - destruct (syncWrapperVersions _ _ w1) as [[[synced|e] w2] l2] eqn:Hs;
      cbn [result logged fst snd].
    + split; [discriminate|]. split; [apply in_or_app; auto|].
      intros Hd. destruct (Hbump Hd) as (Hin & Hv).
      split; [apply in_or_app; auto|].
      intros r [= <-]. cbn [botVersion version]. auto.
    + rewrite sync_run in Hs. destruct (nodeRuns w1); discriminate.
  - cbn [result logged fst snd].
    split.
    + destruct Hu as [Hu|[Hu|[Hu|Hu]]]; try discriminate;
        injection Hu as ->; cbn [append]; discriminate.
    + split; [apply in_or_app; auto|].
      intros Hd. destruct (Hbump Hd) as (Hin & Hv).
      split; [apply in_or_app; auto|]. discriminate.
Qed.

Lemma C8_witness :
  let run := prepare Example.config (Example.botFeature "patch")
               Example.beta in
  Spec.canonical "1.2.3-beta" = false /\
  result (readPythonVersion botInit Example.beta)
  = Returned (Some "1.2.3-beta") /\
  In (Log (BumpingBot "1.2.3-beta" "1.2.NaN")) (logged run) /\
  forall r, result run = Returned r -> botVersion r = "1.2.NaN".
Proof.
  intros run.
  destruct (C8_any_quoted_text_is_read Example.config
              (Example.botFeature "patch") Example.beta "1.2.3-beta"
              (String newline EmptyString) "1.5.2"
              eq_refl eq_refl eq_refl eq_refl) as (Hread & _ & _ & Hbump).
  destruct (Hbump eq_refl) as (Hlog & Hres).
  split; [reflexivity|]. split; [exact Hread|]. split; [exact Hlog|].
  intros r Hr. exact (proj1 (Hres r Hr)).
Defined.

(** The claim C8 fails on a bot file that holds the version 1.2.3-beta:
    the text is not of the shape \d+\.\d+\.\d+, readPythonVersion returns
    it all the same, and prepare computes the next version from it. *)
Lemma C8_counterexample :
  Spec.canonical "1.2.3-beta" = false /\
  Spec.currentVersion Example.beta botInit = Some "1.2.3-beta" /\
  result (prepare Example.config (Example.botFeature "patch") Example.beta)
  = Returned {| botVersion := "1.2.NaN"; apiVersion := "1.5.2";
                version := "1.2.NaN" |}.
Proof. vm_compute. repeat split; reflexivity. Qed.

(** C10: pyproject.toml, a file of its own, in every run of prepare.  It
    is left as it was when bumpBot is false, and when the version of the
    bot cannot be read.  When bumpBot is true, whatever the outcome of
    the run, it is either as it was or has its first version line
    replaced by the assignment of the new bot version: the second when
    both versions can be read and the bot file and pyproject.toml can be
    written, also in a run that throws afterwards at the API file, the
    first otherwise.  In a run that returns, the new bot version is the
    bot version returned. *)
Theorem C10_pyproject_follows_bot (cfg : pluginConfig) (ctx : context)
    (w : world) (py : path) :
  pyprojectFile cfg = Some py ->
  py <> apiVersionFile cfg -> py <> botManifest -> py <> apiManifest ->
  let d := analyzeCommits (commits ctx) in
  (bumpBot d = false ->
   nodeAt (final (prepare cfg ctx w)) py = nodeAt w py) /\
  (forall r content,
     bumpBot d = true -> result (prepare cfg ctx w) = Returned r ->
     Str.isEmpty py = false -> py <> botVersionFile cfg ->
     nodeAt w py = File content ->
     nodeAt (final (prepare cfg ctx w)) py =
       File (replace pyprojectPattern (quoted "version" (botVersion r))
               content) /\
     forall m,
       exec pyprojectPattern content = Some m ->
       Str.forallb (fun c => negb (Ascii.eqb c "$")) (botVersion r) = true ->
       nodeAt (final (prepare cfg ctx w)) py =
         File (before m ++ quoted "version" (botVersion r) ++ after m)) /\
  (result (readPythonVersion (botVersionFile cfg) w) = Returned None ->
   nodeAt (final (prepare cfg ctx w)) py = nodeAt w py) /\
  (bumpBot d = true -> py <> botVersionFile cfg ->
   (forall content, nodeAt w py <> File content) ->
   nodeAt (final (prepare cfg ctx w)) py = nodeAt w py) /\
  (forall cb content,
     bumpBot d = true -> py <> botVersionFile cfg ->
     nodeAt w py = File content ->
     result (readPythonVersion (botVersionFile cfg) w) = Returned (Some cb) ->
     let bv := calculateNextVersion cb (releaseType ctx) in
     (forall r, result (prepare cfg ctx w) = Returned r -> botVersion r = bv) /\
     nodeAt (final (prepare cfg ctx w)) py =
       File (if Str.isSome (Spec.currentVersion w (apiVersionFile cfg)) &&
                writable w (botVersionFile cfg) &&
                negb (Str.isEmpty py) && writable w py
             then replace pyprojectPattern (quoted "version" bv) content
             else content)).
Proof.
  intros Hpy Hapi Hm1 Hm2 d. split; [|split; [|split; [|split]]].
  - intros Hd. apply prepare_frame; try assumption; fold d.
    + rewrite Hd. discriminate.
    + intros _. exact Hapi.
  - intros r content Hd Hres Hne Hbot Hnode.
    assert (Hfinal :
      nodeAt (final (prepare cfg ctx w)) py =
      File (replace pyprojectPattern (quoted "version" (botVersion r))
              content)).
    { revert Hres. rewrite prepare_run.
      destruct (Spec.currentVersion w (botVersionFile cfg)) as [cb|];
        [|discriminate].
      destruct (Spec.currentVersion w (apiVersionFile cfg)) as [ca|];
        [|discriminate].
      cbv zeta. fold d.
      set (bv := fst (nextVersions d (releaseType ctx) cb ca)).
      set (av := snd (nextVersions d (releaseType ctx) cb ca)).
      pose proof (updateFiles_pyproject cfg d bv av w py content
                    Hd Hpy Hne Hbot Hapi Hnode) as Hu.
      unfold post in Hu.
      destruct (updateFiles cfg d bv av w) as [[[[]|e] w1] l1];
        cbn [result final fst snd] in Hu |- *; [|discriminate].
      pose proof (sync_frame bv av w1 py Hm1 Hm2) as Hs.
      destruct (syncWrapperVersions bv av w1) as [[[synced|e] w2] l2];
        cbn [result final fst snd] in Hs |- *; [|discriminate].
      intros [= <-]. cbn [botVersion]. rewrite Hs. apply Hu. reflexivity. }
    split; [exact Hfinal|].
    intros m Hm Hplain. rewrite Hfinal. f_equal.
    apply replace_version; [|exact Hm].
    apply quoted_plain; [reflexivity|exact Hplain].
  - intros Hb. apply read_current in Hb. rewrite prepare_run, Hb.
    reflexivity.
  - intros Hd Hbot Hnode. rewrite prepare_run.
    destruct (Spec.currentVersion w (botVersionFile cfg)) as [cb|];
      [|reflexivity].
    destruct (Spec.currentVersion w (apiVersionFile cfg)) as [ca|];
      [|reflexivity].
    cbv zeta. fold d.
    set (bv := fst (nextVersions d (releaseType ctx) cb ca)).
    set (av := snd (nextVersions d (releaseType ctx) cb ca)).
    pose proof (updateFiles_pyproject_absent cfg d bv av w py
                  Hpy Hbot Hapi Hnode) as Hu.
    unfold post in Hu.
    destruct (updateFiles cfg d bv av w) as [[[[]|e] w1] l1];
      cbn [result final fst snd] in Hu |- *; [|exact Hu].
    pose proof (sync_frame bv av w1 py Hm1 Hm2) as Hs.
    destruct (syncWrapperVersions bv av w1) as [[[synced|e] w2] l2];
      cbn [final fst snd] in Hs |- *; congruence.
  - intros cb content Hd Hbot Hnode Hb bv. apply read_current in Hb.
    pose proof Hb as Hcur. unfold Spec.currentVersion in Hcur.
    destruct (readFileSync w (botVersionFile cfg)) as [contentB|] eqn:HrB;
      [|discriminate].
    rewrite prepare_run, Hb.
    destruct (Spec.currentVersion w (apiVersionFile cfg)) as [ca|].
    2:{ cbn [result final fst snd Str.isSome andb]. split; [discriminate|].
        exact Hnode. }
    cbv zeta. fold d. unfold nextVersions. rewrite Hd. cbn [fst snd].
    fold bv. cbn [Str.isSome andb].
    set (av := if bumpApi d then calculateNextVersion ca (releaseType ctx)
               else ca).
    pose proof (updateFiles_pyproject_any cfg d bv av w py content contentB
                  Hd Hpy Hbot Hapi Hnode HrB) as Hu.
    unfold post in Hu.
    destruct (updateFiles cfg d bv av w) as [[[[]|e] w1] l1];
      cbn [result final fst snd] in Hu |- *.
    + pose proof (sync_frame bv av w1 py Hm1 Hm2) as Hs.
      destruct (syncWrapperVersions bv av w1) as [[[synced|e] w2] l2];
        cbn [result final fst snd] in Hs |- *.
      * split; [intros r [= <-]; reflexivity|]. congruence.
      * split; [discriminate|]. congruence.
    + split; [discriminate|]. exact Hu.
Qed.

Lemma C10_witness :
  let py := "pyproject.toml" in
  let bumped := File ("[tool.poetry]" ++ String newline
                  ("name = 'nightscout-backup-bot'" ++ String newline
                  (quoted "version" "2.1.0" ++ String newline EmptyString))) in
  let halfway := {| nodeAt := Example.tree "2.0.0" "1.5.2";
                    writable := fun p => negb (String.eqb p apiInit);
                    nodeRuns := true |} in
  let docs := {| commits := [{| message := "docs: update readme" |}];
                 releaseType := "minor" |} in
  (nodeAt (final (prepare Example.config Example.apiFix Example.repo)) py
   = nodeAt Example.repo py) /\
  nodeAt (final (prepare Example.config (Example.botFeature "minor")
                   Example.repo)) py
  = bumped /\
  result (prepare Example.config docs halfway)
  = Thrown ("Failed to update API version in " ++ apiInit) /\
  nodeAt (final (prepare Example.config docs halfway)) py = bumped.
Proof.
  intros py bumped halfway docs.
  assert (Hneq : py <> apiVersionFile Example.config /\
                 py <> botManifest /\ py <> apiManifest /\
                 py <> botVersionFile Example.config)
    by (repeat split; discriminate).
  destruct Hneq as (H1 & H2 & H3 & H4).
  split; [|split; [|split]].
  - exact (proj1 (C10_pyproject_follows_bot Example.config Example.apiFix
                    Example.repo py eq_refl H1 H2 H3) eq_refl).
  - destruct (C10_pyproject_follows_bot Example.config
                (Example.botFeature "minor") Example.repo py
                eq_refl H1 H2 H3) as (_ & _ & _ & _ & H).
    destruct (H "2.0.0" Example.pyprojectToml eq_refl H4 eq_refl eq_refl)
      as (_ & H').
    exact H'.
  - reflexivity.
  - destruct (C10_pyproject_follows_bot Example.config docs halfway py
                eq_refl H1 H2 H3) as (_ & _ & _ & _ & H).
    destruct (H "2.0.0" Example.pyprojectToml eq_refl H4 eq_refl eq_refl)
      as (_ & H').
    exact H'.
Defined.
